(** * The Ralph-inspired orchestrator core of [src/orchestrator.py]

    A shallow embedding of the four classes of [src/orchestrator.py]
    ([CircuitBreaker], [RateLimiter], [StateManager], [ClaudeOrchestrator])
    and the properties the specification states about them.

    Modelling conventions.
    - A [datetime] is an integer count of microseconds (the resolution of
      Python's [datetime]); a [timedelta] is a difference of two of them and
      [total_seconds] divides by 10^6.  Python computes that quotient and the
      token buckets in binary floating point; here they are exact rationals.
    - [datetime.now()] reads a clock that the environment owns: every read
      takes the next reading of an arbitrary sequence, so nothing is assumed
      about how much time passes between two statements.
    - Python code that the classes receive from outside (the work given to
      [CircuitBreaker.call], the phase handlers, an overridden completion
      predicate) is a function on the environment that returns or raises.
    - [logger] calls are not modelled.  The journal of a [World] is ghost
      state: it records suspensions and calls of outside code, so that
      "waits w seconds", "is not executed" and "is invoked n times" can be
      stated.
    - The orchestrator takes its phase handlers and its completion
      predicate as parameters: they are what a deployment plugs in, and the
      properties quantify over them.  The predicate of the class and the
      simulated handler of the first phase are embedded as
      [default_check_completion_signal] and [_handle_data_scan]; the other
      four simulated handlers, which build fixed results, and [main] are
      left out. *)

From Stdlib Require Import ZArith QArith Qminmax Lia Lqa Bool List Ascii String.
From stdpp Require Import base option list gmap strings pretty.

Import ListNotations.
Set Warnings "-register-all".
Local Open Scope string_scope.
Local Open Scope list_scope.
Local Open Scope Z_scope.

(** ** Python values and control *)

(** An exception instance: its class name and [str(e)]. *)
Record exn := Exn { exn_class : string; exn_str : string }.

(** How a Python call ends.  [Raised] carries an instance of [Exception],
    which [except Exception] and a bare [except] both catch; [Aborted]
    carries a [BaseException] outside [Exception] ([KeyboardInterrupt],
    [SystemExit], [CancelledError]), which only a bare [except] catches. *)
Inductive outcome (A : Type) : Type :=
  | Returned (a : A)
  | Raised (e : exn)
  | Aborted (e : exn).
Arguments Returned {A} a.
Arguments Raised {A} e.
Arguments Aborted {A} e.

Definition is_returned {A} (r : outcome A) : bool :=
  match r with Returned _ => true | _ => false end.

Definition is_raised {A} (r : outcome A) : bool :=
  match r with Raised _ => true | _ => false end.

(** JSON documents, as [json.loads] builds them and [json.dumps] takes them.
    A Python [dict] keeps insertion order: an association list. *)
Inductive json : Type :=
  | JNull
  | JBool (b : bool)
  | JInt (z : Z)
  | JFloat (q : Q)
  | JStr (s : string)
  | JList (l : list json)
  | JDict (d : list (string * json)).

(** ** Time *)

Definition datetime := Z.
Definition timedelta := Z.

Definition total_seconds (d : timedelta) : Q := d # 1000000.

Definition seconds (n : Z) : timedelta := n * 1000000.

(** ** The environment *)

(** A [str] that holds the text of a document.  Texts are kept up to JSON
    parsing: [TJson v] is a text that [json.loads] parses to [v], which is
    what [json.dumps v] produces; [TRaw s] is a text that [json.loads]
    rejects. *)
Inductive text : Type :=
  | TJson (v : json)
  | TRaw (s : string).

(** What a path holds: a text, or something whose [read_text] raises (no
    permission, a directory, bytes that do not decode). *)
Inductive file : Type :=
  | FileText (t : text)
  | Unreadable.

Record Env := mkEnv {
  tick : nat;
  clock : nat -> datetime;
  files : gmap string file;
  dirs : gset string
}.

Inductive CyclePhase : Type :=
  | DATA_SCAN | IDEA | CODE_EDIT | BACKTEST | REPORT | COMPLETE.

Inductive event : Type :=
  | EvSleep (secs : Q)
  | EvWork
  | EvHandler (p : CyclePhase)
  | EvRunCycle (n : Z).

Record World := mkWorld {
  env : Env;
  journal : list event
}.

Definition emit (ev : event) (w : World) : World :=
  {| env := env w; journal := journal w ++ [ev] |}.

Definition advance (e : Env) : Env :=
  {| tick := S (tick e); clock := clock e; files := files e; dirs := dirs e |}.

Definition reading (e : Env) : datetime := clock e (tick e).

(** [datetime.now()], for code that only touches the environment *)
Definition env_now (e : Env) : datetime * Env := (reading e, advance e).

(** [datetime.now()] *)
Definition datetime_now (w : World) : datetime * World :=
  (reading (env w), {| env := advance (env w); journal := journal w |}).

(** [asyncio.sleep(secs)] *)
Definition sleep (secs : Q) (w : World) : World := emit (EvSleep secs) w.

(** A Python callable handed in from outside. *)
Record callable (A : Type) := Callable {
  iscoroutinefunction : bool;
  body : Env -> outcome A * Env
}.
Arguments Callable {A} _ _.
Arguments iscoroutinefunction {A} _.
Arguments body {A} _.

(** Calling [func] with its arguments, for a plain function *)
Definition invoke {A} (func : callable A) (w : World) : outcome A * World :=
  let '(r, e) := body func (env w) in
  (r, {| env := e; journal := journal w ++ [EvWork] |}).

(** ** class CircuitBreaker *)

Module CircuitBreaker.

Record t := mk {
  failure_threshold : Z;
  recovery_timeout : Z;
  failure_count : Z;
  last_failure_time : option datetime;
  state : string
}.

Definition __init__ (failure_threshold recovery_timeout : Z) : t :=
  {| failure_threshold := failure_threshold;
     recovery_timeout := recovery_timeout;
     failure_count := 0;
     last_failure_time := None;
     state := "CLOSED" |}.

Definition with_state (self : t) (s : string) : t :=
  {| failure_threshold := failure_threshold self;
     recovery_timeout := recovery_timeout self;
     failure_count := failure_count self;
     last_failure_time := last_failure_time self;
     state := s |}.

Definition _should_attempt_reset (self : t) (w : World) : bool * World :=
  match last_failure_time self with
  | None => (false, w)
  | Some t0 =>
      let '(now, w1) := datetime_now w in
      let elapsed := now - t0 in
      (Qle_bool (inject_Z (recovery_timeout self)) (total_seconds elapsed), w1)
  end.

Definition _on_success (self : t) : t :=
  {| failure_threshold := failure_threshold self;
     recovery_timeout := recovery_timeout self;
     failure_count := 0;
     last_failure_time := last_failure_time self;
     state := "CLOSED" |}.

Definition _on_failure (self : t) (w : World) : t * World :=
  let '(now, w1) := datetime_now w in
  let count := failure_count self + 1 in
  ({| failure_threshold := failure_threshold self;
      recovery_timeout := recovery_timeout self;
      failure_count := count;
      last_failure_time := Some now;
      state := if failure_threshold self <=? count then "OPEN" else state self |},
   w1).

Definition breaker_open : exn :=
  Exn "Exception" "Circuit breaker is OPEN - failing fast".

Definition async_unsupported : exn :=
  Exn "RuntimeError"
      ("Circuit breaker does not support async functions directly. " +:+
       "Use 'await execute_phase()' pattern instead.").

(** The [try] block of [call] and its [except Exception] handler. *)
Definition call_try {A} (self : t) (func : callable A) (w : World)
  : outcome A * t * World :=
  let '(r, w1) :=
    if iscoroutinefunction func
    then (Raised async_unsupported, w)
    else invoke func w in
  match r with
  | Returned result => (Returned result, _on_success self, w1)
  | Raised e => let '(self', w2) := _on_failure self w1 in (Raised e, self', w2)
  | Aborted e => (Aborted e, self, w1)
  end.

Definition call {A} (self : t) (func : callable A) (w : World)
  : outcome A * t * World :=
  if (state self =? "OPEN")%string then
    let '(reset, w1) := _should_attempt_reset self w in
    if reset
    then call_try (with_state self "HALF_OPEN") func w1
    else (Raised breaker_open, self, w1)
  else call_try self func w.

(** Successive calls on one breaker, as a caller issues them. *)
Fixpoint calls {A} (self : t) (funcs : list (callable A)) (w : World)
  : list (outcome A) * t * World :=
  match funcs with
  | [] => ([], self, w)
  | func :: rest =>
      let '(r, self1, w1) := call self func w in
      let '(rs, self2, w2) := calls self1 rest w1 in
      (r :: rs, self2, w2)
  end.

End CircuitBreaker.

(** ** class RateLimiter *)

Definition Qltb (a b : Q) : bool := negb (Qle_bool b a).

(** Python's [min(a, b)] and [max(a, b)]: the first argument wins a tie. *)
Definition py_min (a b : Q) : Q := if Qltb b a then b else a.
Definition py_max (a b : Q) : Q := if Qltb a b then b else a.

Module RateLimiter.

Record t := mk {
  rpm_limit : Z;
  rph_limit : Z;
  minute_bucket : Q;
  hour_bucket : Q;
  last_refill : datetime;
  request_times : list datetime
}.

Definition __init__ (requests_per_minute requests_per_hour : Z) (w : World)
  : t * World :=
  let '(now, w1) := datetime_now w in
  ({| rpm_limit := requests_per_minute;
      rph_limit := requests_per_hour;
      minute_bucket := inject_Z requests_per_minute;
      hour_bucket := inject_Z requests_per_hour;
      last_refill := now;
      request_times := [] |}, w1).

Definition _refill_buckets (self : t) (w : World) : t * World :=
  let '(now, w1) := datetime_now w in
  let elapsed := total_seconds (now - last_refill self) in
  if Qltb 0 elapsed then
    ({| rpm_limit := rpm_limit self;
        rph_limit := rph_limit self;
        minute_bucket :=
          py_min (inject_Z (rpm_limit self))
                 (minute_bucket self + (elapsed / 60) * inject_Z (rpm_limit self));
        hour_bucket :=
          py_min (inject_Z (rph_limit self))
                 (hour_bucket self + (elapsed / 3600) * inject_Z (rph_limit self));
        last_refill := now;
        request_times := request_times self |}, w1)
  else (self, w1).

Definition _clean_old_requests (self : t) (w : World) : t * World :=
  let '(now, w1) := datetime_now w in
  let cutoff := now - seconds 3600 in
  ({| rpm_limit := rpm_limit self;
      rph_limit := rph_limit self;
      minute_bucket := minute_bucket self;
      hour_bucket := hour_bucket self;
      last_refill := last_refill self;
      request_times := List.filter (fun t => cutoff <? t) (request_times self) |},
   w1).

(** The multiplier [acquire] derives from the request history: the last
    ten requests ([request_times[-10:]]) spanning less than 60 seconds
    double the wait.  The defaults of [hd] and [last] are never used, the
    slice having ten elements. *)
Definition backoff_multiplier (self : t) : Q :=
  if (10 <=? length (request_times self))%nat then
    let recent_requests :=
      skipn (length (request_times self) - 10) (request_times self) in
    let time_span :=
      total_seconds (List.last recent_requests 0 - hd 0 recent_requests) in
    if Qltb time_span 60 then 2 else 1
  else 1.

(** The wait [acquire] computes before the multiplier is applied. *)
Definition token_wait (self : t) (w : World) : Q * World :=
  let wait_time := 0%Q in
  let '(wait_time, w1) :=
    if Qltb (minute_bucket self) 1 then
      let '(now, w') := datetime_now w in
      let elapsed_since_refill := total_seconds (now - last_refill self) in
      (py_max wait_time (60 - elapsed_since_refill), w')
    else (wait_time, w) in
  if Qltb (hour_bucket self) 1 then
    let '(now, w') := datetime_now w1 in
    let elapsed_since_refill := total_seconds (now - last_refill self) in
    (py_max wait_time (3600 - elapsed_since_refill), w')
  else (wait_time, w1).

(** [wait_time] as [acquire] has it when it reaches [if wait_time > 0]. *)
Definition computed_wait (self : t) (w : World) : Q * World :=
  let '(wait_time, w1) := token_wait self w in
  ((wait_time * backoff_multiplier self)%Q, w1).

Definition consume (self : t) (now : datetime) : t :=
  {| rpm_limit := rpm_limit self;
     rph_limit := rph_limit self;
     minute_bucket := py_max 0 (minute_bucket self - 1);
     hour_bucket := py_max 0 (hour_bucket self - 1);
     last_refill := last_refill self;
     request_times := request_times self ++ [now] |}.

Definition acquire (self : t) (w : World) : t * World :=
  let '(self1, w1) := _refill_buckets self w in
  let '(self2, w2) := _clean_old_requests self1 w1 in
  let '(wait_time, w3) := computed_wait self2 w2 in
  let '(self3, w4) :=
    if Qltb 0 wait_time
    then _refill_buckets self2 (sleep wait_time w3)
    else (self2, w3) in
  let w5 :=
    if Qltb (minute_bucket self3) 1 || Qltb (hour_bucket self3) 1
    then sleep 1 w4
    else w4 in
  let '(now, w6) := datetime_now w5 in
  (consume self3 now, w6).

(** What a caller can do to a limiter between construction and now. *)
Inductive op := Acquire | Refill.

Definition step (o : op) (self : t) (w : World) : t * World :=
  match o with
  | Acquire => acquire self w
  | Refill => _refill_buckets self w
  end.

Fixpoint steps (os : list op) (self : t) (w : World) : t * World :=
  match os with
  | [] => (self, w)
  | o :: rest => let '(self1, w1) := step o self w in steps rest self1 w1
  end.

End RateLimiter.

(** ** Computations on the environment that may raise *)

Definition M (A : Type) : Type := Env -> outcome A * Env.

Definition ret {A} (a : A) : M A := fun e => (Returned a, e).

Definition raise {A} (x : exn) : M A := fun e => (Raised x, e).

Definition bind {A B} (m : M A) (k : A -> M B) : M B :=
  fun e =>
    match m e with
    | (Returned a, e1) => k a e1
    | (Raised x, e1) => (Raised x, e1)
    | (Aborted x, e1) => (Aborted x, e1)
    end.

Notation "'let*' x ':=' m 'in' k" := (bind m (fun x => k))
  (at level 10, x pattern, m at level 100, k at level 200).

(** [try: m  except: pass], followed by [h]: the bare [except] catches
    whatever [m] raises, and control falls through to [h]. *)
Definition try_except_pass {A} (m : M A) (h : M A) : M A :=
  fun e =>
    match m e with
    | (Returned a, e1) => (Returned a, e1)
    | (Raised _, e1) | (Aborted _, e1) => h e1
    end.

(** Running an environment computation where a [World] is at hand. *)
Definition lift {A} (m : M A) (w : World) : outcome A * World :=
  let '(r, e) := m (env w) in (r, {| env := e; journal := journal w |}).

Definition now : M datetime := fun e => (Returned (reading e), advance e).

(** *** pathlib and json *)

(** [Path.exists()] *)
Definition path_exists (p : string) : M bool :=
  fun e => (Returned (match files e !! p with Some _ => true | None => false end), e).

(** [Path.read_text()] *)
Definition read_text (p : string) : M text :=
  fun e =>
    match files e !! p with
    | Some (FileText t) => (Returned t, e)
    | Some Unreadable => (Raised (Exn "OSError" ("cannot read " +:+ p)), e)
    | None => (Raised (Exn "FileNotFoundError" p), e)
    end.

(** [Path.write_text(t)].  A write always succeeds: a full disk, a missing
    parent directory and the like are outside the model. *)
Definition write_text (p : string) (t : text) : M unit :=
  fun e =>
    (Returned tt,
     {| tick := tick e; clock := clock e;
        files := <[p := FileText t]> (files e); dirs := dirs e |}).

(** [Path.mkdir(exist_ok=True)] *)
Definition mkdir (p : string) : M unit :=
  fun e =>
    (Returned tt,
     {| tick := tick e; clock := clock e;
        files := files e; dirs := {[p]} ∪ dirs e |}).

Definition json_loads (t : text) : M json :=
  match t with
  | TJson v => ret v
  | TRaw s => raise (Exn "JSONDecodeError" "Expecting value")
  end.

Definition json_dumps (v : json) : text := TJson v.

(** [a / b] on paths *)
Definition path_join (a b : string) : string := a +:+ "/" +:+ b.

Fixpoint name_from (s acc : string) : string :=
  match s with
  | EmptyString => acc
  | String c rest =>
      if Ascii.eqb c "/"%char then name_from rest EmptyString
      else name_from rest (acc +:+ String c EmptyString)
  end.

(** [Path.name]: the last component *)
Definition path_name (p : string) : string := name_from p EmptyString.

(** [s.replace("/", "-")] *)
Fixpoint replace_slash (s : string) : string :=
  match s with
  | EmptyString => EmptyString
  | String c rest =>
      String (if Ascii.eqb c "/"%char then "-"%char else c) (replace_slash rest)
  end.

(** *** dict *)

Fixpoint dict_get (k : string) (d : list (string * json)) : option json :=
  match d with
  | [] => None
  | (k', v) :: rest => if (k' =? k)%string then Some v else dict_get k rest
  end.

(** [d[k] = v]: in place when the key is present, at the end otherwise *)
Fixpoint dict_set (k : string) (v : json) (d : list (string * json))
  : list (string * json) :=
  match d with
  | [] => [(k, v)]
  | (k', v') :: rest =>
      if (k' =? k)%string then (k, v) :: rest else (k', v') :: dict_set k v rest
  end.

(** [data.get(k)]: only a [dict] has the method *)
Definition py_get (data : json) (k : string) : M json :=
  match data with
  | JDict d => ret (default JNull (dict_get k d))
  | _ => raise (Exn "AttributeError" "object has no attribute 'get'")
  end.

(** [data.get(k, dflt)] *)
Definition py_get_default (data : json) (k : string) (dflt : json) : M json :=
  match data with
  | JDict d => ret (default dflt (dict_get k d))
  | _ => raise (Exn "AttributeError" "object has no attribute 'get'")
  end.

(** The truth value of a Python value, as [if v:] takes it. *)
Definition truthy (v : json) : bool :=
  match v with
  | JNull => false
  | JBool b => b
  | JInt z => negb (z =? 0)
  | JFloat q => negb (Qeq_bool q 0)
  | JStr s => negb (s =? EmptyString)%string
  | JList l => match l with [] => false | _ => true end
  | JDict d => match d with [] => false | _ => true end
  end.

(** [needle in s] for two [str]: [needle] occurs in [s]. *)
Fixpoint contains (needle s : string) : bool :=
  String.prefix needle s ||
  match s with
  | EmptyString => false
  | String _ rest => contains needle rest
  end.

(** [v == s] for a [str] [s]: only the same [str] is equal to it. *)
Definition is_str (s : string) (v : json) : bool :=
  match v with
  | JStr s' => (s' =? s)%string
  | _ => false
  end.

(** [needle in container] for a [str] needle: substring of a [str],
    element of a list, key of a [dict]; anything else is not iterable. *)
Definition py_in (needle : string) (container : json) : M bool :=
  match container with
  | JStr s => ret (contains needle s)
  | JList l => ret (existsb (is_str needle) l)
  | JDict d => ret (match dict_get needle d with Some _ => true | None => false end)
  | _ => raise (Exn "TypeError" "argument is not iterable")
  end.

Fixpoint last_char (s : string) : option ascii :=
  match s with
  | EmptyString => None
  | String c rest =>
      match last_char rest with
      | Some c' => Some c'
      | None => Some c
      end
  end.

(** [v[-1]] *)
Definition py_last (v : json) : M json :=
  match v with
  | JList (x :: l) => ret (List.last l x)
  | JList [] => raise (Exn "IndexError" "list index out of range")
  | JStr s =>
      match last_char s with
      | Some c => ret (JStr (String c EmptyString))
      | None => raise (Exn "IndexError" "string index out of range")
      end
  | JDict _ => raise (Exn "KeyError" "-1")
  | _ => raise (Exn "TypeError" "object is not subscriptable")
  end.

(** [str(v)]: a [str] is its own [str]; for the other values it is their
    [repr], whose formatting of floats and nesting is left as a
    parameter. *)
Definition py_str (repr : json -> string) (v : json) : string :=
  match v with
  | JStr s => s
  | _ => repr v
  end.

(** *** Printing dates *)

Definition civil_from_days (days : Z) : Z * Z * Z :=
  let z := days + 719468 in
  let era := z / 146097 in
  let doe := z - era * 146097 in
  let yoe := (doe - doe / 1460 + doe / 36524 - doe / 146096) / 365 in
  let doy := doe - (365 * yoe + yoe / 4 - yoe / 100) in
  let mp := (5 * doy + 2) / 153 in
  let d := doy - (153 * mp + 2) / 5 + 1 in
  let m := if mp <? 10 then mp + 3 else mp - 9 in
  let y := yoe + era * 400 in
  (if m <=? 2 then y + 1 else y, m, d).

Fixpoint zeros (n : nat) : string :=
  match n with O => EmptyString | S n' => String "0"%char (zeros n') end.

Definition zpad (width : nat) (n : Z) : string :=
  let s := pretty n in zeros (width - String.length s) +:+ s.

(** [strftime("%Y-%m-%d")] *)
Definition strftime_ymd (t : datetime) : string :=
  let '(y, m, d) := civil_from_days (t / 86400000000) in
  zpad 4 y +:+ "-" +:+ zpad 2 m +:+ "-" +:+ zpad 2 d.

(** [datetime.isoformat()] *)
Definition isoformat (t : datetime) : string :=
  let us := t mod 1000000 in
  let s := (t / 1000000) mod 86400 in
  strftime_ymd t +:+ "T" +:+ zpad 2 (s / 3600) +:+ ":" +:+ zpad 2 ((s / 60) mod 60)
    +:+ ":" +:+ zpad 2 (s mod 60)
    +:+ (if us =? 0 then EmptyString else "." +:+ zpad 6 us).

(** ** The dataclasses *)

Definition value (p : CyclePhase) : string :=
  match p with
  | DATA_SCAN => "data_scan"
  | IDEA => "idea"
  | CODE_EDIT => "code_edit"
  | BACKTEST => "backtest"
  | REPORT => "report"
  | COMPLETE => "complete"
  end.

Definition name (p : CyclePhase) : string :=
  match p with
  | DATA_SCAN => "DATA_SCAN"
  | IDEA => "IDEA"
  | CODE_EDIT => "CODE_EDIT"
  | BACKTEST => "BACKTEST"
  | REPORT => "REPORT"
  | COMPLETE => "COMPLETE"
  end.

(** [repr(p)], which is what [str] of a [KeyError] on [p] shows *)
Definition repr (p : CyclePhase) : string :=
  "<CyclePhase." +:+ name p +:+ ": '" +:+ value p +:+ "'>".

(** [list(CyclePhase)]: the members in definition order *)
Definition all_phases : list CyclePhase :=
  [DATA_SCAN; IDEA; CODE_EDIT; BACKTEST; REPORT; COMPLETE].

Definition is_COMPLETE (p : CyclePhase) : bool :=
  match p with COMPLETE => true | _ => false end.

Module OrchestratorConfig.

Record t := mk {
  max_iterations : Z;
  sleep_between_iterations : Q;
  state_dir : string;
  archive_dir : string;
  branch_file : string;
  progress_file : string;
  prd_file : string;
  circuit_breaker_failure_threshold : Z;
  circuit_breaker_recovery_timeout : Z;
  requests_per_minute : Z;
  requests_per_hour : Z
}.

Definition defaults : t :=
  {| max_iterations := 10;
   sleep_between_iterations := 2;
   state_dir := "./orchestrator_state";
   archive_dir := "./orchestrator_archive";
   branch_file := "branch.json";
   progress_file := "progress.json";
   prd_file := "prd.json";
   circuit_breaker_failure_threshold := 5;
   circuit_breaker_recovery_timeout := 60;
   requests_per_minute := 60;
   requests_per_hour := 1000 |}.

End OrchestratorConfig.

Module CycleState.

Record t := mk {
  cycle_id : string;
  start_time : datetime;
  end_time : option datetime;
  current_phase : CyclePhase;
  phase_results : list (string * json);
  success : bool;
  error_message : option string
}.

Definition __init__ (cycle_id : string) (start_time : datetime) : t :=
  {| cycle_id := cycle_id;
     start_time := start_time;
     end_time := None;
     current_phase := DATA_SCAN;
     phase_results := [];
     success := false;
     error_message := None |}.

Definition with_current_phase (c : t) (p : CyclePhase) : t :=
  {| cycle_id := cycle_id c; start_time := start_time c; end_time := end_time c;
     current_phase := p; phase_results := phase_results c;
     success := success c; error_message := error_message c |}.

Definition with_phase_result (c : t) (k : string) (output : json) : t :=
  {| cycle_id := cycle_id c; start_time := start_time c; end_time := end_time c;
     current_phase := current_phase c;
     phase_results := dict_set k output (phase_results c);
     success := success c; error_message := error_message c |}.

Definition finished (c : t) (at_ : datetime) (ok : bool) (err : option string) : t :=
  {| cycle_id := cycle_id c; start_time := start_time c; end_time := Some at_;
     current_phase := current_phase c; phase_results := phase_results c;
     success := ok;
     error_message := match err with Some m => Some m | None => error_message c end |}.

End CycleState.

Module CycleResult.

Record t := mk {
  cycle_id : string;
  duration_seconds : json;
  phases_completed : list CyclePhase;
  success : bool;
  output : string;
  learnings : list string
}.

(** [asdict(result)], with the phases replaced by their values as
    [add_cycle_result] does *)
Definition as_json (r : t) : json :=
  JDict [("cycle_id", JStr (cycle_id r));
         ("duration_seconds", duration_seconds r);
         ("phases_completed", JList (map (fun p => JStr (value p)) (phases_completed r)));
         ("success", JBool (success r));
         ("output", JStr (output r));
         ("learnings", JList (map JStr (learnings r)))].

End CycleResult.

(** ** class StateManager *)

Module StateManager.

Record t := mk {
  config : OrchestratorConfig.t;
  state_dir : string;
  archive_dir : string;
  branch_file : string;
  progress_file : string;
  prd_file : string
}.

Definition __init__ (config : OrchestratorConfig.t) : M t :=
  let self :=
    {| config := config;
       state_dir := OrchestratorConfig.state_dir config;
       archive_dir := OrchestratorConfig.archive_dir config;
       branch_file :=
         path_join (OrchestratorConfig.state_dir config)
                   (OrchestratorConfig.branch_file config);
       progress_file :=
         path_join (OrchestratorConfig.state_dir config)
                   (OrchestratorConfig.progress_file config);
       prd_file :=
         path_join (OrchestratorConfig.state_dir config)
                   (OrchestratorConfig.prd_file config) |} in
  let* _ := mkdir (state_dir self) in
  let* _ := mkdir (archive_dir self) in
  ret self.

(** The result is a Python value: [JNull] is [None]. *)
Definition get_current_branch (self : t) : M json :=
  let* found := path_exists (branch_file self) in
  if found then
    try_except_pass
      (let* txt := read_text (branch_file self) in
       let* data := json_loads txt in
       py_get data "branch")
      (ret JNull)
  else ret JNull.

Definition set_current_branch (self : t) (branch : string) : M unit :=
  let* stamp := now in
  write_text (branch_file self)
    (json_dumps (JDict [("branch", JStr branch);
                        ("timestamp", JStr (isoformat stamp))])).

(** [last_branch is not None and last_branch != current_branch], the
    right operand being a [str] *)
Definition differs_from (last_branch : json) (current_branch : string) : bool :=
  match last_branch with
  | JNull => false
  | JStr s => negb (s =? current_branch)%string
  | _ => true
  end.

Definition should_archive (self : t) (current_branch : string) : M bool :=
  let* last_branch := get_current_branch self in
  ret (differs_from last_branch current_branch).

(** One round of the copy loop of [archive_current_state] *)
Definition archive_file (archive_folder file_path : string) : M unit :=
  let* found := path_exists file_path in
  if found then
    let dest := path_join archive_folder (path_name file_path) in
    let* txt := read_text file_path in
    write_text dest txt
  else ret tt.

Definition archive_folder_of (self : t) (date_str folder_name : string) : string :=
  path_join (archive_dir self) (date_str +:+ "-" +:+ folder_name).

Definition archive_current_state (self : t) (current_branch : string) : M unit :=
  let* wanted := should_archive self current_branch in
  if negb wanted then ret tt
  else
    let* last_branch := get_current_branch self in
    let* stamp := now in
    let date_str := strftime_ymd stamp in
    let* folder_name :=
      match last_branch with
      | JStr s => ret (replace_slash s)
      | _ => raise (Exn "AttributeError" "object has no attribute 'replace'")
      end in
    let archive_folder := archive_folder_of self date_str folder_name in
    let* _ := mkdir archive_folder in
    let* _ := archive_file archive_folder (progress_file self) in
    let* _ := archive_file archive_folder (prd_file self) in
    set_current_branch self current_branch.

Definition empty_progress (stamp : datetime) : json :=
  JDict [("cycles", JList []); ("patterns", JList []);
         ("start_time", JStr (isoformat stamp))].

Definition load_progress (self : t) : M json :=
  let fresh := (let* stamp := now in ret (empty_progress stamp)) in
  let* found := path_exists (progress_file self) in
  if found then
    try_except_pass
      (let* txt := read_text (progress_file self) in json_loads txt)
      fresh
  else fresh.

Definition save_progress (self : t) (progress : json) : M unit :=
  write_text (progress_file self) (json_dumps progress).

(** [progress["cycles"].append(result_dict)], after
    [if "cycles" not in progress: progress["cycles"] = []].  On a document
    that is not a [dict] every path through these statements ends in a
    [TypeError]; a ["cycles"] entry that is not a list has no [append]. *)
Definition append_cycle (progress : json) (result_dict : json) : M json :=
  match progress with
  | JDict d =>
      let d1 :=
        match dict_get "cycles" d with
        | Some _ => d
        | None => dict_set "cycles" (JList []) d
        end in
      match dict_get "cycles" d1 with
      | Some (JList l) => ret (JDict (dict_set "cycles" (JList (l ++ [result_dict])) d1))
      | _ => raise (Exn "AttributeError" "object has no attribute 'append'")
      end
  | _ => raise (Exn "TypeError" "progress document is not a dict")
  end.

Definition add_cycle_result (self : t) (result : CycleResult.t) : M unit :=
  let* progress := load_progress self in
  let* progress' := append_cycle progress (CycleResult.as_json result) in
  save_progress self progress'.

(** [add_pattern].  As in [append_cycle], a document that is not a [dict]
    ends every path in a [TypeError].  With a [dict], the test
    [pattern not in progress["patterns"]] is the one of [py_in], and only a
    list has [append]. *)
Definition add_pattern (self : t) (pattern : string) : M unit :=
  let* progress := load_progress self in
  match progress with
  | JDict d =>
      let d1 :=
        match dict_get "patterns" d with
        | Some _ => d
        | None => dict_set "patterns" (JList []) d
        end in
      let patterns := default JNull (dict_get "patterns" d1) in
      let* present := py_in pattern patterns in
      if present then ret tt
      else
        match patterns with
        | JList l =>
            save_progress self
              (JDict (dict_set "patterns" (JList (l ++ [JStr pattern])) d1))
        | _ => raise (Exn "AttributeError" "object has no attribute 'append'")
        end
  | _ => raise (Exn "TypeError" "progress document is not a dict")
  end.

End StateManager.

(** ** class ClaudeOrchestrator *)

Module ClaudeOrchestrator.

(** A phase handler gets the phase and sees the results of the phases
    before it ([self.current_cycle.phase_results]). *)
Definition handler : Type :=
  CyclePhase -> list (string * json) -> Env -> outcome json * Env.

(** [_check_completion_signal], which deployments override: it sees the
    counter of completed cycles and the persisted state. *)
Definition completion_signal : Type := Z -> Env -> outcome bool * Env.

Record t := mk {
  config : OrchestratorConfig.t;
  state_manager : StateManager.t;
  circuit_breaker : CircuitBreaker.t;
  rate_limiter : RateLimiter.t;
  current_cycle : option CycleState.t;
  cycles_completed : Z;
  phase_handlers : CyclePhase -> option handler;
  _check_completion_signal : completion_signal
}.

(** The constructor.  [handlers] is the [phase_handlers] dict, which the
    source fills with its five simulated handlers and which callers
    reassign entry by entry; [completion] is the method
    [_check_completion_signal] of the class at hand; the one of
    [ClaudeOrchestrator] itself is [default_check_completion_signal]
    below. *)
Definition __init__ (config : OrchestratorConfig.t)
    (handlers : CyclePhase -> option handler) (completion : completion_signal)
    (w : World) : outcome t * World :=
  match lift (StateManager.__init__ config) w with
  | (Returned sm, w1) =>
      let '(rl, w2) :=
        RateLimiter.__init__ (OrchestratorConfig.requests_per_minute config)
                             (OrchestratorConfig.requests_per_hour config) w1 in
      (Returned
         {| config := config;
            state_manager := sm;
            circuit_breaker :=
              CircuitBreaker.__init__
                (OrchestratorConfig.circuit_breaker_failure_threshold config)
                (OrchestratorConfig.circuit_breaker_recovery_timeout config);
            rate_limiter := rl;
            current_cycle := None;
            cycles_completed := 0;
            phase_handlers := handlers;
            _check_completion_signal := completion |}, w2)
  | (Raised x, w1) => (Raised x, w1)
  | (Aborted x, w1) => (Aborted x, w1)
  end.

Definition with_rate_limiter (self : t) (rl : RateLimiter.t) : t :=
  {| config := config self; state_manager := state_manager self;
     circuit_breaker := circuit_breaker self; rate_limiter := rl;
     current_cycle := current_cycle self; cycles_completed := cycles_completed self;
     phase_handlers := phase_handlers self;
     _check_completion_signal := _check_completion_signal self |}.

Definition with_current_cycle (self : t) (c : CycleState.t) : t :=
  {| config := config self; state_manager := state_manager self;
     circuit_breaker := circuit_breaker self; rate_limiter := rate_limiter self;
     current_cycle := Some c; cycles_completed := cycles_completed self;
     phase_handlers := phase_handlers self;
     _check_completion_signal := _check_completion_signal self |}.

Definition with_cycles_completed (self : t) (n : Z) : t :=
  {| config := config self; state_manager := state_manager self;
     circuit_breaker := circuit_breaker self; rate_limiter := rate_limiter self;
     current_cycle := current_cycle self; cycles_completed := n;
     phase_handlers := phase_handlers self;
     _check_completion_signal := _check_completion_signal self |}.

(** The [for phase in CyclePhase] loop of [_run_cycle].  The cycle state is
    threaded along with [self] and is what [self.current_cycle] refers to. *)
Fixpoint run_phases (phases : list CyclePhase) (self : t) (cyc : CycleState.t)
    (w : World) : outcome unit * t * CycleState.t * World :=
  match phases with
  | [] => (Returned tt, self, cyc, w)
  | phase :: rest =>
      if is_COMPLETE phase then run_phases rest self cyc w
      else
        let cyc1 := CycleState.with_current_phase cyc phase in
        let '(rl, w1) := RateLimiter.acquire (rate_limiter self) w in
        let self1 := with_rate_limiter self rl in
        match phase_handlers self1 phase with
        | None => (Raised (Exn "KeyError" (repr phase)), self1, cyc1, w1)
        | Some h =>
            let '(r, e) := h phase (CycleState.phase_results cyc1) (env w1) in
            let w2 := {| env := e; journal := journal w1 ++ [EvHandler phase] |} in
            match r with
            | Returned output =>
                run_phases rest self1
                  (CycleState.with_phase_result cyc1 (value phase) output) w2
            | Raised x => (Raised x, self1, cyc1, w2)
            | Aborted x => (Aborted x, self1, cyc1, w2)
            end
        end
  end.

(** [list(CyclePhase)[:-1]] *)
Definition phases_but_last : list CyclePhase := removelast all_phases.

Definition success_result (cycle_id : string) (duration : Q) : CycleResult.t :=
  {| CycleResult.cycle_id := cycle_id;
     CycleResult.duration_seconds := JFloat duration;
     CycleResult.phases_completed := phases_but_last;
     CycleResult.success := true;
     CycleResult.output := "Cycle completed successfully";
     CycleResult.learnings :=
       map (fun p => "Phase " +:+ value p +:+ " executed successfully")
           (List.filter (fun p => negb (is_COMPLETE p)) all_phases) |}.

Definition failure_result (cycle_id : string) (phase : CyclePhase) (e : exn)
  : CycleResult.t :=
  {| CycleResult.cycle_id := cycle_id;
     CycleResult.duration_seconds := JInt 0;
     CycleResult.phases_completed := [];
     CycleResult.success := false;
     CycleResult.output := "Cycle failed: " +:+ exn_str e;
     CycleResult.learnings :=
       ["Error in " +:+ value phase +:+ ": " +:+ exn_str e] |}.

(** The statements of the [try] block after the loop. *)
Definition after_phases (self : t) (cyc : CycleState.t) (w : World)
  : outcome bool * t * CycleState.t * World :=
  let '(end_time, w1) := datetime_now w in
  let cyc1 := CycleState.finished cyc end_time true None in
  let duration := total_seconds (end_time - CycleState.start_time cyc1) in
  let result := success_result (CycleState.cycle_id cyc1) duration in
  match lift (StateManager.add_cycle_result (state_manager self) result) w1 with
  | (Returned _, w2) =>
      let self1 := with_cycles_completed self (cycles_completed self + 1) in
      match lift (_check_completion_signal self1 (cycles_completed self1)) w2 with
      | (Returned signal, w3) => (Returned signal, self1, cyc1, w3)
      | (Raised x, w3) => (Raised x, self1, cyc1, w3)
      | (Aborted x, w3) => (Aborted x, self1, cyc1, w3)
      end
  | (Raised x, w2) => (Raised x, self, cyc1, w2)
  | (Aborted x, w2) => (Aborted x, self, cyc1, w2)
  end.

(** The whole [try] block. *)
Definition cycle_try (self : t) (cyc : CycleState.t) (w : World)
  : outcome bool * t * CycleState.t * World :=
  match run_phases all_phases self cyc w with
  | (Returned _, self1, cyc1, w1) => after_phases self1 cyc1 w1
  | (Raised x, self1, cyc1, w1) => (Raised x, self1, cyc1, w1)
  | (Aborted x, self1, cyc1, w1) => (Aborted x, self1, cyc1, w1)
  end.

(** The [except Exception as e] block. *)
Definition cycle_except (e : exn) (self : t) (cyc : CycleState.t) (w : World)
  : outcome bool * t * World :=
  let '(end_time, w1) := datetime_now w in
  let cyc1 := CycleState.finished cyc end_time false (Some (exn_str e)) in
  let result :=
    failure_result (CycleState.cycle_id cyc1) (CycleState.current_phase cyc1) e in
  let self1 := with_current_cycle self cyc1 in
  match lift (StateManager.add_cycle_result (state_manager self1) result) w1 with
  | (Returned _, w2) => (Returned false, self1, w2)
  | (Raised x, w2) => (Raised x, self1, w2)
  | (Aborted x, w2) => (Aborted x, self1, w2)
  end.

(** [int(time.time())]: the clock in whole seconds *)
Definition time_time (w : World) : Z * World :=
  let '(t, w1) := datetime_now w in (Z.quot t 1000000, w1).

(** The statements of [_run_cycle] before its [try]. *)
Definition cycle_begin (cycle_num : Z) (w : World) : CycleState.t * World :=
  let w0 := emit (EvRunCycle cycle_num) w in
  let '(stamp, w1) := time_time w0 in
  let cycle_id := "cycle_" +:+ pretty cycle_num +:+ "_" +:+ pretty stamp in
  let '(start_time, w2) := datetime_now w1 in
  (CycleState.__init__ cycle_id start_time, w2).

Definition _run_cycle (self : t) (cycle_num : Z) (w : World)
  : outcome bool * t * World :=
  let '(cyc, w2) := cycle_begin cycle_num w in
  match cycle_try self cyc w2 with
  | (Returned signal, self1, cyc1, w3) =>
      (Returned signal, with_current_cycle self1 cyc1, w3)
  | (Raised e, self1, cyc1, w3) => cycle_except e self1 cyc1 w3
  | (Aborted e, self1, cyc1, w3) =>
      (Aborted e, with_current_cycle self1 cyc1, w3)
  end.

(** The [for i in range(1, max_iterations + 1)] loop of [run], over the
    values the range yields. *)
Fixpoint run_loop (iterations : list Z) (self : t) (w : World)
  : outcome bool * t * World :=
  match iterations with
  | [] => (Returned false, self, w)
  | i :: rest =>
      match _run_cycle self i w with
      | (Returned success, self1, w1) =>
          if success then (Returned true, self1, w1)
          else
            run_loop rest self1
              (sleep (OrchestratorConfig.sleep_between_iterations (config self1)) w1)
      | (Raised x, self1, w1) => (Raised x, self1, w1)
      | (Aborted x, self1, w1) => (Aborted x, self1, w1)
      end
  end.

(** [max_iterations or self.config.max_iterations] *)
Definition or_config (max_iterations : option Z) (self : t) : Z :=
  match max_iterations with
  | Some n => if n =? 0 then OrchestratorConfig.max_iterations (config self) else n
  | None => OrchestratorConfig.max_iterations (config self)
  end.

(** The statements of [run] before its loop. *)
Definition startup (self : t) (current_branch : string) : M unit :=
  let* _ := StateManager.archive_current_state (state_manager self) current_branch in
  StateManager.set_current_branch (state_manager self) current_branch.

Definition run (self : t) (max_iterations : option Z) (current_branch : string)
    (w : World) : outcome bool * t * World :=
  let max_iterations := or_config max_iterations self in
  match lift (startup self current_branch) w with
  | (Returned _, w1) => run_loop (seqZ 1 max_iterations) self w1
  | (Raised x, w1) => (Raised x, self, w1)
  | (Aborted x, w1) => (Aborted x, self, w1)
  end.

(** [_check_completion_signal] as the class defines it. *)
Definition default_check_completion_signal (repr : json -> string)
    (sm : StateManager.t) : completion_signal :=
  fun cycles_completed =>
    if 3 <=? cycles_completed then ret true
    else
      let* progress := StateManager.load_progress sm in
      let* cycles := py_get progress "cycles" in
      if truthy cycles then
        let* last_cycle := py_last cycles in
        let* ok := py_get last_cycle "success" in
        if truthy ok then
          let* backtest := py_get_default last_cycle "output" (JStr EmptyString) in
          let* passed := py_in "PASSED" backtest in
          if passed then
            let* metrics := py_get_default last_cycle "metrics" (JDict []) in
            let* score := py_get_default metrics "quality_score" (JStr EmptyString) in
            if contains "9" (py_str repr score) then ret true else ret false
          else ret false
        else ret false
      else ret false.

(** [result["insights"]] of [_handle_data_scan] *)
Definition data_scan_insights : list string :=
  ["Codebase uses FastAPI for APIs";
   "Heavy use of async/await patterns";
   "Database migrations in ./migrations/"].

(** The [result] of [_handle_data_scan] *)
Definition data_scan_result : json :=
  JDict [("files_scanned", JInt 10);
         ("patterns_found", JList [JStr "REST API"; JStr "GraphQL"; JStr "WebSocket"]);
         ("dependencies", JList [JStr "pandas"; JStr "numpy"; JStr "requests"]);
         ("insights", JList (map JStr data_scan_insights))].

(** [for insight in result["insights"]:
       self.state_manager.add_pattern(f"Data scan: {insight}")] *)
Fixpoint add_insights (sm : StateManager.t) (insights : list string) : M unit :=
  match insights with
  | [] => ret tt
  | insight :: rest =>
      let* _ := StateManager.add_pattern sm ("Data scan: " +:+ insight) in
      add_insights sm rest
  end.

(** [_handle_data_scan], the simulated handler of the first phase, with
    its suspension of half a second. *)
Definition _handle_data_scan (self : t) (phase : CyclePhase) (w : World)
  : outcome json * World :=
  let w1 := sleep (1 # 2) w in
  match lift (add_insights (state_manager self) data_scan_insights) w1 with
  | (Returned _, w2) => (Returned data_scan_result, w2)
  | (Raised x, w2) => (Raised x, w2)
  | (Aborted x, w2) => (Aborted x, w2)
  end.

End ClaudeOrchestrator.

(** * Vocabulary of the properties *)

Module CircuitBreakerSpec.
Import CircuitBreaker.

(** A plain function whose body raises an [Exception] wherever it runs. *)
Definition raises {A} (func : callable A) : Prop :=
  iscoroutinefunction func = false /\
  forall e, is_raised (fst (body func e)) = true.

(** Seconds from [t0] to the clock's next reading. *)
Definition elapsed_since (t0 : datetime) (w : World) : Q :=
  total_seconds (reading (env w) - t0).

(** The call is refused: the breaker-open error, the breaker as it was, and
    a world in which only the clock was read. *)
Definition fails_fast {A} (self : t) (func : callable A) (w : World) : Prop :=
  call self func w = (Raised breaker_open, self, snd (datetime_now w)).

(** The world after [n] reads of the clock and nothing else. *)
Definition ticked (n : nat) (w : World) : World :=
  Nat.iter n (fun w' => snd (datetime_now w')) w.

(** The breakers a caller can produce from a fresh one. *)
Inductive reachable (k timeout : Z) : t -> Prop :=
  | reach_init : reachable k timeout (__init__ k timeout)
  | reach_call (A : Type) (self : t) (func : callable A) (w : World) r self' w' :
      reachable k timeout self ->
      call self func w = (r, self', w') ->
      reachable k timeout self'.

(** The property of the breaker at threshold [k]: [k] calls whose work
    raises leave a CLOSED breaker OPEN, and a call after them that comes
    before the recovery timeout is refused. *)
Definition opens_after (k : Z) : Prop :=
  forall (A : Type) (timeout : Z) (self : t) (funcs : list (callable A)) (w : World),
    reachable k timeout self ->
    state self = "CLOSED" ->
    Z.of_nat (length funcs) = k ->
    Forall raises funcs ->
    forall rs self1 w1,
      calls self funcs w = (rs, self1, w1) ->
      state self1 = "OPEN" /\
      exists t0 : datetime,
        last_failure_time self1 = Some t0 /\
        forall (B : Type) (func : callable B) (w2 : World),
          (elapsed_since t0 w2 < inject_Z timeout)%Q ->
          fails_fast self1 func w2.

(** What every reachable breaker satisfies. *)
Definition consistent (k timeout : Z) (self : t) : Prop :=
  failure_threshold self = k /\
  recovery_timeout self = timeout /\
  (state self = "CLOSED" \/
   (state self = "OPEN" \/ state self = "HALF_OPEN") /\
   k <= failure_count self /\ last_failure_time self <> None).

(** A call with a coroutine function is turned down by the [try] block
    without running anything, and booked as a failure. *)
Definition rejects_async (self : t) (w : World) : Prop :=
  forall (A : Type) (func : callable A),
    iscoroutinefunction func = true ->
    exists self' w' n,
      call self func w = (Raised async_unsupported, self', w') /\
      journal w' = journal w /\
      failure_count self' = failure_count self + 1 /\
      (tick (env w) <= n)%nat /\
      last_failure_time self' = Some (clock (env w) n).

(** The same, read for every breaker a caller can hold. *)
Definition always_rejects_async : Prop :=
  forall (k timeout : Z) (self : t) (w : World),
    reachable k timeout self -> rejects_async self w.

(** The call gets past the test on OPEN at the head of [call]. *)
Definition passes_gate (self : t) (w : World) : Prop :=
  state self <> "OPEN" \/ fst (_should_attempt_reset self w) = true.

Definition is_async {A} (func : callable A) : Prop :=
  iscoroutinefunction func = true.

End CircuitBreakerSpec.

(** Inputs for the examples. *)
Module Sample.

(** A world with nothing on disk whose clock advances [step] microseconds
    per reading. *)
Definition ticking (step : Z) : World :=
  {| env := {| tick := 0; clock := fun n => Z.of_nat n * step;
               files := ∅; dirs := ∅ |};
     journal := [] |}.

(** The same world with its clock at reading number [n]. *)
Definition at_tick (n : nat) (w : World) : World :=
  {| env := {| tick := n; clock := clock (env w);
               files := files (env w); dirs := dirs (env w) |};
     journal := journal w |}.

(** [lambda: 1 / 0] *)
Definition boom : callable unit :=
  Callable false (fun e => (Raised (Exn "ZeroDivisionError" "division by zero"), e)).

(** [lambda: None] *)
Definition fine : callable unit :=
  Callable false (fun e => (Returned tt, e)).

(** [async def coro(): pass] *)
Definition coro : callable unit :=
  Callable true (fun e => (Returned tt, e)).

End Sample.


Module RateLimiterSpec.
Import RateLimiter.

(** Both buckets between 0 and their configured maximum. *)
Definition within_limits (self : t) : Prop :=
  (0 <= minute_bucket self)%Q /\
  (minute_bucket self <= inject_Z (rpm_limit self))%Q /\
  (0 <= hour_bucket self)%Q /\
  (hour_bucket self <= inject_Z (rph_limit self))%Q.

(** Time left until a window of [window] seconds, counted from the last
    refill, has run out, at the clock's next reading. *)
Definition window_remainder (window : Q) (self : t) (w : World) : Q :=
  (window - total_seconds (reading (env w) - last_refill self)%Z)%Q.

(** The world in which [token_wait] reads the clock for the hour bucket:
    one reading later when it has read it for the minute bucket. *)
Definition hour_world (self : t) (w : World) : World :=
  if Qltb (minute_bucket self) 1 then snd (datetime_now w) else w.

(** The limiter and the world when the call after [n] calls of [acquire]
    on a fresh limiter has refilled, pruned its history and is about to
    compute its wait. *)
Definition at_wait (rpm rph : Z) (n : nat) (w : World) : t * World :=
  let '(fresh, w0) := __init__ rpm rph w in
  let '(self, w1) := steps (repeat Acquire n) fresh w0 in
  let '(self1, w2) := _refill_buckets self w1 in
  _clean_old_requests self1 w2.

(** The wait computed for a bucket below one token is the remainder of that
    bucket's window. *)
Definition wait_is_window_remainder : Prop :=
  forall (rpm rph : Z) (n : nat) (w : World),
    let '(self, w') := at_wait rpm rph n w in
    ((minute_bucket self < 1)%Q ->
     fst (computed_wait self w') == window_remainder 60 self w') /\
    ((hour_bucket self < 1)%Q ->
     fst (computed_wait self w') == window_remainder 3600 self (hour_world self w')).

(** The clock never runs backwards, and its readings number
    [tick .. tick + reads] lie less than [span] microseconds apart. *)
Definition back_to_back (reads : nat) (span : Z) (w : World) : Prop :=
  (forall i j, (i <= j)%nat -> clock (env w) i <= clock (env w) j) /\
  clock (env w) (tick (env w) + reads) - clock (env w) (tick (env w)) < span.

(** The limiter of the scenario after [j] calls that found a token at
    once, on the clock [c] first read at reading number [n0]: the minute
    bucket holds the [5 - j] tokens left and what the refills gave back. *)
Definition paced (c : nat -> datetime) (n0 : nat) (log : list event) (j : nat)
    (self : t) (w : World) : Prop :=
  rpm_limit self = 5 /\ rph_limit self = 1000 /\
  clock (env w) = c /\ tick (env w) = (n0 + 1 + 3 * j)%nat /\ journal w = log /\
  (exists a, last_refill self = c a /\ (n0 <= a < tick (env w))%nat) /\
  (5 - inject_Z (Z.of_nat j) <= minute_bucket self)%Q /\
  (minute_bucket self <=
   5 - inject_Z (Z.of_nat j) +
   (total_seconds (last_refill self) - total_seconds (c n0)) / 12)%Q /\
  (minute_bucket self <= 5)%Q /\
  (1000 - inject_Z (Z.of_nat j) <= hour_bucket self)%Q /\
  (hour_bucket self <= 1000)%Q /\
  (length (request_times self) <= j)%nat.

(** The scenario of the specification: a limiter for 5 requests a minute
    and 1000 an hour, six calls of [acquire] in a row.  The first five
    find a token at once; the sixth suspends first of all for the remainder
    of the minute window, which is not zero. *)
Definition sixth_call_waits (w : World) : Prop :=
  let '(fresh, w0) := __init__ 5 1000 w in
  let '(self5, w5) := steps (repeat Acquire 5) fresh w0 in
  let '(self, w') := at_wait 5 1000 5 w in
  journal w5 = journal w /\
  exists wait rest,
    journal (snd (acquire self5 w5)) = journal w ++ EvSleep wait :: rest /\
    wait == window_remainder 60 self w' /\
    (0 < wait)%Q.

End RateLimiterSpec.

Module StateManagerSpec.
Import StateManager.

(** The branch that the marker records, when there is a marker: the entry
    ["branch"] of the JSON object kept in the branch file. *)
Definition recorded_branch (self : t) (e : Env) : option json :=
  match files e !! branch_file self with
  | Some (FileText (TJson (JDict d))) =>
      match dict_get "branch" d with
      | Some JNull | None => None
      | Some v => Some v
      end
  | _ => None
  end.

(** The progress document is one that [add_cycle_result] can extend:
    absent, unreadable or unparseable (a fresh document takes its place),
    or a JSON object whose ["cycles"] entry, if it has one, is a list. *)
Definition appendable (self : t) (e : Env) : Prop :=
  match files e !! progress_file self with
  | Some (FileText (TJson (JDict d))) =>
      match dict_get "cycles" d with
      | Some (JList _) | None => True
      | Some _ => False
      end
  | Some (FileText (TJson _)) => False
  | _ => True
  end.

(** The cycle results that the progress document holds. *)
Definition persisted_cycles (self : t) (e : Env) : list json :=
  match files e !! progress_file self with
  | Some (FileText (TJson (JDict d))) =>
      match dict_get "cycles" d with
      | Some (JList l) => l
      | _ => []
      end
  | _ => []
  end.

(** A state directory that holds a marker for branch [b] and a progress
    document with no cycle yet. *)
Definition on_branch (self : t) (b : string) (w : World) : World :=
  {| env := {| tick := tick (env w); clock := clock (env w);
               files :=
                 <[progress_file self := FileText (TJson (empty_progress 0))]>
                   (<[branch_file self :=
                        FileText (TJson (JDict [("branch", JStr b)]))]> (files (env w)));
               dirs := dirs (env w) |};
     journal := journal w |}.

End StateManagerSpec.

Module OrchestratorSpec.
Import ClaudeOrchestrator.

(** The cycle numbers [_run_cycle] was invoked with, in order. *)
Definition run_cycle_calls (log : list event) : list Z :=
  flat_map (fun ev => match ev with EvRunCycle n => [n] | _ => [] end) log.

(** The phases whose handler was invoked, in order. *)
Definition handler_calls (log : list event) : list CyclePhase :=
  flat_map (fun ev => match ev with EvHandler p => [p] | _ => [] end) log.

(** Nothing but the clock and the journal's waits changed from [w] to [w']. *)
Definition quiet (w w' : World) : Prop :=
  files (env w') = files (env w) /\
  run_cycle_calls (journal w') = run_cycle_calls (journal w).

(** The parts of the orchestrator a cycle does not assign to. *)
Definition same_wiring (self self' : t) : Prop :=
  config self' = config self /\
  state_manager self' = state_manager self /\
  phase_handlers self' = phase_handlers self /\
  _check_completion_signal self' = _check_completion_signal self.

(** Handlers that end by returning or raising an [Exception], and that
    leave the progress document one that can be extended. *)
Definition tame (self : t) : Prop :=
  forall p h results e,
    phase_handlers self p = Some h ->
    (forall x, fst (h p results e) <> Aborted x) /\
    (StateManagerSpec.appendable (state_manager self) e ->
     StateManagerSpec.appendable (state_manager self) (snd (h p results e))).

(** Every phase has a handler, and the handlers return. *)
Definition handlers_return (self : t) : Prop :=
  forall p,
    is_COMPLETE p = false ->
    exists h, phase_handlers self p = Some h /\
              forall results e, is_returned (fst (h p results e)) = true.

(** A completion predicate that answers without raising or writing. *)
Definition calm_signal (self : t) : Prop :=
  forall done e, exists b, _check_completion_signal self done e = (Returned b, e).

(** The predicate that is always false. *)
Definition never_complete : completion_signal :=
  fun _ e => (Returned false, e).

(** The predicate that is true once [n] cycles have completed. *)
Definition complete_after (n : Z) : completion_signal :=
  fun done e => (Returned (n <=? done), e).

End OrchestratorSpec.

(** An orchestrator for the examples: two iterations at most, no pause
    between them, an empty state directory. *)
Module Scenario.
Import ClaudeOrchestrator.

Definition cfg : OrchestratorConfig.t :=
  {| OrchestratorConfig.max_iterations := 2;
     OrchestratorConfig.sleep_between_iterations := 0;
     OrchestratorConfig.state_dir := "state";
     OrchestratorConfig.archive_dir := "archive";
     OrchestratorConfig.branch_file := "branch.json";
     OrchestratorConfig.progress_file := "progress.json";
     OrchestratorConfig.prd_file := "prd.json";
     OrchestratorConfig.circuit_breaker_failure_threshold := 5;
     OrchestratorConfig.circuit_breaker_recovery_timeout := 60;
     OrchestratorConfig.requests_per_minute := 60;
     OrchestratorConfig.requests_per_hour := 1000 |}.

(** [async def mock_handler(phase): return {"test": "data"}] *)
Definition mock_handler : handler :=
  fun _ _ e => (Returned (JDict [("test", JStr "data")]), e).

(** [async def failing_handler(phase): raise Exception("Service unavailable")] *)
Definition failing_handler : handler :=
  fun _ _ e => (Raised (Exn "Exception" "Service unavailable"), e).

Definition all_mocked (p : CyclePhase) : option handler :=
  if is_COMPLETE p then None else Some mock_handler.

Definition third_fails (p : CyclePhase) : option handler :=
  match p with
  | COMPLETE => None
  | CODE_EDIT => Some failing_handler
  | _ => Some mock_handler
  end.

Definition manager : StateManager.t :=
  {| StateManager.config := cfg;
     StateManager.state_dir := "state";
     StateManager.archive_dir := "archive";
     StateManager.branch_file := "state/branch.json";
     StateManager.progress_file := "state/progress.json";
     StateManager.prd_file := "state/prd.json" |}.

Definition engine (handlers : CyclePhase -> option handler)
    (completion : completion_signal) : t :=
  {| config := cfg;
     state_manager := manager;
     circuit_breaker := CircuitBreaker.__init__ 5 60;
     rate_limiter := fst (RateLimiter.__init__ 60 1000 (Sample.ticking 1000));
     current_cycle := None;
     cycles_completed := 0;
     phase_handlers := handlers;
     _check_completion_signal := completion |}.

(** The world the constructor leaves. *)
Definition booted : World :=
  snd (__init__ cfg all_mocked OrchestratorSpec.never_complete (Sample.ticking 1000)).

End Scenario.

(** Divisions by the constants of the limiter, as products, for [lra]. *)
Ltac by_shares :=
  unfold Qdiv, inject_Z in *;
  change (/ 12)%Q with (1 # 12)%Q in *;
  change (/ 60)%Q with (1 # 60)%Q in *;
  change (/ 3600)%Q with (1 # 3600)%Q in *;
  lra.

(** * Vocabulary of the further properties *)

Module CircuitBreakerTerms.
Import CircuitBreaker.

(** A plain function whose body returns wherever it runs. *)
Definition returns {A} (func : callable A) : Prop :=
  iscoroutinefunction func = false /\
  forall e, is_returned (fst (body func e)) = true.

(** A plain function whose body ends in a [BaseException] outside
    [Exception] wherever it runs. *)
Definition aborts {A} (func : callable A) : Prop :=
  iscoroutinefunction func = false /\
  forall e, exists x, fst (body func e) = Aborted x.

(** The state tells whether the failures counted have reached the
    threshold [k]. *)
Definition tally_matches_state (k : Z) (self : t) : Prop :=
  0 <= failure_count self /\
  (state self = "CLOSED" \/ state self = "OPEN" \/ state self = "HALF_OPEN") /\
  (state self = "CLOSED" <-> failure_count self < k) /\
  (state self <> "CLOSED" -> last_failure_time self <> None).

(** The invariant behind [tally_matches_state], in the form the calls
    keep. *)
Definition tallied (k : Z) (self : t) : Prop :=
  failure_threshold self = k /\
  0 <= failure_count self /\
  (state self = "CLOSED" /\ failure_count self < k \/
   (state self = "OPEN" \/ state self = "HALF_OPEN") /\
   k <= failure_count self /\ last_failure_time self <> None).

(** The work of [func] is run in the environment of [w], and its outcome is
    the outcome of the call. *)
Definition runs_work {A} (self : t) (func : callable A) (w : World) : Prop :=
  fst (fst (call self func w)) = fst (body func (env w)) /\
  journal (snd (call self func w)) = journal w ++ [EvWork].

End CircuitBreakerTerms.

Module RateLimiterTerms.
Import RateLimiter.

(** A fresh limiter after [n] calls of [acquire] in a row. *)
Definition after_acquires (rpm rph : Z) (n : nat) (w : World) : t * World :=
  let '(fresh, w0) := __init__ rpm rph w in
  steps (repeat Acquire n) fresh w0.

(** From [w] to [w'] the journal gained suspensions of these lengths, in
    this order, and nothing else. *)
Definition suspended (waits : list Q) (w w' : World) : Prop :=
  journal w' = journal w ++ map EvSleep waits.

Definition total (waits : list Q) : Q := fold_right Qplus 0%Q waits.

(** A clock that never runs backwards. *)
Definition steady (w : World) : Prop :=
  forall i j, (i <= j)%nat -> clock (env w) i <= clock (env w) j.

End RateLimiterTerms.

Module StateManagerTerms.
Import StateManager.

(** What the progress file parses to, when it is there and parses: the
    document [load_progress] returns.  In the other cases a fresh
    document takes its place. *)
Definition stored_document (self : t) (e : Env) : option json :=
  match files e !! progress_file self with
  | Some (FileText (TJson v)) => Some v
  | _ => None
  end.

(** The patterns that the progress document holds. *)
Definition stored_patterns (self : t) (e : Env) : list json :=
  match stored_document self e with
  | Some (JDict d) =>
      match dict_get "patterns" d with
      | Some (JList l) => l
      | _ => []
      end
  | _ => []
  end.

(** The progress document is one that [add_pattern] can extend: absent,
    unreadable or unparseable, or a JSON object whose ["patterns"] entry,
    if it has one, is a list. *)
Definition pattern_appendable (self : t) (e : Env) : Prop :=
  match stored_document self e with
  | Some (JDict d) =>
      match dict_get "patterns" d with
      | Some (JList _) | None => True
      | Some _ => False
      end
  | Some _ => False
  | None => True
  end.

(** Where [archive_current_state] copies [file_path] to when it archives
    the run of branch [old] in the environment [e]. *)
Definition archive_destination (self : t) (e : Env) (old file_path : string)
  : string :=
  path_join (archive_folder_of self (strftime_ymd (reading e)) (replace_slash old))
            (path_name file_path).

(** Neither state file is there but unreadable. *)
Definition state_files_readable (self : t) (e : Env) : Prop :=
  files e !! progress_file self <> Some Unreadable /\
  files e !! prd_file self <> Some Unreadable.

(** The two copies land on different paths, the first one not on the file
    the second one copies, and neither on the branch marker. *)
Definition archive_paths_apart (self : t) (e : Env) (old : string) : Prop :=
  let d1 := archive_destination self e old (progress_file self) in
  let d2 := archive_destination self e old (prd_file self) in
  d1 <> d2 /\ d1 <> prd_file self /\
  d1 <> branch_file self /\ d2 <> branch_file self.

(** The environment with the text [t] at path [p]. *)
Definition with_file (p : string) (t : text) (e : Env) : Env :=
  {| tick := tick e; clock := clock e;
     files := <[p := FileText t]> (files e);
     dirs := dirs e |}.

(** The environment with [v] as its progress document. *)
Definition holding (self : t) (v : json) (e : Env) : Env :=
  {| tick := tick e; clock := clock e;
     files := <[progress_file self := FileText (TJson v)]> (files e);
     dirs := dirs e |}.

End StateManagerTerms.

Module OrchestratorTerms.
Import ClaudeOrchestrator.

(** Handlers that leave the recorded cycles as they are. *)
Definition leaves_record (self : t) : Prop :=
  forall p h results e,
    phase_handlers self p = Some h ->
    StateManagerSpec.persisted_cycles (state_manager self) (snd (h p results e)) =
    StateManagerSpec.persisted_cycles (state_manager self) e.

(** Handlers that end by returning or raising an [Exception] and leave
    every file as it is. *)
Definition hands_off (self : t) : Prop :=
  forall p h results e,
    phase_handlers self p = Some h ->
    (forall x, fst (h p results e) <> Aborted x) /\
    files (snd (h p results e)) = files e.

(** The handlers of the phases [ps] are there and return. *)
Definition return_in (ps : list CyclePhase) (self : t) : Prop :=
  forall q, In q ps ->
    exists h, phase_handlers self q = Some h /\
              forall results e, is_returned (fst (h q results e)) = true.

(** A completion predicate that, where a cycle result was recorded last,
    answers [f] of the number of completed cycles, without raising or
    writing. *)
Definition answers (f : Z -> bool) (self : t) : Prop :=
  forall done e l r,
    StateManagerSpec.persisted_cycles (state_manager self) e =
      l ++ [CycleResult.as_json r] ->
    _check_completion_signal self done e = (Returned (f done), e).

(** A completion predicate that raises [x], writing nothing. *)
Definition signal_raises (x : exn) (self : t) : Prop :=
  forall done e, _check_completion_signal self done e = (Raised x, e).

(** The orchestrator has the completion predicate of the class. *)
Definition stock_signal (repr : json -> string) (self : t) : Prop :=
  _check_completion_signal self =
  default_check_completion_signal repr (state_manager self).

(** What the stock predicate looks for in the last recorded cycle [c]: a
    true ["success"], an ["output"] that mentions PASSED, and a quality
    score under ["metrics"] whose text has a 9 in it. *)
Definition last_cycle_passes (repr : json -> string) (c : list (string * json))
  : bool :=
  truthy (default JNull (dict_get "success" c)) &&
  match dict_get "output" c with
  | Some (JStr o) => contains "PASSED" o
  | _ => false
  end &&
  match dict_get "metrics" c with
  | Some (JDict m) =>
      contains "9" (py_str repr (default (JStr EmptyString) (dict_get "quality_score" m)))
  | _ => false
  end.

(** The last recorded cycle has the entries the stock predicate reads in
    the shape it expects, where it has them: a text as output and an
    object as metrics. *)
Definition well_formed_cycle (c : list (string * json)) : Prop :=
  match dict_get "output" c with
  | Some (JStr _) | None => True
  | Some _ => False
  end /\
  match dict_get "metrics" c with
  | Some (JDict _) | None => True
  | Some _ => False
  end.


End OrchestratorTerms.

(** More inputs for the examples. *)
Module MoreSamples.

(** A function interrupted from the keyboard *)
Definition interrupted : callable unit :=
  Callable false (fun e => (Aborted (Exn "KeyboardInterrupt" EmptyString), e)).


(** A handler that is cancelled while it runs. *)
Definition cancelled_handler : ClaudeOrchestrator.handler :=
  fun _ _ e => (Aborted (Exn "CancelledError" EmptyString), e).

Definition third_cancelled (p : CyclePhase) : option ClaudeOrchestrator.handler :=
  match p with
  | COMPLETE => None
  | CODE_EDIT => Some cancelled_handler
  | _ => Some Scenario.mock_handler
  end.

(** A state directory whose progress file parses to a list. *)
Definition list_as_progress (w : World) : World :=
  {| env := StateManagerTerms.holding Scenario.manager (JList []) (env w);
     journal := journal w |}.

(** A state directory whose branch marker records a number. *)
Definition number_as_branch (w : World) : World :=
  {| env := StateManagerTerms.with_file "state/branch.json"
              (TJson (JDict [("branch", JInt 7)])) (env w);
     journal := journal w |}.

End MoreSamples.

(** * Properties *)

(** ** Time and comparisons *)

Lemma timeout_reached (timeout : Z) (d : timedelta) :
  Qle_bool (inject_Z timeout) (total_seconds d) = true <-> seconds timeout <= d.
Proof.
  rewrite Qle_bool_iff. unfold Qle, total_seconds, seconds, inject_Z. simpl. lia.
Qed.

Lemma timeout_pending (timeout : Z) (d : timedelta) :
  Qle_bool (inject_Z timeout) (total_seconds d) = false <->
  (total_seconds d < inject_Z timeout)%Q.
Proof.
  split; intros H.
  - apply Qnot_le_lt. intros Hle. apply Qle_bool_iff in Hle. congruence.
  - destruct (Qle_bool _ _) eqn:E; [|reflexivity].
    apply Qle_bool_iff in E. exfalso. eapply Qlt_not_le; eauto.
Qed.

Lemma pending_iff (timeout : Z) (d : timedelta) :
  (total_seconds d < inject_Z timeout)%Q <-> d < seconds timeout.
Proof.
  unfold Qlt, total_seconds, seconds, inject_Z. simpl. lia.
Qed.

Lemma surjective_pairing_3 {A B C} (p : A * B * C) :
  p = (fst (fst p), snd (fst p), snd p).
Proof. now destruct p as [[a b] c]. Qed.

Lemma Qltb_lt (a b : Q) : Qltb a b = true <-> (a < b)%Q.
Proof.
  unfold Qltb. rewrite negb_true_iff. split; intros H.
  - apply Qnot_le_lt. intros Hle. apply Qle_bool_iff in Hle. congruence.
  - destruct (Qle_bool b a) eqn:E; [|reflexivity].
    apply Qle_bool_iff in E. exfalso. eapply Qlt_not_le; eauto.
Qed.

Lemma Qltb_ge (a b : Q) : Qltb a b = false <-> (b <= a)%Q.
Proof.
  unfold Qltb. rewrite negb_false_iff. apply Qle_bool_iff.
Qed.

(** ** CircuitBreaker *)

Module CircuitBreakerProofs.
Import CircuitBreaker CircuitBreakerSpec.

Lemma call_not_open {A} (self : t) (func : callable A) (w : World) :
  state self <> "OPEN" -> call self func w = call_try self func w.
Proof.
  intros H. unfold call.
  destruct (String.eqb_spec (state self) "OPEN"); [contradiction | reflexivity].
Qed.

Lemma call_open_pending {A} (self : t) (func : callable A) (w : World) :
  state self = "OPEN" ->
  fst (_should_attempt_reset self w) = false ->
  call self func w = (Raised breaker_open, self, snd (_should_attempt_reset self w)).
Proof.
  intros Hs Hr. unfold call. rewrite Hs. simpl.
  destruct (_should_attempt_reset self w) as [reset w1]. simpl in *. now subst.
Qed.

Lemma call_open_trial {A} (self : t) (func : callable A) (w : World) :
  state self = "OPEN" ->
  fst (_should_attempt_reset self w) = true ->
  call self func w =
  call_try (with_state self "HALF_OPEN") func (snd (_should_attempt_reset self w)).
Proof.
  intros Hs Hr. unfold call. rewrite Hs. simpl.
  destruct (_should_attempt_reset self w) as [reset w1]. simpl in *. now subst.
Qed.

Lemma reset_after_failure (self : t) (w : World) (t0 : datetime) :
  last_failure_time self = Some t0 ->
  _should_attempt_reset self w =
  (Qle_bool (inject_Z (recovery_timeout self)) (elapsed_since t0 w),
   snd (datetime_now w)).
Proof. intros H. unfold _should_attempt_reset. now rewrite H. Qed.

(** The breaker becomes eligible for a trial exactly [recovery_timeout]
    seconds after the recorded failure. *)
Lemma eligible_iff (self : t) (w : World) (t0 : datetime) :
  last_failure_time self = Some t0 ->
  fst (_should_attempt_reset self w) = true <->
  t0 + seconds (recovery_timeout self) <= reading (env w).
Proof.
  intros H. rewrite (reset_after_failure _ _ _ H). simpl.
  unfold elapsed_since. rewrite timeout_reached. lia.
Qed.

Lemma fails_fast_pending {A} (self : t) (func : callable A) (w : World) (t0 : datetime) :
  state self = "OPEN" ->
  last_failure_time self = Some t0 ->
  (elapsed_since t0 w < inject_Z (recovery_timeout self))%Q ->
  fails_fast self func w.
Proof.
  intros Hs Ht Hlt. unfold fails_fast.
  rewrite call_open_pending; auto; rewrite (reset_after_failure _ _ _ Ht); simpl; auto.
  now apply timeout_pending.
Qed.

Lemma call_try_raises {A} (self : t) (func : callable A) (w : World) :
  raises func ->
  exists e w1,
    invoke func w = (Raised e, w1) /\
    journal w1 = journal w ++ [EvWork] /\
    call_try self func w =
    (Raised e, fst (_on_failure self w1), snd (_on_failure self w1)).
Proof.
  intros [Hsync Hraise]. unfold call_try, invoke. rewrite Hsync.
  specialize (Hraise (env w)).
  destruct (body func (env w)) as [[a|e|e] e1]; simpl in Hraise; try discriminate.
  exists e. eexists. split; [reflexivity|]. split; reflexivity.
Qed.

Lemma on_failure_journal (self : t) (w : World) :
  journal (snd (_on_failure self w)) = journal w.
Proof. reflexivity. Qed.

(** [n] failing calls on a CLOSED breaker whose counter is [n] short of the
    threshold: each of them runs its work, and the last one opens the
    breaker. *)
Lemma calls_raising {A} (funcs : list (callable A)) :
  Forall raises funcs ->
  forall self w rs self1 w1,
    state self = "CLOSED" ->
    funcs <> [] ->
    failure_count self + Z.of_nat (length funcs) = failure_threshold self ->
    calls self funcs w = (rs, self1, w1) ->
    state self1 = "OPEN" /\
    failure_count self1 = failure_threshold self /\
    failure_threshold self1 = failure_threshold self /\
    recovery_timeout self1 = recovery_timeout self /\
    last_failure_time self1 <> None /\
    Forall (fun r => is_raised r = true) rs /\
    journal w1 = journal w ++ repeat EvWork (length funcs).
Proof.
  induction 1 as [|func rest Hfunc Hrest IH]; intros self w rs self1 w1 Hs Hne Hk Hc.
  - contradiction.
  - cbn [calls] in Hc.
    rewrite call_not_open in Hc by (rewrite Hs; discriminate).
    destruct (call_try_raises self func w Hfunc) as (e & wa & _ & Hj & Ht).
    rewrite Ht in Hc. clear Ht.
    set (self' := fst (_on_failure self wa)) in *.
    set (w' := snd (_on_failure self wa)) in *.
    assert (Hj' : journal w' = journal w ++ [EvWork]) by (subst w'; now rewrite on_failure_journal).
    destruct rest as [|func2 rest'].
    + cbn [calls] in Hc. injection Hc as <- <- <-.
      cbn [length] in *. subst self'. cbn.
      replace (failure_threshold self <=? failure_count self + 1) with true
        by (symmetry; apply Z.leb_le; lia).
      repeat split; auto; try lia; try discriminate.
    + destruct (calls self' (func2 :: rest') w') as [[rs' self2] w2] eqn:E.
      injection Hc as <- <- <-.
      assert (Hs' : state self' = "CLOSED").
      { subst self'. cbn.
        replace (failure_threshold self <=? failure_count self + 1) with false
          by (symmetry; apply Z.leb_gt; cbn [length] in Hk; lia).
        exact Hs. }
      specialize (IH self' w' rs' self2 w2 Hs' ltac:(discriminate)).
      destruct IH as (H1 & H2 & H3 & H4 & H5 & H6 & H7).
      { subst self'. cbn. cbn [length] in Hk. cbn [length]. lia. }
      { exact E. }
      subst self'. cbn in H2, H3, H4.
      repeat split; auto.
      rewrite H7, Hj'. rewrite <- app_assoc. reflexivity.
Qed.

Lemma raises_boom : raises Sample.boom.
Proof. split; [reflexivity | intros e; reflexivity]. Qed.

(** *** Reachable breakers *)

Lemma call_try_cases {A} (self : t) (func : callable A) (w : World) r self' w' :
  call_try self func w = (r, self', w') ->
  (is_returned r = true /\ self' = _on_success self) \/
  (is_raised r = true /\ exists w1, self' = fst (_on_failure self w1)) \/
  (is_returned r = false /\ is_raised r = false /\ self' = self).
Proof.
  unfold call_try.
  destruct (if iscoroutinefunction func then _ else _) as [[a|e|e] w1];
    intros H.
  - injection H as <- <- <-. left. split; reflexivity.
  - right; left. destruct (_on_failure self w1) as [s2 w2] eqn:E.
    injection H as <- <- <-. split; [reflexivity|]. exists w1. now rewrite E.
  - injection H as <- <- <-. right; right. repeat split.
Qed.

Lemma call_try_consistent {A} (k timeout : Z) (self : t) (func : callable A)
    (w : World) r self' w' :
  failure_threshold self = k ->
  recovery_timeout self = timeout ->
  state self = "CLOSED" \/
  (state self = "OPEN" \/ state self = "HALF_OPEN") /\
  k <= failure_count self /\ last_failure_time self <> None ->
  call_try self func w = (r, self', w') ->
  consistent k timeout self'.
Proof.
  intros Hk Ht Hst Hc.
  destruct (call_try_cases _ _ _ _ _ _ Hc) as [[_ ->]|[[_ [w1 ->]]|(_ & _ & ->)]].
  - repeat split; auto.
  - unfold _on_failure, datetime_now. cbn.
    repeat split; auto.
    destruct (Z.leb_spec (failure_threshold self) (failure_count self + 1)) as [Hle|Hgt].
    + right. repeat split; cbn; [left; reflexivity | lia | discriminate].
    + destruct Hst as [Hs|(Hs & Hc' & _)].
      * left. exact Hs.
      * lia.
  - repeat split; auto.
Qed.

Lemma call_consistent {A} (k timeout : Z) (self : t) (func : callable A)
    (w : World) r self' w' :
  consistent k timeout self ->
  call self func w = (r, self', w') ->
  consistent k timeout self'.
Proof.
  intros (Hk & Ht & Hst) Hcall.
  unfold call in Hcall.
  destruct (String.eqb_spec (state self) "OPEN") as [Hopen|Hno].
  - destruct (_should_attempt_reset self w) as [[|] w1].
    + eapply call_try_consistent in Hcall; eauto. cbn.
      destruct Hst as [Hs|(_ & Hc & Hl)]; [congruence|].
      right. repeat split; auto.
    + injection Hcall as <- <- <-. repeat split; auto.
  - eapply call_try_consistent in Hcall; eauto.
Qed.

Lemma reachable_consistent (k timeout : Z) (self : t) :
  reachable k timeout self -> consistent k timeout self.
Proof.
  induction 1 as [|A self func w r self' w' Hreach IH Hcall].
  - repeat split; auto.
  - eapply call_consistent; eauto.
Qed.

Lemma call_count_nonneg {A} (self : t) (func : callable A) (w : World) r self' w' :
  0 <= failure_count self ->
  call self func w = (r, self', w') ->
  0 <= failure_count self'.
Proof.
  intros H0 Hcall. unfold call in Hcall.
  destruct (state self =? "OPEN")%string.
  - destruct (_should_attempt_reset self w) as [[|] w1].
    + destruct (call_try_cases _ _ _ _ _ _ Hcall) as [[_ ->]|[[_ [wa ->]]|(_ & _ & ->)]];
        cbn; lia.
    + now injection Hcall as _ <- _.
  - destruct (call_try_cases _ _ _ _ _ _ Hcall) as [[_ ->]|[[_ [wa ->]]|(_ & _ & ->)]];
      cbn; lia.
Qed.

Lemma reachable_count_nonneg (k timeout : Z) (self : t) :
  reachable k timeout self -> 0 <= failure_count self.
Proof.
  induction 1 as [|A self func w r self' w' Hreach IH Hcall].
  - cbn. lia.
  - eapply call_count_nonneg; eauto.
Qed.

(** What a call whose work raises does to the state. *)
Lemma call_raises_state {A} (k timeout : Z) (self : t) (func : callable A)
    (w : World) r self' w' :
  raises func ->
  consistent k timeout self ->
  call self func w = (r, self', w') ->
  (state self <> "CLOSED" -> state self' = "OPEN") /\
  (state self = "CLOSED" ->
   failure_count self' = failure_count self + 1 /\
   state self' = if k <=? failure_count self + 1 then "OPEN" else "CLOSED").
Proof.
  intros Hr (Hk & Ht & Hst) Hcall.
  unfold call in Hcall.
  destruct (String.eqb_spec (state self) "OPEN") as [Hopen|Hno].
  - split; [intros _ | congruence].
    destruct (_should_attempt_reset self w) as [[|] w1].
    + destruct (call_try_raises (with_state self "HALF_OPEN") func w1 Hr)
        as (e & wa & _ & _ & Hc).
      rewrite Hc in Hcall. injection Hcall as _ <- _. cbn.
      destruct Hst as [Hs|(_ & Hc' & _)]; [congruence|].
      now replace (failure_threshold self <=? failure_count self + 1) with true
        by (symmetry; apply Z.leb_le; lia).
    + now injection Hcall as _ <- _.
  - destruct (call_try_raises self func w Hr) as (e & wa & _ & _ & Hc).
    rewrite Hc in Hcall. injection Hcall as _ <- _. cbn. rewrite Hk.
    split.
    + intros Hnc. destruct Hst as [Hs|([Ho|Hh] & Hc' & _)]; try congruence.
      now replace (k <=? failure_count self + 1) with true
        by (symmetry; apply Z.leb_le; lia).
    + intros Hs. split; [reflexivity|]. now rewrite Hs.
Qed.

(** Calls whose work raises, on a breaker that is OPEN or that they take
    to the threshold. *)
Lemma calls_raising_open {A} (k timeout : Z) (funcs : list (callable A)) :
  Forall raises funcs ->
  forall self w rs self1 w1,
    consistent k timeout self ->
    state self <> "CLOSED" /\ (state self = "OPEN" \/ funcs <> []) \/
    funcs <> [] /\ k <= failure_count self + Z.of_nat (length funcs) ->
    calls self funcs w = (rs, self1, w1) ->
    state self1 = "OPEN" /\ consistent k timeout self1.
Proof.
  induction 1 as [|func rest Hfunc Hrest IH]; intros self w rs self1 w1 Hcons Hst Hc.
  - cbn in Hc. injection Hc as _ <- _.
    destruct Hst as [[_ [Ho|Hne]]|[Hne _]]; try contradiction. auto.
  - cbn [calls] in Hc.
    destruct (call self func w) as [[r sa] wa] eqn:E1.
    destruct (calls sa rest wa) as [[rs' sb] wb] eqn:E2.
    injection Hc as _ <- _.
    pose proof (call_consistent _ _ _ _ _ _ _ _ Hcons E1) as Hcons'.
    destruct (call_raises_state _ _ _ _ _ _ _ _ Hfunc Hcons E1) as [Hopen Hclosed].
    destruct (String.eqb_spec (state self) "CLOSED") as [Hs|Hns].
    + destruct (Hclosed Hs) as [Hcount Hstate].
      destruct Hst as [[Hnc _]|[_ Hk]]; [contradiction|].
      destruct (Z.leb_spec k (failure_count self + 1)) as [Hle|Hgt].
      * eapply IH; [exact Hcons' | | exact E2].
        left. split; [rewrite Hstate; discriminate | left; exact Hstate].
      * eapply IH; [exact Hcons' | | exact E2].
        right. cbn [length] in Hk.
        split; [destruct rest; [cbn in Hk; lia | discriminate] | lia].
    + specialize (Hopen Hns).
      eapply IH; [exact Hcons' | | exact E2].
      left. split; [rewrite Hopen; discriminate | left; exact Hopen].
Qed.

(** C1, amended: for every failure threshold k >= 1, k consecutive calls
    whose work raises leave a CLOSED breaker OPEN, and a further call made
    before the recovery timeout has elapsed since the last failure raises
    the breaker-open error without running its work. *)
Theorem opens_at_threshold (k : Z) : 1 <= k -> opens_after k.
Proof.
  intros Hk A timeout self funcs w Hreach Hclosed Hlen Hraise rs self1 w1 Hc.
  assert (Hne : funcs <> []) by (destruct funcs; [cbn in Hlen; lia | discriminate]).
  pose proof (reachable_count_nonneg _ _ _ Hreach) as Hnn.
  destruct (calls_raising_open k timeout funcs Hraise self w rs self1 w1)
    as (Hs & _ & Hto & Hshape); auto.
  { now apply reachable_consistent. }
  { right. split; [exact Hne | lia]. }
  split; [exact Hs|].
  destruct Hshape as [Hcl|(_ & _ & Hl)]; [congruence|].
  destruct (last_failure_time self1) as [t0|] eqn:Ht; [|contradiction].
  exists t0. split; [reflexivity|].
  intros B func w2 Hlt.
  eapply fails_fast_pending; eauto. now rewrite Hto.
Qed.

Lemma opens_at_threshold_witness :
  1 <= 3 /\
  let '(_, self1, w1) :=
    calls (__init__ 3 60) [Sample.boom; Sample.boom; Sample.boom] (Sample.ticking 1000) in
  state self1 = "OPEN" /\ fails_fast self1 Sample.fine w1.
Proof.
  split; [lia|].
  destruct (calls (__init__ 3 60) [Sample.boom; Sample.boom; Sample.boom]
              (Sample.ticking 1000)) as [[rs self1] w1] eqn:E.
  destruct (opens_at_threshold 3 ltac:(lia) unit 60 (__init__ 3 60)
              [Sample.boom; Sample.boom; Sample.boom] (Sample.ticking 1000)
              ltac:(constructor) eq_refl eq_refl
              ltac:(repeat constructor; apply raises_boom)
              rs self1 w1 E) as (Hs & t0 & Ht0 & Hff).
  split; [exact Hs|].
  vm_compute in E. injection E as <- <- <-.
  injection Ht0 as <-.
  apply (Hff unit Sample.fine). reflexivity.
Defined.

(** C1 as stated fails at a threshold of 0: the breaker is CLOSED after no
    call at all. *)
Lemma threshold_zero_stays_closed : ~ opens_after 0.
Proof.
  intros H.
  destruct (H unit 60 (__init__ 0 60) [] (Sample.ticking 1000)
              ltac:(constructor) eq_refl eq_refl ltac:(constructor)
              [] (__init__ 0 60) (Sample.ticking 1000) eq_refl) as [Hs _].
  discriminate Hs.
Qed.



(** C3: for every recovery timeout, a breaker that is OPEN refuses a call
    made before [timeout] seconds have passed since the recorded failure;
    at or after [timeout] seconds the call runs as a trial on a HALF_OPEN
    breaker, a trial that returns leaves it CLOSED with the counter at 0,
    and a trial that raises leaves it OPEN.  That the breaker is HALF_OPEN
    while the trial runs shows where nothing overwrites the state: a trial
    whose work ends in neither way (an interrupt, which [except Exception]
    lets through) leaves the breaker HALF_OPEN, with the counter and the
    time of the last failure as they were. *)
Theorem recovery_after_timeout (k timeout : Z) (self : t) :
  reachable k timeout self ->
  state self = "OPEN" ->
  exists t0,
    last_failure_time self = Some t0 /\
    forall (A : Type) (func : callable A) (w : World),
      ((elapsed_since t0 w < inject_Z timeout)%Q -> fails_fast self func w) /\
      ((inject_Z timeout <= elapsed_since t0 w)%Q ->
       call self func w =
       call_try (with_state self "HALF_OPEN") func (snd (datetime_now w)) /\
       forall r self' w',
         call self func w = (r, self', w') ->
         (iscoroutinefunction func = false ->
          r = fst (body func (env (snd (datetime_now w))))) /\
         (is_returned r = true -> state self' = "CLOSED" /\ failure_count self' = 0) /\
         (is_raised r = true -> state self' = "OPEN") /\
         (is_returned r = false -> is_raised r = false ->
          state self' = "HALF_OPEN" /\
          failure_count self' = failure_count self /\
          last_failure_time self' = Some t0)).
Proof.
  intros Hreach Hopen.
  destruct (reachable_consistent _ _ _ Hreach) as (Hk & Ht & Hst).
  destruct Hst as [Hs|(_ & Hc & Hl)]; [congruence|].
  destruct (last_failure_time self) as [t0|] eqn:El; [|congruence].
  exists t0. split; [reflexivity|].
  intros A func w. split.
  - intros Hlt. eapply fails_fast_pending; eauto. now rewrite Ht.
  - intros Hge.
    assert (Hreset : _should_attempt_reset self w = (true, snd (datetime_now w))).
    { rewrite (reset_after_failure _ _ _ El). f_equal.
      apply Qle_bool_iff. now rewrite Ht. }
    assert (Hcall : call self func w =
                    call_try (with_state self "HALF_OPEN") func (snd (datetime_now w))).
    { rewrite call_open_trial by (rewrite ?Hreset; auto). now rewrite Hreset. }
    split; [exact Hcall|].
    intros r self' w' Hr. rewrite Hcall in Hr.
    split; [|split; [|split]].
    + intros Hsync. unfold call_try, invoke in Hr. rewrite Hsync in Hr.
      destruct (body func (env (snd (datetime_now w)))) as [[a|e|e] e1]; cbn in Hr |- *.
      * now injection Hr as <- _ _.
      * now injection Hr as <- _ _.
      * now injection Hr as <- _ _.
    + intros Hret.
      destruct (call_try_cases _ _ _ _ _ _ Hr) as [[_ ->]|[[Hx _]|(Hx & _)]].
      * split; reflexivity.
      * destruct r; discriminate.
      * congruence.
    + intros Hraised.
      destruct (call_try_cases _ _ _ _ _ _ Hr) as [[Hx _]|[[_ [w1 ->]]|(_ & Hx & _)]].
      * destruct r; discriminate.
      * cbn. replace (failure_threshold self <=? failure_count self + 1) with true;
          [reflexivity|]. symmetry. apply Z.leb_le. lia.
      * congruence.
    + intros Hnot_returned Hnot_raised.
      destruct (call_try_cases _ _ _ _ _ _ Hr) as [[Hx _]|[[Hx _]|(_ & _ & ->)]];
        [congruence | congruence |].
      cbn. split; [reflexivity|]. split; [reflexivity | exact El].
Qed.

Lemma calls_reachable {A} (k timeout : Z) (funcs : list (callable A)) :
  forall self w rs self1 w1,
    reachable k timeout self ->
    calls self funcs w = (rs, self1, w1) ->
    reachable k timeout self1.
Proof.
  induction funcs as [|func rest IH]; intros self w rs self1 w1 Hreach Hc.
  - cbn in Hc. now injection Hc as _ <- _.
  - cbn [calls] in Hc.
    destruct (call self func w) as [[r sa] wa] eqn:E1.
    destruct (calls sa rest wa) as [[rs' sb] wb] eqn:E2.
    injection Hc as _ <- _.
    eapply IH; [|exact E2]. eapply reach_call; eauto.
Qed.

Lemma recovery_after_timeout_witness :
  let self := snd (fst (calls (__init__ 2 1) [Sample.boom; Sample.boom]
                          (Sample.ticking 1000))) in
  let early := Sample.at_tick 2 (Sample.ticking 1000) in
  let late := Sample.at_tick 5000 (Sample.ticking 1000) in
  (reachable 2 1 self /\ state self = "OPEN") /\
  fails_fast self Sample.fine early /\
  (forall r self' w', call self Sample.fine late = (r, self', w') ->
     state self' = "CLOSED" /\ failure_count self' = 0) /\
  (forall r self' w', call self Sample.boom late = (r, self', w') ->
     state self' = "OPEN") /\
  (forall r self' w', call self MoreSamples.interrupted late = (r, self', w') ->
     state self' = "HALF_OPEN" /\ failure_count self' = 2).
Proof.
  intros self early late.
  assert (Hreach : reachable 2 1 self).
  { eapply (calls_reachable 2 1 [Sample.boom; Sample.boom]
              (__init__ 2 1) (Sample.ticking 1000)); [constructor|].
    apply surjective_pairing_3. }
  split; [split; [exact Hreach | reflexivity]|].
  destruct (recovery_after_timeout 2 1 self Hreach eq_refl) as (t0 & Ht0 & H).
  vm_compute in Ht0. injection Ht0 as <-.
  split; [|split; [|split]].
  - apply (H unit Sample.fine early). reflexivity.
  - intros r self' w' Hc.
    destruct (H unit Sample.fine late) as [_ Hlate].
    destruct Hlate as [_ Hcases]; [discriminate|].
    destruct (Hcases r self' w' Hc) as (Hr & Hret & _).
    apply Hret. rewrite Hr; reflexivity.
  - intros r self' w' Hc.
    destruct (H unit Sample.boom late) as [_ Hlate].
    destruct Hlate as [_ Hcases]; [discriminate|].
    destruct (Hcases r self' w' Hc) as (Hr & _ & Hraised & _).
    apply Hraised. rewrite Hr; reflexivity.
  - intros r self' w' Hc.
    destruct (H unit MoreSamples.interrupted late) as [_ Hlate].
    destruct Hlate as [_ Hcases]; [discriminate|].
    destruct (Hcases r self' w' Hc) as (Hr & _ & _ & Hleft).
    destruct Hleft as (Hs & Hcount & _); [rewrite Hr; reflexivity ..|].
    split; [exact Hs | rewrite Hcount; reflexivity].
Defined.

(** *** Refused calls leave no trace *)

Lemma ticked_succ (n : nat) (w : World) :
  ticked (S n) w = ticked n (snd (datetime_now w)).
Proof. unfold ticked. now rewrite Nat.iter_succ_r. Qed.

(** C9: a call refused because the breaker is OPEN and the timeout has not
    elapsed returns the breaker as it was: the failure counter and the time
    of the last failure are untouched.  However many such calls are made,
    the breaker stays eligible for a trial exactly [recovery_timeout]
    seconds after the last failure of real work. *)
Theorem refused_calls_keep_bookkeeping {A} (self : t) (funcs : list (callable A))
    (w : World) (t0 : datetime) :
  state self = "OPEN" ->
  last_failure_time self = Some t0 ->
  (forall i, (i < length funcs)%nat ->
     clock (env w) (tick (env w) + i) < t0 + seconds (recovery_timeout self)) ->
  calls self funcs w =
    (repeat (Raised breaker_open) (length funcs), self, ticked (length funcs) w) /\
  journal (ticked (length funcs) w) = journal w /\
  forall w',
    fst (_should_attempt_reset self w') = true <->
    t0 + seconds (recovery_timeout self) <= reading (env w').
Proof.
  intros Hs Ht Hearly.
  split; [|split].
  - revert w Hearly.
    induction funcs as [|func rest IH]; intros w Hearly; [reflexivity|].
    cbn [calls length repeat].
    assert (Hff : fails_fast self func w).
    { eapply fails_fast_pending; eauto. unfold elapsed_since.
      apply pending_iff. specialize (Hearly 0%nat ltac:(cbn; lia)).
      rewrite Nat.add_0_r in Hearly. unfold reading. lia. }
    unfold fails_fast in Hff. rewrite Hff.
    rewrite IH.
    + now rewrite ticked_succ.
    + intros i Hi. cbn. specialize (Hearly (S i) ltac:(cbn; lia)).
      now rewrite Nat.add_succ_r in Hearly.
  - clear Hearly. induction (length funcs) as [|n IH]; [reflexivity|].
    unfold ticked in *. cbn. exact IH.
  - intros w'. now apply eligible_iff.
Qed.

Lemma refused_calls_keep_bookkeeping_witness :
  let self := snd (fst (calls (__init__ 2 60) [Sample.boom; Sample.boom]
                          (Sample.ticking 1000000))) in
  let w := Sample.at_tick 2 (Sample.ticking 1000000) in
  (state self = "OPEN" /\ last_failure_time self = Some 1000000) /\
  calls self [Sample.fine; Sample.boom; Sample.coro] w =
    (repeat (Raised breaker_open) 3, self, ticked 3 w) /\
  (fst (_should_attempt_reset self (Sample.at_tick 60 w)) = false /\
   fst (_should_attempt_reset self (Sample.at_tick 61 w)) = true).
Proof.
  intros self w.
  split; [split; reflexivity|].
  destruct (refused_calls_keep_bookkeeping self
              [Sample.fine; Sample.boom; Sample.coro] w 1000000 eq_refl eq_refl)
    as (Hcalls & _ & Hreset).
  { intros i Hi. cbn in Hi.
    destruct i as [|[|[|i]]]; [reflexivity | reflexivity | reflexivity | lia]. }
  split; [exact Hcalls|].
  split.
  - destruct (fst (_should_attempt_reset self (Sample.at_tick 60 w))) eqn:E;
      [|reflexivity].
    apply Hreset in E. vm_compute in E. now contradiction E.
  - apply Hreset. vm_compute. discriminate.
Defined.

(** *** Coroutine functions *)

Lemma call_try_async {A} (self : t) (func : callable A) (w : World) :
  iscoroutinefunction func = true ->
  call_try self func w =
  (Raised async_unsupported, fst (_on_failure self w), snd (_on_failure self w)).
Proof. intros H. unfold call_try. now rewrite H. Qed.

Lemma rejects_async_past_gate (self : t) (w : World) :
  passes_gate self w -> rejects_async self w.
Proof.
  intros Hgate A func Hasync.
  destruct (String.eqb_spec (state self) "OPEN") as [Hopen|Hno].
  - destruct Hgate as [Hno|Hreset]; [contradiction|].
    rewrite (call_open_trial self func w Hopen Hreset).
    rewrite (call_try_async _ _ _ Hasync).
    unfold _should_attempt_reset in *.
    destruct (last_failure_time self) as [t0|]; [|discriminate].
    do 2 eexists. exists (S (tick (env w))).
    split; [reflexivity|]. cbn. repeat split. lia.
  - rewrite (call_not_open self func w Hno).
    rewrite (call_try_async _ _ _ Hasync).
    do 2 eexists. exists (tick (env w)).
    split; [reflexivity|]. cbn. repeat split. lia.
Qed.

(** Failing calls that get past the gate, as many as the counter is short
    of the threshold and at least one. *)
Lemma calls_async_open {A} (k : Z) (funcs : list (callable A)) :
  Forall is_async funcs ->
  forall self w rs self1 w1,
    failure_threshold self = k ->
    passes_gate self w ->
    state self = "CLOSED" \/ k <= failure_count self ->
    length funcs = Z.to_nat (Z.max 1 (k - failure_count self)) ->
    calls self funcs w = (rs, self1, w1) ->
    state self1 = "OPEN" /\
    journal w1 = journal w /\
    Forall (fun r => r = Raised async_unsupported) rs.
Proof.
  induction 1 as [|func rest Hfunc Hrest IH];
    intros self w rs self1 w1 Hk Hgate Hst Hlen Hc.
  - cbn in Hlen. lia.
  - cbn [calls] in Hc.
    assert (Hcall : exists self0 w0,
               (self0 = self \/ self0 = with_state self "HALF_OPEN" /\ state self = "OPEN") /\
               journal w0 = journal w /\
               call self func w =
               (Raised async_unsupported, fst (_on_failure self0 w0),
                snd (_on_failure self0 w0))).
    { destruct (String.eqb_spec (state self) "OPEN") as [Hopen|Hno].
      - destruct Hgate as [Hno|Hreset]; [contradiction|].
        rewrite (call_open_trial self func w Hopen Hreset).
        rewrite (call_try_async _ _ _ Hfunc).
        do 2 eexists. split; [right; split; [reflexivity|exact Hopen]|].
        split; [|reflexivity].
        unfold _should_attempt_reset.
        destruct (last_failure_time self); reflexivity.
      - rewrite (call_not_open self func w Hno).
        rewrite (call_try_async _ _ _ Hfunc).
        do 2 eexists. split; [left; reflexivity|]. split; reflexivity. }
    destruct Hcall as (self0 & w0 & Hself0 & Hj0 & Hcall).
    rewrite Hcall in Hc. clear Hcall.
    assert (Hc0 : failure_count self0 = failure_count self)
      by (destruct Hself0 as [->|[-> _]]; reflexivity).
    assert (Hk0 : failure_threshold self0 = k)
      by (destruct Hself0 as [->|[-> _]]; assumption).
    set (self' := fst (_on_failure self0 w0)) in *.
    set (w' := snd (_on_failure self0 w0)) in *.
    assert (Hj' : journal w' = journal w) by (subst w'; cbn; exact Hj0).
    assert (Hk' : failure_threshold self' = k) by (subst self'; cbn; exact Hk0).
    assert (Hc' : failure_count self' = failure_count self + 1)
      by (subst self'; cbn; lia).
    destruct (calls self' rest w') as [[rs' self2] w2] eqn:E.
    injection Hc as <- <- <-.
    destruct (Z.le_gt_cases k (failure_count self + 1)) as [Hle|Hgt].
    + assert (Hs' : state self' = "OPEN").
      { subst self'. cbn. rewrite Hk0, Hc0.
        now replace (k <=? failure_count self + 1) with true
          by (symmetry; apply Z.leb_le; lia). }
      assert (rest = []) as ->.
      { cbn [length] in Hlen. destruct rest; [reflexivity|]. cbn [length] in Hlen. lia. }
      cbn in E. injection E as <- <- <-.
      repeat split; auto.
    + assert (Hclosed : state self = "CLOSED") by (destruct Hst; [assumption | lia]).
      assert (Hs' : state self' = "CLOSED").
      { subst self'. cbn. rewrite Hk0, Hc0.
        replace (k <=? failure_count self + 1) with false
          by (symmetry; apply Z.leb_gt; lia).
        destruct Hself0 as [->|[_ Hopen]]; [exact Hclosed | congruence]. }
      destruct (IH self' w' rs' self2 w2) as (H1 & H2 & H3); auto.
      * left. rewrite Hs'. discriminate.
      * rewrite Hc'. cbn [length] in Hlen. lia.
      * repeat split; auto. congruence.
Qed.

(** C10, amended: when the call gets past the gate (the breaker is not
    OPEN, or it is OPEN and the recovery timeout has elapsed), a coroutine
    function is rejected with the RuntimeError without being run, and the
    rejection is booked as a failure: the counter goes up by one and the
    time of the last failure is set to a fresh clock reading.  Such calls
    alone, as many as the counter is short of the threshold and at least
    one, leave the breaker OPEN. *)
Theorem async_work_rejected (k timeout : Z) (self : t) (w : World) :
  reachable k timeout self ->
  passes_gate self w ->
  rejects_async self w /\
  forall (A : Type) (funcs : list (callable A)),
    Forall is_async funcs ->
    length funcs = Z.to_nat (Z.max 1 (k - failure_count self)) ->
    forall rs self1 w1,
      calls self funcs w = (rs, self1, w1) ->
      state self1 = "OPEN" /\
      journal w1 = journal w /\
      Forall (fun r => r = Raised async_unsupported) rs.
Proof.
  intros Hreach Hgate. split.
  - now apply rejects_async_past_gate.
  - intros A funcs Hasync Hlen rs self1 w1 Hc.
    destruct (reachable_consistent _ _ _ Hreach) as (Hk & _ & Hst).
    eapply (calls_async_open k funcs Hasync self w); eauto.
    destruct Hst as [Hs|(_ & Hle & _)]; [left|right]; assumption.
Qed.

Lemma async_work_rejected_witness :
  let self := __init__ 3 60 in
  let w := Sample.ticking 1000000 in
  (reachable 3 60 self /\ passes_gate self w) /\
  fst (fst (call self Sample.coro w)) = Raised async_unsupported /\
  failure_count (snd (fst (call self Sample.coro w))) = 1 /\
  state (snd (fst (calls self [Sample.coro; Sample.coro; Sample.coro] w))) = "OPEN".
Proof.
  intros self w.
  assert (Hreach : reachable 3 60 self) by constructor.
  assert (Hgate : passes_gate self w) by (left; discriminate).
  split; [split; assumption|].
  destruct (async_work_rejected 3 60 self w Hreach Hgate) as [Hrej Hopen].
  destruct (Hrej unit Sample.coro eq_refl) as (self' & w' & n & Hc & _ & Hcount & _).
  rewrite Hc. split; [reflexivity|]. split; [exact Hcount|].
  eapply (Hopen unit [Sample.coro; Sample.coro; Sample.coro]).
  - repeat constructor.
  - reflexivity.
  - apply surjective_pairing_3.
Defined.

(** C10 as stated fails on an OPEN breaker whose timeout has not elapsed:
    the call is refused with the breaker-open error, not the RuntimeError,
    and nothing is booked. *)
Lemma open_breaker_refuses_async_first : ~ always_rejects_async.
Proof.
  intros H.
  pose (self := snd (fst (calls (__init__ 1 60) [Sample.boom] (Sample.ticking 1000000)))).
  assert (Hreach : reachable 1 60 self).
  { eapply (calls_reachable 1 60 [Sample.boom] (__init__ 1 60) (Sample.ticking 1000000));
      [constructor | apply surjective_pairing_3]. }
  destruct (H 1 60 self (Sample.at_tick 1 (Sample.ticking 1000000)) Hreach
              unit Sample.coro eq_refl) as (self' & w' & n & Hc & _).
  vm_compute in Hc. discriminate Hc.
Qed.

End CircuitBreakerProofs.

(** ** RateLimiter *)

Module RateLimiterProofs.
Import RateLimiter RateLimiterSpec.

Lemma py_min_le_l (a b : Q) : (py_min a b <= a)%Q.
Proof.
  unfold py_min. destruct (Qltb b a) eqn:E.
  - apply Qltb_lt in E. lra.
  - lra.
Qed.

Lemma py_min_le_r (a b : Q) : (py_min a b <= b)%Q.
Proof.
  unfold py_min. destruct (Qltb b a) eqn:E.
  - lra.
  - apply Qltb_ge in E. lra.
Qed.

Lemma py_min_glb (a b c : Q) : (c <= a)%Q -> (c <= b)%Q -> (c <= py_min a b)%Q.
Proof. unfold py_min. destruct (Qltb b a); auto. Qed.

Lemma py_max_ge_l (a b : Q) : (a <= py_max a b)%Q.
Proof.
  unfold py_max. destruct (Qltb a b) eqn:E.
  - apply Qltb_lt in E. lra.
  - lra.
Qed.

Lemma py_max_ge_r (a b : Q) : (b <= py_max a b)%Q.
Proof.
  unfold py_max. destruct (Qltb a b) eqn:E.
  - lra.
  - apply Qltb_ge in E. lra.
Qed.

Lemma py_max_lub (a b c : Q) : (a <= c)%Q -> (b <= c)%Q -> (py_max a b <= c)%Q.
Proof. unfold py_max. destruct (Qltb a b); auto. Qed.

(** What a refill adds to a bucket of capacity [limit]. *)
Lemma refill_share_nonneg (elapsed window : Q) (limit : Z) :
  (0 < elapsed)%Q -> (0 < window)%Q -> 0 <= limit ->
  (0 <= elapsed / window * inject_Z limit)%Q.
Proof.
  intros He Hw Hl.
  apply Qmult_le_0_compat.
  - apply Qlt_le_weak. apply Qlt_shift_div_l; lra.
  - change 0%Q with (inject_Z 0). now rewrite <- Zle_Qle.
Qed.

Lemma limit_nonneg (b : Q) (limit : Z) :
  (0 <= b)%Q -> (b <= inject_Z limit)%Q -> 0 <= limit.
Proof.
  intros H0 H1. rewrite Zle_Qle. change (inject_Z 0) with 0%Q. lra.
Qed.

Lemma refill_limits (self : t) (w : World) :
  rpm_limit (fst (_refill_buckets self w)) = rpm_limit self /\
  rph_limit (fst (_refill_buckets self w)) = rph_limit self.
Proof.
  unfold _refill_buckets. cbn.
  destruct (Qltb 0 _); split; reflexivity.
Qed.

(** A refill keeps the buckets within their limits and takes nothing out
    of them. *)
Lemma refill_within (self : t) (w : World) :
  within_limits self ->
  within_limits (fst (_refill_buckets self w)) /\
  (minute_bucket self <= minute_bucket (fst (_refill_buckets self w)))%Q /\
  (hour_bucket self <= hour_bucket (fst (_refill_buckets self w)))%Q.
Proof.
  intros (Hm0 & Hm1 & Hh0 & Hh1).
  unfold _refill_buckets. cbn.
  destruct (Qltb 0 (total_seconds (reading (env w) - last_refill self))) eqn:E.
  - apply Qltb_lt in E. cbn.
    pose proof (refill_share_nonneg _ 60 (rpm_limit self) E ltac:(lra)
                  (limit_nonneg _ _ Hm0 Hm1)) as Sm.
    pose proof (refill_share_nonneg _ 3600 (rph_limit self) E ltac:(lra)
                  (limit_nonneg _ _ Hh0 Hh1)) as Sh.
    assert (Gm : (minute_bucket self <=
                  py_min (inject_Z (rpm_limit self))
                    (minute_bucket self +
                     total_seconds (reading (env w) - last_refill self)%Z / 60 *
                     inject_Z (rpm_limit self)))%Q)
      by (apply py_min_glb; lra).
    assert (Gh : (hour_bucket self <=
                  py_min (inject_Z (rph_limit self))
                    (hour_bucket self +
                     total_seconds (reading (env w) - last_refill self)%Z / 3600 *
                     inject_Z (rph_limit self)))%Q)
      by (apply py_min_glb; lra).
    repeat split; cbn; try apply py_min_le_l; try assumption.
    + eapply Qle_trans; [exact Hm0 | exact Gm].
    + eapply Qle_trans; [exact Hh0 | exact Gh].
  - cbn. repeat split; try assumption; lra.
Qed.

Lemma consume_within (self : t) (stamp : datetime) :
  within_limits self -> within_limits (consume self stamp).
Proof.
  intros (Hm0 & Hm1 & Hh0 & Hh1).
  unfold within_limits, consume. cbn.
  repeat split; try apply py_max_ge_l; apply py_max_lub; lra.
Qed.

Lemma clean_buckets (self : t) (w : World) :
  let self' := fst (_clean_old_requests self w) in
  rpm_limit self' = rpm_limit self /\ rph_limit self' = rph_limit self /\
  minute_bucket self' = minute_bucket self /\ hour_bucket self' = hour_bucket self /\
  last_refill self' = last_refill self.
Proof. cbn. repeat split. Qed.

Lemma acquire_within (self : t) (w : World) :
  within_limits self ->
  within_limits (fst (acquire self w)) /\
  rpm_limit (fst (acquire self w)) = rpm_limit self /\
  rph_limit (fst (acquire self w)) = rph_limit self.
Proof.
  intros H. unfold acquire.
  pose proof (refill_within self w H) as (H1 & _).
  pose proof (refill_limits self w) as (L1 & L1').
  destruct (_refill_buckets self w) as [self1 w1]. cbn [fst] in *.
  destruct (_clean_old_requests self1 w1) as [self2 w2] eqn:E2.
  assert (H2 : within_limits self2 /\ rpm_limit self2 = rpm_limit self /\
               rph_limit self2 = rph_limit self).
  { unfold _clean_old_requests in E2. cbn in E2. injection E2 as <- _.
    unfold within_limits. cbn. split; [exact H1|]. split; assumption. }
  destruct H2 as (H2 & L2 & L2').
  destruct (computed_wait self2 w2) as [wait_time w3].
  assert (H3 : forall w', within_limits (fst (_refill_buckets self2 w')) /\
                          rpm_limit (fst (_refill_buckets self2 w')) = rpm_limit self /\
                          rph_limit (fst (_refill_buckets self2 w')) = rph_limit self).
  { intros w'. pose proof (refill_within self2 w' H2) as (H3 & _).
    pose proof (refill_limits self2 w') as (L3 & L3').
    split; [exact H3|]. split; congruence. }
  destruct (Qltb 0 wait_time).
  - specialize (H3 (sleep wait_time w3)).
    destruct (_refill_buckets self2 (sleep wait_time w3)) as [self3 w4].
    cbn [fst] in H3. destruct H3 as (H3 & L3 & L3').
    cbn. split; [now apply consume_within|]. split; assumption.
  - cbn. split; [now apply consume_within|]. split; assumption.
Qed.

Lemma steps_within (os : list op) :
  forall self w,
    within_limits self ->
    within_limits (fst (steps os self w)) /\
    rpm_limit (fst (steps os self w)) = rpm_limit self /\
    rph_limit (fst (steps os self w)) = rph_limit self.
Proof.
  induction os as [|o rest IH]; intros self w H.
  - cbn. auto.
  - cbn [steps].
    assert (Hstep : within_limits (fst (step o self w)) /\
                    rpm_limit (fst (step o self w)) = rpm_limit self /\
                    rph_limit (fst (step o self w)) = rph_limit self).
    { destruct o; cbn [step].
      - now apply acquire_within.
      - pose proof (refill_within self w H) as (H1 & _).
        pose proof (refill_limits self w) as (L1 & L1'). auto. }
    destruct (step o self w) as [self1 w1]. cbn [fst] in Hstep.
    destruct Hstep as (H1 & L1 & L1').
    destruct (IH self1 w1 H1) as (H2 & L2 & L2').
    split; [exact H2|]. split; congruence.
Qed.

(** C8: a limiter built with non-negative limits keeps each bucket between
    0 and its configured maximum through every sequence of [acquire] and
    refill steps; a refill step never lowers a bucket and leaves it at most
    at the maximum. *)
Theorem buckets_within_limits (rpm rph : Z) (os : list op) (w : World) :
  0 <= rpm -> 0 <= rph ->
  let self := fst (steps os (fst (__init__ rpm rph w)) (snd (__init__ rpm rph w))) in
  (0 <= minute_bucket self)%Q /\ (minute_bucket self <= inject_Z rpm)%Q /\
  (0 <= hour_bucket self)%Q /\ (hour_bucket self <= inject_Z rph)%Q /\
  forall w', 
    let self' := fst (_refill_buckets self w') in
    (minute_bucket self <= minute_bucket self')%Q /\
    (minute_bucket self' <= inject_Z rpm)%Q /\
    (hour_bucket self <= hour_bucket self')%Q /\
    (hour_bucket self' <= inject_Z rph)%Q.
Proof.
  intros Hm Hh self.
  assert (H0 : within_limits (fst (__init__ rpm rph w))).
  { unfold within_limits. cbn.
    repeat split; try lra; change 0%Q with (inject_Z 0); now rewrite <- Zle_Qle. }
  destruct (steps_within os _ (snd (__init__ rpm rph w)) H0) as (H & L & L').
  fold self in H, L, L'. cbn in L, L'.
  destruct H as (A1 & A2 & A3 & A4). rewrite L in A2. rewrite L' in A4.
  repeat split; try assumption.
  all: intros; pose proof (refill_within self w') as R;
    destruct R as ((B1 & B2 & B3 & B4) & M1 & M2);
    [unfold within_limits; rewrite L, L'; auto|];
    pose proof (refill_limits self w') as (L1 & L1').
  all: try assumption.
  - rewrite L1, L in B2. exact B2.
  - rewrite L1', L' in B4. exact B4.
Qed.

Lemma buckets_within_limits_witness :
  (0 <= 5 /\ 0 <= 100) /\
  let self := fst (steps [Acquire; Refill; Acquire]
                     (fst (__init__ 5 100 (Sample.ticking 1000)))
                     (snd (__init__ 5 100 (Sample.ticking 1000)))) in
  (0 <= minute_bucket self)%Q /\ (minute_bucket self <= inject_Z 5)%Q /\
  (0 <= hour_bucket self)%Q /\ (hour_bucket self <= inject_Z 100)%Q /\
  forall w',
    let self' := fst (_refill_buckets self w') in
    (minute_bucket self <= minute_bucket self')%Q /\
    (minute_bucket self' <= inject_Z 5)%Q /\
    (hour_bucket self <= hour_bucket self')%Q /\
    (hour_bucket self' <= inject_Z 100)%Q.
Proof.
  split; [lia|].
  apply (buckets_within_limits 5 100 [Acquire; Refill; Acquire] (Sample.ticking 1000));
    lia.
Defined.

(** *** The wait *)

Lemma backoff_cases (self : t) :
  backoff_multiplier self = 1%Q \/ backoff_multiplier self = 2%Q.
Proof.
  unfold backoff_multiplier.
  destruct (10 <=? length (request_times self))%nat; [|now left].
  destruct (Qltb _ 60); [now right | now left].
Qed.

Lemma token_wait_nonneg (self : t) (w : World) : (0 <= fst (token_wait self w))%Q.
Proof.
  unfold token_wait.
  destruct (Qltb (minute_bucket self) 1); destruct (Qltb (hour_bucket self) 1); cbn.
  - eapply Qle_trans; [|apply py_max_ge_l]. apply py_max_ge_l.
  - apply py_max_ge_l.
  - apply py_max_ge_l.
  - lra.
Qed.

Lemma token_wait_minute (self : t) (w : World) :
  (minute_bucket self < 1)%Q ->
  (window_remainder 60 self w <= fst (token_wait self w))%Q.
Proof.
  intros H. apply Qltb_lt in H. unfold token_wait, window_remainder. rewrite H.
  destruct (Qltb (hour_bucket self) 1); cbn.
  - eapply Qle_trans; [|apply py_max_ge_l]. apply py_max_ge_r.
  - apply py_max_ge_r.
Qed.

Lemma token_wait_hour (self : t) (w : World) :
  (hour_bucket self < 1)%Q ->
  (window_remainder 3600 self (hour_world self w) <= fst (token_wait self w))%Q.
Proof.
  intros H. apply Qltb_lt in H. unfold token_wait, window_remainder, hour_world.
  rewrite H.
  destruct (Qltb (minute_bucket self) 1); cbn; apply py_max_ge_r.
Qed.

Lemma token_wait_minute_only (self : t) (w : World) :
  (minute_bucket self < 1)%Q ->
  (1 <= hour_bucket self)%Q ->
  token_wait self w =
  (py_max 0 (window_remainder 60 self w), snd (datetime_now w)).
Proof.
  intros Hm Hh. apply Qltb_lt in Hm. apply Qltb_ge in Hh.
  unfold token_wait. now rewrite Hm, Hh.
Qed.

Lemma token_wait_none (self : t) (w : World) :
  (1 <= minute_bucket self)%Q ->
  (1 <= hour_bucket self)%Q ->
  token_wait self w = (0%Q, w).
Proof.
  intros Hm Hh. apply Qltb_ge in Hm. apply Qltb_ge in Hh.
  unfold token_wait. now rewrite Hm, Hh.
Qed.

Lemma computed_wait_covers (self : t) (w : World) :
  (fst (token_wait self w) <= fst (computed_wait self w))%Q.
Proof.
  unfold computed_wait.
  pose proof (token_wait_nonneg self w) as H0.
  destruct (token_wait self w) as [wait_time w1]. cbn in *.
  destruct (backoff_cases self) as [-> | ->]; nra.
Qed.

(** The general part of C5. *)
Lemma wait_at_least_window (self : t) (w : World) :
  ((minute_bucket self < 1)%Q ->
   (window_remainder 60 self w <= fst (computed_wait self w))%Q) /\
  ((hour_bucket self < 1)%Q ->
   (window_remainder 3600 self (hour_world self w) <= fst (computed_wait self w))%Q) /\
  ((minute_bucket self < 1)%Q ->
   (1 <= hour_bucket self)%Q ->
   backoff_multiplier self == 1 ->
   (0 <= window_remainder 60 self w)%Q ->
   fst (computed_wait self w) == window_remainder 60 self w).
Proof.
  split; [|split].
  - intros H. eapply Qle_trans; [now apply token_wait_minute|].
    apply computed_wait_covers.
  - intros H. eapply Qle_trans; [now apply token_wait_hour|].
    apply computed_wait_covers.
  - intros Hm Hh Hb H0. unfold computed_wait.
    rewrite (token_wait_minute_only _ _ Hm Hh). cbn. rewrite Hb.
    unfold py_max. destruct (Qltb 0 (window_remainder 60 self w)) eqn:E.
    + ring.
    + apply Qltb_ge in E. lra.
Qed.

Lemma token_wait_hour_only (self : t) (w : World) :
  (1 <= minute_bucket self)%Q ->
  (hour_bucket self < 1)%Q ->
  token_wait self w =
  (py_max 0 (window_remainder 3600 self w), snd (datetime_now w)).
Proof.
  intros Hm Hh. apply Qltb_ge in Hm. apply Qltb_lt in Hh.
  unfold token_wait. now rewrite Hm, Hh.
Qed.

(** The wait for the hour bucket alone, no backoff applying. *)
Lemma wait_is_hour_remainder (self : t) (w : World) :
  (hour_bucket self < 1)%Q ->
  (1 <= minute_bucket self)%Q ->
  backoff_multiplier self == 1 ->
  (0 <= window_remainder 3600 self (hour_world self w))%Q ->
  fst (computed_wait self w) == window_remainder 3600 self (hour_world self w).
Proof.
  intros Hh Hm Hb.
  assert (Hw : hour_world self w = w).
  { unfold hour_world. apply Qltb_ge in Hm. now rewrite Hm. }
  rewrite Hw. intros H0. unfold computed_wait.
  rewrite (token_wait_hour_only _ _ Hm Hh). cbn. rewrite Hb.
  unfold py_max. destruct (Qltb 0 (window_remainder 3600 self w)) eqn:E.
  - ring.
  - apply Qltb_ge in E. lra.
Qed.

(** *** Six calls in a row *)

Lemma total_seconds_sub (a b : Z) :
  total_seconds (a - b) == total_seconds a - total_seconds b.
Proof.
  unfold total_seconds, Qeq, Qminus, Qplus, Qopp. cbn. lia.
Qed.

Lemma total_seconds_le (a b : Z) : a <= b <-> (total_seconds a <= total_seconds b)%Q.
Proof. unfold total_seconds, Qle. cbn. lia. Qed.

Lemma total_seconds_lt (a b : Z) : a < b <-> (total_seconds a < total_seconds b)%Q.
Proof. unfold total_seconds, Qlt. cbn. lia. Qed.

Lemma total_seconds_12 : total_seconds (seconds 12) == 12.
Proof. reflexivity. Qed.

(** A refill on a clock that has not run backwards since the last one. *)
Lemma refill_bounds (self : t) (w : World) :
  rpm_limit self = 5 -> rph_limit self = 1000 ->
  (minute_bucket self <= 5)%Q -> (hour_bucket self <= 1000)%Q ->
  last_refill self <= reading (env w) ->
  let self1 := fst (_refill_buckets self w) in
  snd (_refill_buckets self w) = snd (datetime_now w) /\
  rpm_limit self1 = 5 /\ rph_limit self1 = 1000 /\
  request_times self1 = request_times self /\
  last_refill self1 = reading (env w) /\
  (minute_bucket self <= minute_bucket self1)%Q /\
  (minute_bucket self1 <=
   minute_bucket self +
   (total_seconds (reading (env w)) - total_seconds (last_refill self)) / 12)%Q /\
  (minute_bucket self1 <= 5)%Q /\
  (hour_bucket self <= hour_bucket self1)%Q /\
  (hour_bucket self1 <= 1000)%Q.
Proof.
  intros Hrpm Hrph Hm Hh Hle self1. subst self1.
  pose proof (total_seconds_sub (reading (env w)) (last_refill self)) as Hsub.
  pose proof (proj1 (total_seconds_le _ _) Hle) as Hle'.
  unfold _refill_buckets. cbn.
  destruct (Qltb 0 (total_seconds (reading (env w) - last_refill self))) eqn:E; cbn.
  - apply Qltb_lt in E. rewrite Hrpm, Hrph.
    set (e := total_seconds (reading (env w) - last_refill self)) in *.
    repeat split.
    + apply py_min_glb; [exact Hm|]. by_shares.
    + eapply Qle_trans; [apply py_min_le_r|]. by_shares.
    + apply py_min_le_l.
    + apply py_min_glb; [exact Hh|]. by_shares.
    + apply py_min_le_l.
  - apply Qltb_ge in E. rewrite Hsub in E.
    assert (Heq : reading (env w) = last_refill self).
    { apply Z.le_antisymm; [|exact Hle]. apply total_seconds_le. lra. }
    repeat split; auto; try lra.
    rewrite Heq. by_shares.
Qed.

Lemma acquire_no_wait (self : t) (w : World) :
  let self1 := fst (_refill_buckets self w) in
  let w1 := snd (_refill_buckets self w) in
  let self2 := fst (_clean_old_requests self1 w1) in
  let w2 := snd (_clean_old_requests self1 w1) in
  (1 <= minute_bucket self1)%Q ->
  (1 <= hour_bucket self1)%Q ->
  acquire self w = (consume self2 (reading (env w2)), snd (datetime_now w2)).
Proof.
  intros self1 w1 self2 w2 Hm Hh.
  unfold acquire. fold self1 w1.
  rewrite (surjective_pairing (_refill_buckets self w)). fold self1 w1.
  rewrite (surjective_pairing (_clean_old_requests self1 w1)). fold self2 w2.
  unfold computed_wait.
  rewrite (token_wait_none self2 w2 Hm Hh).
  assert (Hz : Qltb 0 (0 * backoff_multiplier self2) = false)
    by (destruct (backoff_cases self2) as [-> | ->]; reflexivity).
  rewrite Hz.
  apply Qltb_ge in Hm. apply Qltb_ge in Hh.
  change (minute_bucket self2) with (minute_bucket self1).
  change (hour_bucket self2) with (hour_bucket self1).
  rewrite Hm, Hh. reflexivity.
Qed.

Lemma paced_step (c : nat -> datetime) (n0 : nat) (log : list event) (j : nat)
    (self : t) (w : World) :
  (forall i k, (i <= k)%nat -> c i <= c k) ->
  (j <= 4)%nat ->
  paced c n0 log j self w ->
  paced c n0 log (S j) (fst (acquire self w)) (snd (acquire self w)).
Proof.
  intros Hmono Hj (Hrpm & Hrph & Hc & Ht & Hlog & (a & Ha & Hrange) & Hm0 & Hm1 & Hm5
                   & Hh0 & Hh1 & Hlen).
  assert (Hle : last_refill self <= reading (env w)).
  { unfold reading. rewrite Hc, Ha. apply Hmono. lia. }
  destruct (refill_bounds self w Hrpm Hrph Hm5 Hh1 Hle)
    as (Ew1 & Hrpm1 & Hrph1 & Hreq1 & Hlr1 & Bm0 & Bm1 & Bm5 & Bh0 & Bh1).
  assert (Hq : (inject_Z (Z.of_nat j) <= 4)%Q).
  { change 4%Q with (inject_Z 4). rewrite <- Zle_Qle. lia. }
  assert (Hq0 : (0 <= inject_Z (Z.of_nat j))%Q).
  { change 0%Q with (inject_Z 0). rewrite <- Zle_Qle. lia. }
  assert (HS : inject_Z (Z.of_nat (S j)) == inject_Z (Z.of_nat j) + 1).
  { rewrite Nat2Z.inj_succ. unfold Z.succ. rewrite inject_Z_plus. reflexivity. }
  assert (HL0 : (total_seconds (c n0) <= total_seconds (last_refill self))%Q).
  { apply (proj1 (total_seconds_le _ _)). rewrite Ha. apply Hmono. lia. }
  rewrite acquire_no_wait by lra.
  rewrite Ew1.
  set (self1 := fst (_refill_buckets self w)) in *.
  unfold paced. cbn. rewrite Hc, Ht.
  repeat split; auto; rewrite ?HS; clear HS;
    generalize dependent (inject_Z (Z.of_nat j)); intros q; intros.
  - lia.
  - exists (tick (env w)). rewrite Hlr1. unfold reading. rewrite Hc, Ht.
    split; [reflexivity|lia].
  - eapply Qle_trans; [|apply py_max_ge_r]. lra.
  - rewrite Hlr1. apply py_max_lub; by_shares.
  - apply py_max_lub; lra.
  - eapply Qle_trans; [|apply py_max_ge_r]. lra.
  - apply py_max_lub; lra.
  - rewrite length_app. cbn [length].
    match goal with
    | |- context [length (List.filter ?f ?l)] =>
        pose proof (filter_length_le f l) as Hf;
        assert (Hl : (length l <= j)%nat) by (rewrite Hreq1; exact Hlen)
    end.
    rewrite Nat.add_1_r. apply le_n_S. exact (Nat.le_trans _ _ _ Hf Hl).
Qed.

Lemma paced_init (w : World) :
  paced (clock (env w)) (tick (env w)) (journal w) 0
        (fst (__init__ 5 1000 w)) (snd (__init__ 5 1000 w)).
Proof.
  unfold paced. cbn. change (Z.of_nat 0) with 0%Z.
  repeat split; try lia; try (unfold reading; by_shares).
  exists (tick (env w)). split; [reflexivity|lia].
Qed.

Lemma paced_steps (c : nat -> datetime) (n0 : nat) (log : list event) (n : nat) :
  (forall i k, (i <= k)%nat -> c i <= c k) ->
  forall j self w,
    (j + n <= 5)%nat ->
    paced c n0 log j self w ->
    paced c n0 log (j + n)
          (fst (steps (repeat Acquire n) self w))
          (snd (steps (repeat Acquire n) self w)).
Proof.
  intros Hmono. induction n as [|n IH]; intros j self w Hj Hp.
  - cbn. now rewrite Nat.add_0_r.
  - cbn [repeat steps step].
    pose proof (paced_step c n0 log j self w Hmono ltac:(lia) Hp) as Hp'.
    destruct (acquire self w) as [self1 w1]. cbn [fst snd] in Hp'.
    replace (j + S n)%nat with (S j + n)%nat by lia.
    apply IH; [lia | exact Hp'].
Qed.

Lemma refill_journal (self : t) (w : World) :
  journal (snd (_refill_buckets self w)) = journal w.
Proof. unfold _refill_buckets. cbn. now destruct (Qltb 0 _). Qed.

(** The call that finds the minute bucket short, and nothing else amiss. *)
Lemma acquire_waits_for_minute (self : t) (w : World) :
  let self1 := fst (_refill_buckets self w) in
  let w1 := snd (_refill_buckets self w) in
  let self2 := fst (_clean_old_requests self1 w1) in
  let w2 := snd (_clean_old_requests self1 w1) in
  (minute_bucket self1 < 1)%Q ->
  (1 <= hour_bucket self1)%Q ->
  backoff_multiplier self2 = 1%Q ->
  (0 < window_remainder 60 self2 w2)%Q ->
  exists wait rest,
    journal (snd (acquire self w)) = journal w ++ EvSleep wait :: rest /\
    wait == window_remainder 60 self2 w2.
Proof.
  intros self1 w1 self2 w2 Hm Hh Hb Hpos.
  assert (Hj2 : journal w2 = journal w).
  { subst w2 w1. cbn. apply refill_journal. }
  unfold acquire. fold self1 w1.
  rewrite (surjective_pairing (_refill_buckets self w)). fold self1 w1.
  rewrite (surjective_pairing (_clean_old_requests self1 w1)). fold self2 w2.
  unfold computed_wait.
  rewrite (token_wait_minute_only self2 w2 Hm Hh). rewrite Hb.
  set (wait := (py_max 0 (window_remainder 60 self2 w2) * 1)%Q).
  assert (Hw : wait == window_remainder 60 self2 w2).
  { subst wait. unfold py_max.
    replace (Qltb 0 (window_remainder 60 self2 w2)) with true
      by (symmetry; now apply Qltb_lt).
    ring. }
  assert (Hgo : Qltb 0 wait = true) by (apply Qltb_lt; lra).
  rewrite Hgo.
  pose proof (refill_journal self2 (sleep wait (snd (datetime_now w2)))) as Hj3.
  destruct (_refill_buckets self2 (sleep wait (snd (datetime_now w2)))) as [self3 w4].
  cbn [snd] in Hj3. cbn in Hj3.
  exists wait.
  destruct (Qltb (minute_bucket self3) 1 || Qltb (hour_bucket self3) 1).
  - exists [EvSleep 1]. split; [|exact Hw].
    cbn. rewrite Hj3. subst w1. rewrite refill_journal. now rewrite <- app_assoc.
  - exists []. split; [|exact Hw].
    cbn. rewrite Hj3. subst w1. now rewrite refill_journal.
Qed.

Lemma clean_facts (self : t) (w : World) :
  let self' := fst (_clean_old_requests self w) in
  let w' := snd (_clean_old_requests self w) in
  minute_bucket self' = minute_bucket self /\
  hour_bucket self' = hour_bucket self /\
  last_refill self' = last_refill self /\
  env w' = advance (env w) /\
  (length (request_times self') <= length (request_times self))%nat.
Proof.
  cbn. repeat split. apply filter_length_le.
Qed.

Lemma six_calls_in_a_row (w : World) :
  back_to_back 18 (seconds 12) w -> sixth_call_waits w.
Proof.
  intros [Hmono Hspan].
  set (c := clock (env w)) in *. set (n0 := tick (env w)) in *.
  unfold sixth_call_waits, at_wait.
  pose proof (paced_steps c n0 (journal w) 5 Hmono 0 _ _ ltac:(lia) (paced_init w)) as Hp.
  destruct (__init__ 5 1000 w) as [fresh w0]. cbn [fst snd] in Hp.
  destruct (steps (repeat Acquire 5) fresh w0) as [self5 w5]. cbn [fst snd] in Hp.
  destruct Hp as (Hrpm & Hrph & Hc & Ht & Hlog & (a & Ha & Hrange) & Hm0 & Hm1 & Hm5
                  & Hh0 & Hh1 & Hlen).
  change (0 + 5)%nat with 5%nat in *.
  change (inject_Z (Z.of_nat 5)) with 5%Q in *.
  assert (Hle : last_refill self5 <= reading (env w5)).
  { unfold reading. rewrite Hc, Ha. apply Hmono. lia. }
  destruct (refill_bounds self5 w5 Hrpm Hrph Hm5 Hh1 Hle)
    as (Ew1 & Hrpm1 & Hrph1 & Hreq1 & Hlr1 & Bm0 & Bm1 & Bm5 & Bh0 & Bh1).
  pose proof (acquire_waits_for_minute self5 w5) as Hacq. cbn zeta in Hacq.
  destruct (_refill_buckets self5 w5) as [self1 w1]. cbn [fst snd] in *.
  subst w1.
  pose proof (clean_facts self1 (snd (datetime_now w5))) as (Cm & Ch & Cl & Ce & Clen).
  destruct (_clean_old_requests self1 (snd (datetime_now w5))) as [self2 w2].
  cbn [fst snd] in *.
  assert (Hr16 : reading (env w5) = c (n0 + 16)%nat).
  { unfold reading. rewrite Hc, Ht. f_equal. lia. }
  assert (Hr18 : reading (env w2) = c (n0 + 18)%nat).
  { rewrite Ce. unfold reading. cbn. rewrite Hc, Ht. f_equal. lia. }
  assert (T0 : (total_seconds (c n0) <= total_seconds (last_refill self5))%Q).
  { apply (proj1 (total_seconds_le _ _)). rewrite Ha. apply Hmono. lia. }
  assert (T16 : (total_seconds (c (n0 + 16)%nat) <= total_seconds (c (n0 + 18)%nat))%Q).
  { apply (proj1 (total_seconds_le _ _)). apply Hmono. lia. }
  assert (T016 : (total_seconds (c n0) <= total_seconds (c (n0 + 16)%nat))%Q).
  { apply (proj1 (total_seconds_le _ _)). apply Hmono. lia. }
  assert (T18 : (total_seconds (c (n0 + 18)%nat) - total_seconds (c n0) < 12)%Q).
  { rewrite <- total_seconds_sub, <- total_seconds_12.
    apply (proj1 (total_seconds_lt _ _)). exact Hspan. }
  assert (Hrem : window_remainder 60 self2 w2
                 == 60 - (total_seconds (c (n0 + 18)%nat) - total_seconds (c (n0 + 16)%nat))).
  { unfold window_remainder. rewrite Hr18, Cl, Hlr1, Hr16.
    now rewrite total_seconds_sub. }
  split; [exact Hlog|].
  destruct Hacq as (wait & rest & Hj & Hw).
  - rewrite Hr16 in Bm1. by_shares.
  - lra.
  - unfold backoff_multiplier.
    replace (10 <=? length (request_times self2))%nat with false; [reflexivity|].
    symmetry. apply Nat.leb_gt. rewrite Hreq1 in Clen. lia.
  - rewrite Hrem. lra.
  - exists wait, rest. rewrite <- Hlog. split; [exact Hj|]. split; [exact Hw|].
    rewrite Hw, Hrem. lra.
Qed.

(** C5, amended: when [acquire] finds a bucket below one token after its
    refill, the wait it computes is at least the time left until that
    bucket's window, counted from the last refill, has run out; it is that
    time exactly, for the minute bucket and for the hour bucket alike, when
    no backoff applies, the other bucket holds a token and the window has
    not run out.  With 5 requests a minute and 1000 an hour,
    six calls in a row (the clock readings of the run less than 12 seconds
    apart) make the sixth suspend for the remainder of the minute window,
    which is more than zero. *)
Theorem wait_covers_window :
  (forall (self : t) (w : World),
     ((minute_bucket self < 1)%Q ->
      (window_remainder 60 self w <= fst (computed_wait self w))%Q) /\
     ((hour_bucket self < 1)%Q ->
      (window_remainder 3600 self (hour_world self w) <= fst (computed_wait self w))%Q) /\
     ((minute_bucket self < 1)%Q ->
      (1 <= hour_bucket self)%Q ->
      backoff_multiplier self == 1 ->
      (0 <= window_remainder 60 self w)%Q ->
      fst (computed_wait self w) == window_remainder 60 self w) /\
     ((hour_bucket self < 1)%Q ->
      (1 <= minute_bucket self)%Q ->
      backoff_multiplier self == 1 ->
      (0 <= window_remainder 3600 self (hour_world self w))%Q ->
      fst (computed_wait self w) == window_remainder 3600 self (hour_world self w))) /\
  (forall w : World, back_to_back 18 (seconds 12) w -> sixth_call_waits w).
Proof.
  split.
  - intros self w.
    destruct (wait_at_least_window self w) as (Hminute & Hhour & Hexact).
    split; [exact Hminute|]. split; [exact Hhour|]. split; [exact Hexact|].
    apply wait_is_hour_remainder.
  - intros w. apply six_calls_in_a_row.
Qed.

Lemma wait_covers_window_witness :
  back_to_back 18 (seconds 12) (Sample.ticking 1000) /\
  sixth_call_waits (Sample.ticking 1000) /\
  (let '(self, w') := at_wait 10 1000 10 (Sample.ticking 1000) in
   (minute_bucket self < 1)%Q /\
   (window_remainder 60 self w' <= fst (computed_wait self w'))%Q) /\
  (let '(self, w') := at_wait 100 2 2 (Sample.ticking 1000) in
   (hour_bucket self < 1)%Q /\
   fst (computed_wait self w') == window_remainder 3600 self (hour_world self w')).
Proof.
  assert (B : back_to_back 18 (seconds 12) (Sample.ticking 1000)).
  { split; [intros i j Hij; cbn; lia | reflexivity]. }
  destruct wait_covers_window as [Hgen Hsix].
  split; [exact B|]. split; [exact (Hsix _ B)|]. split.
  - destruct (at_wait 10 1000 10 (Sample.ticking 1000)) as [self w'] eqn:E.
    assert (Hm : (minute_bucket self < 1)%Q).
    { vm_compute in E. injection E as <- _. reflexivity. }
    split; [exact Hm|]. now apply Hgen.
  - destruct (at_wait 100 2 2 (Sample.ticking 1000)) as [self w'] eqn:E.
    destruct (Hgen self w') as (_ & _ & _ & Hhour).
    vm_compute in E. injection E as <- <-.
    split; [reflexivity|].
    apply Hhour.
    + reflexivity.
    + vm_compute. discriminate.
    + vm_compute. reflexivity.
    + vm_compute. discriminate.
Defined.

(** C5 as stated fails when the backoff applies: after ten calls in a row
    on a limiter for 10 requests a minute, the eleventh finds the minute
    bucket short and ten requests within the last minute, and the wait it
    computes is twice the remainder of the window. *)
Lemma backoff_doubles_the_wait : ~ wait_is_window_remainder.
Proof.
  intros H.
  specialize (H 10 1000 10%nat (Sample.ticking 1000)).
  destruct (at_wait 10 1000 10 (Sample.ticking 1000)) as [self w'] eqn:E.
  vm_compute in E. injection E as <- <-.
  destruct H as [H _].
  specialize (H eq_refl). vm_compute in H. discriminate H.
Qed.

Example eleventh_wait :
  let '(self, w') := at_wait 10 1000 10 (Sample.ticking 1000) in
  fst (computed_wait self w') == 2 * window_remainder 60 self w' /\
  window_remainder 60 self w' == 59.998.
Proof. vm_compute. split; reflexivity. Qed.

End RateLimiterProofs.

(** ** StateManager *)

Module StateManagerProofs.
Import StateManager StateManagerSpec.

Lemma bind_returned {A B} (m : M A) (k : A -> M B) (e : Env) (b : B) (e2 : Env) :
  bind m k e = (Returned b, e2) ->
  exists a e1, m e = (Returned a, e1) /\ k a e1 = (Returned b, e2).
Proof.
  unfold bind. destruct (m e) as [[a|x|x] e1]; intros H; try discriminate.
  eauto.
Qed.

Lemma get_current_branch_reads (self : t) (e : Env) :
  get_current_branch self e = (Returned (default JNull (recorded_branch self e)), e).
Proof.
  unfold get_current_branch, recorded_branch, bind, path_exists, try_except_pass,
    read_text, json_loads, py_get, ret, raise.
  destruct (files e !! branch_file self) as [[[v|s]|]|] eqn:E;
    cbv beta iota; rewrite ?E; try reflexivity.
  destruct v as [ |b|z|q|s|l|d]; try reflexivity.
  cbn. destruct (dict_get "branch" d) as [[]|]; reflexivity.
Qed.

Lemma differs_from_recorded (self : t) (b : string) (e : Env) :
  differs_from (default JNull (recorded_branch self e)) b = true <->
  exists v, recorded_branch self e = Some v /\ v <> JStr b.
Proof.
  assert (Hnn : forall v, recorded_branch self e = Some v -> v <> JNull).
  { unfold recorded_branch. intros v.
    destruct (files e !! branch_file self) as [[[j|s]|]|]; try discriminate.
    destruct j as [ |b0|z|q|s|l|d]; try discriminate.
    destruct (dict_get "branch" d) as [[]|]; intros H; try discriminate;
      injection H as <-; discriminate. }
  destruct (recorded_branch self e) as [v|]; cbn.
  - specialize (Hnn v eq_refl). split.
    + intros H. exists v. split; [reflexivity|]. intros ->. cbn in H.
      now rewrite String.eqb_refl in H.
    + intros (v' & Hv & Hne). injection Hv as <-.
      destruct v; try reflexivity; try congruence. cbn.
      destruct (String.eqb_spec s b); [congruence | reflexivity].
  - split; [discriminate|]. intros (v & Hv & _). discriminate.
Qed.

Lemma should_archive_reads (self : t) (b : string) (e : Env) :
  should_archive self b e =
  (Returned (differs_from (default JNull (recorded_branch self e)) b), e).
Proof.
  unfold should_archive, bind. now rewrite get_current_branch_reads.
Qed.

Lemma archive_unwanted (self : t) (b : string) (e : Env) :
  differs_from (default JNull (recorded_branch self e)) b = false ->
  archive_current_state self b e = (Returned tt, e).
Proof.
  intros H. unfold archive_current_state, bind at 1.
  rewrite should_archive_reads, H. reflexivity.
Qed.

Lemma set_current_branch_records (self : t) (b : string) (e : Env) :
  exists e', set_current_branch self b e = (Returned tt, e') /\
             recorded_branch self e' = Some (JStr b).
Proof.
  unfold set_current_branch, bind, now, write_text, json_dumps.
  eexists. split; [reflexivity|].
  unfold recorded_branch. cbn. rewrite lookup_insert_eq. reflexivity.
Qed.

(** C6: [should_archive] answers true exactly when a branch marker exists
    and records something other than the new branch; when the recorded
    branch is the new branch, or there is no marker, [archive_current_state]
    returns without touching anything (no folder, no write to the marker);
    and a call that succeeded makes the same call again such a no-op. *)
Theorem archive_same_branch_noop (self : t) (newBranch : string) (e : Env) :
  (exists answer,
     should_archive self newBranch e = (Returned answer, e) /\
     (answer = true <->
      exists v, recorded_branch self e = Some v /\ v <> JStr newBranch)) /\
  (recorded_branch self e = None \/ recorded_branch self e = Some (JStr newBranch) ->
   archive_current_state self newBranch e = (Returned tt, e)) /\
  (forall e1,
     archive_current_state self newBranch e = (Returned tt, e1) ->
     archive_current_state self newBranch e1 = (Returned tt, e1)).
Proof.
  split; [|split].
  - eexists. split; [apply should_archive_reads|]. apply differs_from_recorded.
  - intros H. apply archive_unwanted.
    destruct H as [-> | ->]; cbn; [reflexivity|].
    now rewrite String.eqb_refl.
  - intros e1 H.
    destruct (differs_from (default JNull (recorded_branch self e)) newBranch) eqn:D.
    + apply archive_unwanted.
      unfold archive_current_state in H.
      apply bind_returned in H as (wanted & ea & Hw & H).
      rewrite should_archive_reads in Hw. injection Hw as <- <-.
      rewrite D in H. cbn [negb] in H.
      apply bind_returned in H as (last & eb & _ & H).
      apply bind_returned in H as (stamp & ec & _ & H).
      apply bind_returned in H as (folder & ed & _ & H).
      apply bind_returned in H as ([] & ef & _ & H).
      apply bind_returned in H as ([] & eg & _ & H).
      apply bind_returned in H as ([] & eh & _ & H).
      destruct (set_current_branch_records self newBranch eh) as (e' & Hs & Hr).
      rewrite Hs in H. injection H as <-.
      rewrite Hr. cbn. now rewrite String.eqb_refl.
    + rewrite (archive_unwanted _ _ _ D) in H. injection H as <-.
      now apply archive_unwanted.
Qed.

Lemma archive_same_branch_noop_witness :
  let e := env (on_branch Scenario.manager "main" (Sample.ticking 1000)) in
  recorded_branch Scenario.manager e = Some (JStr "main") /\
  should_archive Scenario.manager "main" e = (Returned false, e) /\
  archive_current_state Scenario.manager "main" e = (Returned tt, e).
Proof.
  intros e. split; [reflexivity|].
  destruct (archive_same_branch_noop Scenario.manager "main" e)
    as ((answer & Hs & Hiff) & Hnoop & _).
  split.
  - rewrite Hs. destruct answer; [|reflexivity].
    exfalso. destruct (proj1 Hiff eq_refl) as (v & Hv & Hne).
    vm_compute in Hv. injection Hv as <-. now apply Hne.
  - apply Hnoop. right. reflexivity.
Defined.

Lemma load_progress_returns (self : t) (e : Env) :
  exists doc e',
    load_progress self e = (Returned doc, e') /\
    match files e !! progress_file self with
    | Some (FileText (TJson v)) => doc = v /\ e' = e
    | Some (FileText (TRaw _)) | Some Unreadable | None =>
        doc = empty_progress (reading e) /\ e' = advance e
    end.
Proof.
  unfold load_progress, bind, path_exists, try_except_pass, read_text, json_loads,
    now, ret, raise.
  destruct (files e !! progress_file self) as [[[v|s]|]|] eqn:E;
    cbv beta iota; rewrite ?E;
    do 2 eexists; split; try reflexivity; split; reflexivity.
Qed.

(** C7: [load_progress] returns for every state of the store.  With the
    progress document missing, unparseable or unreadable it returns the
    empty document stamped with the current time; otherwise what the
    document parses to. *)
Theorem load_progress_never_raises (self : t) (e : Env) :
  exists doc e',
    load_progress self e = (Returned doc, e') /\
    match files e !! progress_file self with
    | Some (FileText (TJson v)) => doc = v /\ e' = e
    | Some (FileText (TRaw _)) | Some Unreadable | None =>
        doc = JDict [("cycles", JList []); ("patterns", JList []);
                     ("start_time", JStr (isoformat (reading e)))] /\
        e' = advance e
    end.
Proof. apply load_progress_returns. Qed.

(** A change of branch archives the progress document under the old
    branch's name and moves the marker; the same call again changes
    nothing. *)
Example archive_on_branch_change :
  let e := env (on_branch Scenario.manager "feature/old" (Sample.ticking 1000)) in
  let '(r, e1) := archive_current_state Scenario.manager "feature/new" e in
  r = Returned tt /\
  dirs e1 = {[ "archive/1970-01-01-feature-old" ]} /\
  files e1 !! "archive/1970-01-01-feature-old/progress.json" =
    files e !! "state/progress.json" /\
  recorded_branch Scenario.manager e1 = Some (JStr "feature/new") /\
  archive_current_state Scenario.manager "feature/new" e1 = (Returned tt, e1).
Proof.
  cbn zeta.
  destruct (archive_current_state Scenario.manager "feature/new" _) as [r e1] eqn:E.
  vm_compute in E. injection E as <- <-.
  repeat split; vm_compute; reflexivity.
Qed.

Example strftime_epoch : strftime_ymd 0 = "1970-01-01".
Proof. reflexivity. Qed.

Example isoformat_sample :
  isoformat 1762214400123456 = "2025-11-04T00:00:00.123456".
Proof. vm_compute. reflexivity. Qed.

Example path_name_sample : path_name "state/progress.json" = "progress.json".
Proof. reflexivity. Qed.

End StateManagerProofs.

(** ** ClaudeOrchestrator *)

Module OrchestratorProofs.
Import ClaudeOrchestrator OrchestratorSpec StateManagerSpec.

(** *** Steps that only read the clock or wait *)

Lemma quiet_refl (w : World) : quiet w w.
Proof. split; reflexivity. Qed.

Lemma quiet_trans (w1 w2 w3 : World) : quiet w1 w2 -> quiet w2 w3 -> quiet w1 w3.
Proof. intros [A B] [C D]. split; congruence. Qed.

Lemma run_cycle_calls_app (l1 l2 : list event) :
  run_cycle_calls (l1 ++ l2) = run_cycle_calls l1 ++ run_cycle_calls l2.
Proof. apply flat_map_app. Qed.

Lemma quiet_now (w : World) : quiet w (snd (datetime_now w)).
Proof. split; reflexivity. Qed.

Lemma quiet_sleep (q : Q) (w : World) : quiet w (sleep q w).
Proof.
  split; [reflexivity|]. unfold sleep, emit. cbn.
  rewrite run_cycle_calls_app. cbn. now rewrite app_nil_r.
Qed.

Lemma quiet_refill (self : RateLimiter.t) (w : World) :
  quiet w (snd (RateLimiter._refill_buckets self w)).
Proof.
  unfold RateLimiter._refill_buckets. cbn.
  destruct (Qltb 0 _); apply quiet_now.
Qed.

Lemma quiet_token_wait (self : RateLimiter.t) (w : World) :
  quiet w (snd (RateLimiter.token_wait self w)).
Proof.
  unfold RateLimiter.token_wait.
  destruct (Qltb (RateLimiter.minute_bucket self) 1);
    destruct (Qltb (RateLimiter.hour_bucket self) 1); cbn; split; reflexivity.
Qed.

Lemma quiet_acquire (self : RateLimiter.t) (w : World) :
  quiet w (snd (RateLimiter.acquire self w)).
Proof.
  unfold RateLimiter.acquire.
  pose proof (quiet_refill self w) as Q1.
  destruct (RateLimiter._refill_buckets self w) as [self1 w1]. cbn [snd] in Q1.
  assert (Q2 : quiet w1 (snd (RateLimiter._clean_old_requests self1 w1)))
    by (split; reflexivity).
  destruct (RateLimiter._clean_old_requests self1 w1) as [self2 w2]. cbn [snd] in Q2.
  unfold RateLimiter.computed_wait.
  pose proof (quiet_token_wait self2 w2) as Q3.
  destruct (RateLimiter.token_wait self2 w2) as [wait_time w3]. cbn [snd] in Q3.
  set (wt := (wait_time * _)%Q).
  assert (Q4 : quiet w3 (snd (if Qltb 0 wt
                              then RateLimiter._refill_buckets self2 (sleep wt w3)
                              else (self2, w3)))).
  { destruct (Qltb 0 wt); [|apply quiet_refl].
    eapply quiet_trans; [apply quiet_sleep | apply quiet_refill]. }
  destruct (if Qltb 0 wt
            then RateLimiter._refill_buckets self2 (sleep wt w3)
            else (self2, w3)) as [self3 w4]. cbn [snd] in Q4.
  eapply quiet_trans; [exact Q1|].
  eapply quiet_trans; [exact Q2|].
  eapply quiet_trans; [exact Q3|].
  eapply quiet_trans; [exact Q4|].
  destruct (Qltb (RateLimiter.minute_bucket self3) 1
            || Qltb (RateLimiter.hour_bucket self3) 1).
  - split; cbn; [reflexivity|].
    rewrite run_cycle_calls_app. cbn. now rewrite app_nil_r.
  - split; reflexivity.
Qed.

Lemma appendable_files (sm : StateManager.t) (e e' : Env) :
  files e' = files e -> appendable sm e -> appendable sm e'.
Proof. unfold appendable. now intros ->. Qed.

Lemma persisted_files (sm : StateManager.t) (e e' : Env) :
  files e' = files e -> persisted_cycles sm e' = persisted_cycles sm e.
Proof. unfold persisted_cycles. now intros ->. Qed.

(** *** Appending a cycle result *)

Lemma dict_get_set (k : string) (v : json) (d : list (string * json)) :
  dict_get k (dict_set k v d) = Some v.
Proof.
  induction d as [|[k' v'] d IH]; cbn.
  - now rewrite String.eqb_refl.
  - destruct (String.eqb_spec k' k) as [->|Hne]; cbn.
    + now rewrite String.eqb_refl.
    + destruct (String.eqb_spec k' k); [contradiction | exact IH].
Qed.

Lemma append_cycle_ok (d : list (string * json)) (r : json) (e : Env) :
  match dict_get "cycles" d with Some (JList _) | None => True | Some _ => False end ->
  exists d',
    StateManager.append_cycle (JDict d) r e = (Returned (JDict d'), e) /\
    dict_get "cycles" d' =
    Some (JList (match dict_get "cycles" d with Some (JList l) => l | _ => [] end
                 ++ [r])).
Proof.
  intros H. unfold StateManager.append_cycle.
  destruct (dict_get "cycles" d) as [v|] eqn:E.
  - destruct v; try contradiction. rewrite E.
    eexists. split; [reflexivity|]. apply dict_get_set.
  - rewrite dict_get_set.
    eexists. split; [reflexivity|]. apply dict_get_set.
Qed.

Lemma add_cycle_result_ok (sm : StateManager.t) (r : CycleResult.t) (e : Env) :
  appendable sm e ->
  exists e',
    StateManager.add_cycle_result sm r e = (Returned tt, e') /\
    appendable sm e' /\
    persisted_cycles sm e' = persisted_cycles sm e ++ [CycleResult.as_json r].
Proof.
  intros H.
  destruct (StateManagerProofs.load_progress_returns sm e) as (doc & e1 & Hl & Hdoc).
  unfold StateManager.add_cycle_result, bind. rewrite Hl.
  unfold appendable, persisted_cycles in *.
  assert (Hd : exists d,
             doc = JDict d /\
             match dict_get "cycles" d with Some (JList _) | None => True | Some _ => False end /\
             match dict_get "cycles" d with Some (JList l) => l | _ => [] end =
             match files e !! StateManager.progress_file sm with
             | Some (FileText (TJson (JDict d0))) =>
                 match dict_get "cycles" d0 with Some (JList l) => l | _ => [] end
             | _ => []
             end).
  { destruct (files e !! StateManager.progress_file sm) as [[[v|s]|]|].
    - destruct Hdoc as [-> _]. destruct v; try contradiction. eauto.
    - destruct Hdoc as [-> _]. eexists. split; [reflexivity|]. cbn. auto.
    - destruct Hdoc as [-> _]. eexists. split; [reflexivity|]. cbn. auto.
    - destruct Hdoc as [-> _]. eexists. split; [reflexivity|]. cbn. auto. }
  destruct Hd as (d & -> & Hshape & Hcycles).
  destruct (append_cycle_ok d (CycleResult.as_json r) e1 Hshape) as (d' & Ha & Hget).
  rewrite Ha.
  unfold StateManager.save_progress, write_text, json_dumps. cbn.
  eexists. split; [reflexivity|]. cbn.
  rewrite lookup_insert_eq. rewrite Hget. split; [exact I|].
  now rewrite Hcycles.
Qed.

(** *** The phase loop *)

Lemma run_phases_app (ps qs : list CyclePhase) :
  forall self cyc w,
    run_phases (ps ++ qs) self cyc w =
    match run_phases ps self cyc w with
    | (Returned _, self1, cyc1, w1) => run_phases qs self1 cyc1 w1
    | other => other
    end.
Proof.
  induction ps as [|p ps IH]; intros self cyc w; [reflexivity|].
  cbn [app run_phases].
  destruct (is_COMPLETE p); [apply IH|].
  destruct (RateLimiter.acquire (rate_limiter self) w) as [rl w1].
  cbn [phase_handlers with_rate_limiter].
  destruct (phase_handlers self p) as [h|]; [|reflexivity].
  destruct (h p _ (env w1)) as [[output|x|x] e]; [apply IH | reflexivity | reflexivity].
Qed.

Lemma same_wiring_refl (self : t) : same_wiring self self.
Proof. repeat split. Qed.

Lemma same_wiring_trans (a b c : t) :
  same_wiring a b -> same_wiring b c -> same_wiring a c.
Proof. intros (A1 & A2 & A3 & A4) (B1 & B2 & B3 & B4). repeat split; congruence. Qed.

Lemma tame_wiring (self self' : t) : same_wiring self self' -> tame self -> tame self'.
Proof.
  intros (_ & Hsm & Hh & _) Ht p h results e Hp.
  rewrite Hsm. apply Ht. now rewrite <- Hh.
Qed.

Lemma run_phases_frame (ps : list CyclePhase) :
  forall self cyc w r self1 cyc1 w1,
    run_phases ps self cyc w = (r, self1, cyc1, w1) ->
    same_wiring self self1 /\
    cycles_completed self1 = cycles_completed self /\
    CycleState.cycle_id cyc1 = CycleState.cycle_id cyc /\
    CycleState.start_time cyc1 = CycleState.start_time cyc.
Proof.
  induction ps as [|p ps IH]; intros self cyc w r self1 cyc1 w1 H.
  - cbn in H. injection H as <- <- <- <-. repeat split.
  - cbn [run_phases] in H.
    destruct (is_COMPLETE p); [now apply IH in H|].
    destruct (RateLimiter.acquire (rate_limiter self) w) as [rl wa].
    cbn [phase_handlers with_rate_limiter] in H.
    destruct (phase_handlers self p) as [h|].
    + destruct (h p _ (env wa)) as [[output|x|x] e].
      * apply IH in H. destruct H as (W & C & I & S).
        split; [|split; [|split]]; assumption.
      * injection H as <- <- <- <-. repeat split.
      * injection H as <- <- <- <-. repeat split.
    + injection H as <- <- <- <-. repeat split.
Qed.

Lemma run_phases_tame (ps : list CyclePhase) :
  forall self cyc w r self1 cyc1 w1,
    tame self ->
    appendable (state_manager self) (env w) ->
    run_phases ps self cyc w = (r, self1, cyc1, w1) ->
    (forall x, r <> Aborted x) /\
    appendable (state_manager self) (env w1) /\
    run_cycle_calls (journal w1) = run_cycle_calls (journal w).
Proof.
  induction ps as [|p ps IH]; intros self cyc w r self1 cyc1 w1 Ht Ha H.
  - cbn in H. injection H as <- <- <- <-. repeat split; auto; try discriminate.
  - cbn [run_phases] in H.
    destruct (is_COMPLETE p); [now apply IH in H|].
    pose proof (quiet_acquire (rate_limiter self) w) as [Qf Qj].
    destruct (RateLimiter.acquire (rate_limiter self) w) as [rl wa].
    cbn [snd] in Qf, Qj.
    cbn [phase_handlers with_rate_limiter] in H.
    assert (Ha' : appendable (state_manager self) (env wa))
      by (eapply appendable_files; eauto).
    destruct (phase_handlers self p) as [h|] eqn:Hp.
    + destruct (Ht p h (CycleState.phase_results (CycleState.with_current_phase cyc p))
                  (env wa) Hp) as [Hna Hkeep].
      specialize (Hkeep Ha').
      destruct (h p _ (env wa)) as [[output|x|x] e]; cbn [fst snd] in *.
      * apply IH in H; auto.
        destruct H as (H1 & H2 & H3).
        repeat split; auto.
        rewrite H3. cbn. rewrite run_cycle_calls_app. cbn.
        now rewrite app_nil_r.
      * injection H as <- <- <- <-. repeat split; auto; try discriminate.
        cbn. rewrite run_cycle_calls_app. cbn. now rewrite app_nil_r.
      * exfalso. now apply (Hna x).
    + injection H as <- <- <- <-. repeat split; auto; try discriminate.
Qed.

Lemma run_phases_return (ps : list CyclePhase) :
  forall self cyc w,
    handlers_return self ->
    exists self1 cyc1 w1, run_phases ps self cyc w = (Returned tt, self1, cyc1, w1).
Proof.
  induction ps as [|p ps IH]; intros self cyc w Hr.
  - do 3 eexists. reflexivity.
  - cbn [run_phases].
    destruct (is_COMPLETE p) eqn:Ec; [now apply IH|].
    destruct (RateLimiter.acquire (rate_limiter self) w) as [rl wa].
    cbn [phase_handlers with_rate_limiter].
    destruct (Hr p Ec) as (h & Hh & Hret). rewrite Hh.
    specialize (Hret (CycleState.phase_results (CycleState.with_current_phase cyc p))
                     (env wa)).
    destruct (h p _ (env wa)) as [[output|x|x] e]; try discriminate.
    apply IH. exact Hr.
Qed.

(** *** One cycle *)

Lemma lift_returned {A} (m : M A) (w : World) (a : A) (e' : Env) :
  m (env w) = (Returned a, e') ->
  lift m w = (Returned a, {| env := e'; journal := journal w |}).
Proof. intros H. unfold lift. now rewrite H. Qed.

Lemma cycle_except_reports (x : exn) (self : t) (cyc : CycleState.t) (w : World) :
  appendable (state_manager self) (env w) ->
  exists self' w',
    cycle_except x self cyc w = (Returned false, self', w') /\
    same_wiring self self' /\
    cycles_completed self' = cycles_completed self /\
    appendable (state_manager self) (env w') /\
    journal w' = journal w /\
    persisted_cycles (state_manager self) (env w') =
    persisted_cycles (state_manager self) (env w) ++
    [CycleResult.as_json
       (failure_result (CycleState.cycle_id cyc) (CycleState.current_phase cyc) x)].
Proof.
  intros Ha. unfold cycle_except. cbn [datetime_now].
  set (result := failure_result _ _ x).
  destruct (add_cycle_result_ok (state_manager self) result (advance (env w)))
    as (e' & Hadd & Ha' & Hp).
  { eapply appendable_files; [|exact Ha]. reflexivity. }
  cbn [state_manager with_current_cycle].
  erewrite lift_returned by exact Hadd.
  do 2 eexists. split; [reflexivity|].
  repeat split; auto.
Qed.

Lemma cycle_begin_journal (n : Z) (w : World) :
  files (env (snd (cycle_begin n w))) = files (env w) /\
  journal (snd (cycle_begin n w)) = journal w ++ [EvRunCycle n].
Proof. split; reflexivity. Qed.

(** A cycle of an orchestrator with tame handlers and a calm predicate
    returns, and returns true only on the predicate's word. *)
Lemma run_cycle_returns (self : t) (n : Z) (w : World) :
  tame self ->
  calm_signal self ->
  appendable (state_manager self) (env w) ->
  exists b self' w',
    _run_cycle self n w = (Returned b, self', w') /\
    same_wiring self self' /\
    appendable (state_manager self) (env w') /\
    run_cycle_calls (journal w') = run_cycle_calls (journal w) ++ [n] /\
    (b = true ->
     exists e, _check_completion_signal self (cycles_completed self + 1) e =
               (Returned true, e)) /\
    (handlers_return self ->
     cycles_completed self' = cycles_completed self + 1 /\
     exists e, _check_completion_signal self (cycles_completed self + 1) e =
               (Returned b, e)).
Proof.
  intros Ht Hcalm Ha. unfold _run_cycle.
  destruct (cycle_begin_journal n w) as [Bf Bj].
  destruct (cycle_begin n w) as [cyc w2]. cbn [snd] in Bf, Bj.
  assert (Ha2 : appendable (state_manager self) (env w2))
    by (eapply appendable_files; eauto).
  assert (Bc : run_cycle_calls (journal w2) = run_cycle_calls (journal w) ++ [n])
    by (rewrite Bj, run_cycle_calls_app; reflexivity).
  unfold cycle_try.
  destruct (run_phases all_phases self cyc w2) as [[[r self1] cyc1] w3] eqn:Ep.
  destruct (run_phases_tame _ _ _ _ _ _ _ _ Ht Ha2 Ep) as (Hna & Ha3 & Hc3).
  destruct (run_phases_frame _ _ _ _ _ _ _ _ Ep) as (Hw & Hcc & _ & _).
  pose proof Hw as (_ & Hsm & _ & Hsig).
  destruct r as [[]|x|x].
  - unfold after_phases. cbn [datetime_now].
    set (result := success_result _ _).
    destruct (add_cycle_result_ok (state_manager self1) result (advance (env w3)))
      as (e' & Hadd & Ha' & _).
    { rewrite Hsm. eapply appendable_files; [|exact Ha3]. reflexivity. }
    erewrite lift_returned by exact Hadd.
    cbn [_check_completion_signal with_cycles_completed cycles_completed].
    rewrite Hsig, Hcc.
    destruct (Hcalm (cycles_completed self + 1) e') as [b Hb].
    erewrite lift_returned by (cbn [env]; exact Hb).
    exists b. do 2 eexists. split; [reflexivity|].
    rewrite Hsm in Ha'.
    split; [exact Hw|]. split; [exact Ha'|].
    split; [cbn [journal]; congruence|].
    split; [intros ->; eauto|].
    intros _. split; [cbn; lia | eauto].
  - destruct (cycle_except_reports x self1 cyc1 w3)
      as (self' & w' & He & Hw' & Hcc' & Ha' & Hj & _).
    { now rewrite Hsm. }
    rewrite He. exists false, self', w'. split; [reflexivity|].
    rewrite Hsm in Ha'.
    split; [eapply same_wiring_trans; eauto|]. split; [exact Ha'|].
    split; [congruence|].
    split; [discriminate|].
    intros H. exfalso.
    destruct (run_phases_return all_phases self cyc w2 H) as (s & c & ww & Hret).
    congruence.
  - exfalso. now apply (Hna x).
Qed.

Example engine_constructed :
  __init__ Scenario.cfg Scenario.third_fails never_complete (Sample.ticking 1000) =
  (Returned (Scenario.engine Scenario.third_fails never_complete), Scenario.booted).
Proof. reflexivity. Qed.




(** *** The loop of [run] *)

Lemma lift_journal {A} (m : M A) (w : World) (r : outcome A) (w' : World) :
  lift m w = (r, w') -> journal w' = journal w.
Proof.
  unfold lift. destruct (m (env w)) as [r' e']. now intros [= _ <-].
Qed.

Lemma calm_wiring (self self' : t) :
  same_wiring self self' -> calm_signal self -> calm_signal self'.
Proof. intros (_ & _ & _ & Hs) Hc done e. rewrite Hs. apply Hc. Qed.

(** C4: with [max_iterations = 2], [run] returns false after invoking
    [_run_cycle] twice when the completion predicate is always false, and
    returns true after invoking it once when the predicate is true after
    the first completed cycle and the handlers of that cycle return.  The
    handlers are assumed tame, the startup to have gone through and the
    progress document to be one that can be extended. *)
Theorem run_stops_at_limit_or_signal (self : t) (branch : string) (w w1 : World) :
  OrchestratorConfig.max_iterations (config self) = 2 ->
  tame self ->
  lift (startup self branch) w = (Returned tt, w1) ->
  appendable (state_manager self) (env w1) ->
  (_check_completion_signal self = never_complete ->
   exists self' w',
     run self None branch w = (Returned false, self', w') /\
     run_cycle_calls (journal w') = run_cycle_calls (journal w) ++ [1; 2]) /\
  (_check_completion_signal self = complete_after (cycles_completed self + 1) ->
   handlers_return self ->
   exists self' w',
     run self None branch w = (Returned true, self', w') /\
     run_cycle_calls (journal w') = run_cycle_calls (journal w) ++ [1]).
Proof.
  intros Hmax Ht Hstart Ha.
  pose proof (lift_journal _ _ _ _ Hstart) as Hj.
  split.
  - intros Hsig.
    assert (Hcalm : calm_signal self).
    { intros done e. rewrite Hsig. eexists. reflexivity. }
    unfold run, or_config. rewrite Hmax, Hstart.
    change (seqZ 1 2) with [1; 2]. cbn [run_loop].
    destruct (run_cycle_returns self 1 w1 Ht Hcalm Ha)
      as (b1 & s1 & w2 & E1 & W1 & A1 & C1 & T1 & _).
    rewrite E1.
    destruct b1.
    { exfalso. destruct (T1 eq_refl) as [e He]. rewrite Hsig in He. discriminate He. }
    pose proof W1 as (_ & Hsm1 & _ & Hsig1).
    set (w3 := sleep _ w2).
    destruct (run_cycle_returns s1 2 w3) as (b2 & s2 & w4 & E2 & W2 & A2 & C2 & T2 & _).
    { eapply tame_wiring; eauto. }
    { eapply calm_wiring; eauto. }
    { rewrite Hsm1. exact A1. }
    rewrite E2.
    destruct b2.
    { exfalso. destruct (T2 eq_refl) as [e He]. rewrite Hsig1, Hsig in He.
      discriminate He. }
    do 2 eexists. split; [reflexivity|].
    unfold sleep, emit. cbn [journal]. rewrite run_cycle_calls_app, C2.
    subst w3. unfold sleep, emit. cbn [journal].
    rewrite run_cycle_calls_app, C1, Hj. cbn.
    rewrite !app_nil_r, <- app_assoc. reflexivity.
  - intros Hsig Hret.
    assert (Hcalm : calm_signal self).
    { intros done e. rewrite Hsig. eexists. reflexivity. }
    unfold run, or_config. rewrite Hmax, Hstart.
    change (seqZ 1 2) with [1; 2]. cbn [run_loop].
    destruct (run_cycle_returns self 1 w1 Ht Hcalm Ha)
      as (b1 & s1 & w2 & E1 & W1 & A1 & C1 & _ & T1).
    rewrite E1.
    destruct (T1 Hret) as (_ & e & He).
    rewrite Hsig in He. unfold complete_after in He.
    rewrite Z.leb_refl in He. injection He as <-.
    do 2 eexists. split; [reflexivity|].
    now rewrite C1, Hj.
Qed.

Lemma tame_all_mocked (completion : completion_signal) :
  tame (Scenario.engine Scenario.all_mocked completion).
Proof.
  intros p h results e Hp. cbn in Hp. unfold Scenario.all_mocked in Hp.
  destruct (is_COMPLETE p); [discriminate|]. injection Hp as <-.
  split; [discriminate | auto].
Qed.

Lemma all_mocked_return (completion : completion_signal) :
  handlers_return (Scenario.engine Scenario.all_mocked completion).
Proof.
  intros p Hp. exists Scenario.mock_handler. cbn. unfold Scenario.all_mocked.
  rewrite Hp. split; reflexivity.
Qed.

Lemma run_stops_at_limit_or_signal_witness :
  (exists self' w',
     run (Scenario.engine Scenario.all_mocked never_complete) None "main"
         Scenario.booted = (Returned false, self', w') /\
     run_cycle_calls (journal w') = [1; 2]) /\
  (exists self' w',
     run (Scenario.engine Scenario.all_mocked (complete_after 1)) None "main"
         Scenario.booted = (Returned true, self', w') /\
     run_cycle_calls (journal w') = [1]).
Proof.
  split.
  - edestruct (run_stops_at_limit_or_signal
                 (Scenario.engine Scenario.all_mocked never_complete) "main"
                 Scenario.booted) as [Hnever _];
      [ reflexivity | apply tame_all_mocked | vm_compute; reflexivity
      | vm_compute; exact I | ].
    exact (Hnever eq_refl).
  - edestruct (run_stops_at_limit_or_signal
                 (Scenario.engine Scenario.all_mocked (complete_after 1)) "main"
                 Scenario.booted) as [_ Hafter];
      [ reflexivity | apply tame_all_mocked | vm_compute; reflexivity
      | vm_compute; exact I | ].
    exact (Hafter eq_refl (all_mocked_return _)).
Defined.

(** When a handler of the first cycle raises, the predicate is not asked:
    the run goes on to the second cycle and returns false. *)
Example failing_handlers_never_complete :
  let '(r, _, w') :=
    run (Scenario.engine Scenario.third_fails (complete_after 0)) None "main"
        Scenario.booted in
  r = Returned false /\ run_cycle_calls (journal w') = [1; 2] /\
  handler_calls (journal w') =
    [DATA_SCAN; IDEA; CODE_EDIT; DATA_SCAN; IDEA; CODE_EDIT].
Proof. vm_compute. repeat split. Qed.

End OrchestratorProofs.

(** * Further properties of [CircuitBreaker] *)

Module CircuitBreakerMore.
Import CircuitBreaker CircuitBreakerSpec CircuitBreakerTerms.
Import CircuitBreakerProofs.

Lemma call_try_tallied {A} (k : Z) (self : t) (func : callable A)
    (w : World) r self' w' :
  1 <= k ->
  failure_threshold self = k ->
  0 <= failure_count self ->
  (state self = "CLOSED" /\ failure_count self < k \/
   state self = "HALF_OPEN" /\ k <= failure_count self /\
   last_failure_time self <> None) ->
  call_try self func w = (r, self', w') ->
  tallied k self'.
Proof.
  intros Hk Hth H0 Hst Hc. unfold tallied.
  destruct (call_try_cases _ _ _ _ _ _ Hc) as [[_ ->]|[[_ [w1 ->]]|(_ & _ & ->)]].
  - split; [exact Hth|]. split; [cbn; lia|]. left. cbn. split; [reflexivity | lia].
  - unfold _on_failure, datetime_now. cbn. rewrite Hth.
    split; [reflexivity|]. split; [lia|].
    destruct (Z.leb_spec k (failure_count self + 1)) as [Hle|Hgt].
    + right. split; [left; reflexivity|]. split; [lia | discriminate].
    + destruct Hst as [[Hs _]|(_ & Hc' & _)]; [|lia].
      left. split; [exact Hs | lia].
  - split; [exact Hth|]. split; [exact H0|].
    destruct Hst as [Hs|(Hs & Hc' & Hl)]; [left; exact Hs|].
    right. split; [right; exact Hs|]. split; assumption.
Qed.

Lemma call_tallied {A} (k : Z) (self : t) (func : callable A)
    (w : World) r self' w' :
  1 <= k ->
  tallied k self ->
  call self func w = (r, self', w') ->
  tallied k self'.
Proof.
  intros Hk (Hth & H0 & Hst) Hcall.
  unfold call in Hcall.
  destruct (String.eqb_spec (state self) "OPEN") as [Hopen|Hno].
  - destruct (_should_attempt_reset self w) as [[|] w1].
    + eapply call_try_tallied in Hcall; eauto.
      right. cbn. destruct Hst as [[Hs _]|(_ & Hc & Hl)]; [congruence|].
      split; [reflexivity|]. split; assumption.
    + injection Hcall as _ <- _. split; [exact Hth|]. split; assumption.
  - eapply call_try_tallied in Hcall; eauto.
    destruct Hst as [Hs|([Ho|Hh] & Hc & Hl)]; [left; exact Hs | contradiction |].
    right. split; [exact Hh|]. split; assumption.
Qed.

Lemma reachable_tallied (k timeout : Z) (self : t) :
  1 <= k -> reachable k timeout self -> tallied k self.
Proof.
  intros Hk. induction 1 as [|A self func w r self' w' Hreach IH Hcall].
  - split; [reflexivity|]. split; [cbn; lia|]. left. cbn. split; [reflexivity | lia].
  - eapply call_tallied; eauto.
Qed.

(** X1.  For a failure threshold k >= 1, every breaker a caller can
    produce from a fresh one by calls is CLOSED exactly when its failure
    count is below k: its state is CLOSED, OPEN or HALF_OPEN, the count is
    never negative, and a breaker that is not CLOSED has the time of a
    failure recorded. *)
Theorem state_tells_the_tally (k timeout : Z) (self : t) :
  1 <= k -> reachable k timeout self -> tally_matches_state k self.
Proof.
  intros Hk Hreach.
  destruct (reachable_tallied _ _ _ Hk Hreach) as (_ & H0 & Hst).
  split; [exact H0|].
  destruct Hst as [[Hs Hlt]|([Ho|Hh] & Hc & Hl)].
  - split; [left; exact Hs|]. split; [tauto | congruence].
  - split; [right; left; exact Ho|].
    split; [split; [rewrite Ho; discriminate | lia] | intros _; exact Hl].
  - split; [right; right; exact Hh|].
    split; [split; [rewrite Hh; discriminate | lia] | intros _; exact Hl].
Qed.

Lemma state_tells_the_tally_witness :
  let self := snd (fst (calls (__init__ 2 60) [Sample.boom; Sample.fine; Sample.boom; Sample.boom]
                          (Sample.ticking 1000))) in
  (1 <= 2 /\ reachable 2 60 self) /\
  state self = "OPEN" /\ failure_count self = 2 /\ tally_matches_state 2 self.
Proof.
  assert (Hreach : reachable 2 60
            (snd (fst (calls (__init__ 2 60)
                         [Sample.boom; Sample.fine; Sample.boom; Sample.boom]
                         (Sample.ticking 1000))))).
  { eapply calls_reachable; [apply reach_init | apply surjective_pairing_3]. }
  cbv zeta. split; [split; [lia | exact Hreach]|].
  split; [reflexivity|]. split; [reflexivity|].
  apply (state_tells_the_tally 2 60); [lia | exact Hreach].
Defined.

(** *** Failures that do not follow one another *)

Lemma call_try_outcome {A} (self : t) (func : callable A) (w : World) :
  iscoroutinefunction func = false ->
  fst (fst (call_try self func w)) = fst (body func (env w)) /\
  journal (snd (call_try self func w)) = journal w ++ [EvWork].
Proof.
  intros Hf. unfold call_try, invoke. rewrite Hf.
  destruct (body func (env w)) as [[a|x|x] e1]; cbn; split; reflexivity.
Qed.

Lemma call_try_returns {A} (self : t) (func : callable A) (w : World) :
  returns func ->
  exists a w1,
    call_try self func w = (Returned a, _on_success self, w1) /\
    journal w1 = journal w ++ [EvWork].
Proof.
  intros [Hf Hr]. unfold call_try, invoke. rewrite Hf.
  specialize (Hr (env w)).
  destruct (body func (env w)) as [[a|x|x] e1]; try discriminate.
  eexists _, _. split; reflexivity.
Qed.

Lemma reset_journal (self : t) (w : World) :
  journal (snd (_should_attempt_reset self w)) = journal w.
Proof. unfold _should_attempt_reset. now destruct (last_failure_time self). Qed.

(** A call that gets past the gate with work that returns. *)
Lemma call_returns {A} (self : t) (func : callable A) (w : World) :
  passes_gate self w ->
  returns func ->
  exists a w1,
    call self func w = (Returned a, _on_success self, w1) /\
    journal w1 = journal w ++ [EvWork].
Proof.
  intros Hgate Hr.
  destruct (String.eqb_spec (state self) "OPEN") as [Hopen|Hno].
  - destruct Hgate as [Hno|Hreset]; [contradiction|].
    rewrite (call_open_trial _ _ _ Hopen Hreset).
    destruct (call_try_returns (with_state self "HALF_OPEN") func
                (snd (_should_attempt_reset self w)) Hr) as (a & w1 & -> & Hj).
    exists a, w1. split; [reflexivity|]. now rewrite Hj, reset_journal.
  - rewrite (call_not_open _ _ _ Hno). now apply call_try_returns.
Qed.

(** Raising calls that stay below the threshold. *)
Lemma calls_raising_closed {A} (funcs : list (callable A)) :
  Forall raises funcs ->
  forall self w rs self1 w1,
    state self = "CLOSED" ->
    failure_count self + Z.of_nat (length funcs) < failure_threshold self ->
    calls self funcs w = (rs, self1, w1) ->
    state self1 = "CLOSED" /\
    failure_count self1 = failure_count self + Z.of_nat (length funcs) /\
    Forall (fun r => is_raised r = true) rs /\
    journal w1 = journal w ++ repeat EvWork (length funcs).
Proof.
  induction 1 as [|func rest Hfunc Hrest IH]; intros self w rs self1 w1 Hs Hlt Hc.
  - cbn in Hc. injection Hc as <- <- <-. cbn.
    split; [exact Hs|]. split; [lia|]. split; [constructor | now rewrite app_nil_r].
  - cbn [calls] in Hc.
    assert (Hno : state self <> "OPEN") by (rewrite Hs; discriminate).
    rewrite (call_not_open _ _ _ Hno) in Hc.
    destruct (call_try_raises self func w Hfunc) as (e & wa & _ & Hj & Htry).
    rewrite Htry in Hc.
    destruct (calls (fst (_on_failure self wa)) rest (snd (_on_failure self wa)))
      as [[rs' sb] wb] eqn:E2.
    injection Hc as <- <- <-.
    cbn [length] in Hlt. rewrite Nat2Z.inj_succ in Hlt.
    assert (Hs' : state (fst (_on_failure self wa)) = "CLOSED").
    { cbn. replace (failure_threshold self <=? failure_count self + 1) with false
        by (symmetry; apply Z.leb_gt; lia). exact Hs. }
    destruct (IH _ _ _ _ _ Hs' ltac:(cbn; lia) E2) as (H1 & H2 & H3 & H4).
    split; [exact H1|]. split; [rewrite H2; cbn [length]; cbn; lia|].
    split; [constructor; [reflexivity | exact H3]|].
    rewrite H4, on_failure_journal, Hj. cbn [length repeat].
    now rewrite <- app_assoc.
Qed.

(** X2.  Only failures in a row open the breaker: after a call whose work
    returns, fewer raising calls than the threshold leave the breaker
    CLOSED, with exactly these failures counted, whatever was counted
    before; every one of the calls has run its work. *)
Theorem success_restarts_the_count {A} (self : t) (ok : callable A)
    (funcs : list (callable A)) (w : World) rs self1 w1 :
  passes_gate self w ->
  returns ok ->
  Forall raises funcs ->
  Z.of_nat (length funcs) < failure_threshold self ->
  calls self (ok :: funcs) w = (rs, self1, w1) ->
  state self1 = "CLOSED" /\
  failure_count self1 = Z.of_nat (length funcs) /\
  journal w1 = journal w ++ repeat EvWork (S (length funcs)).
Proof.
  intros Hgate Hok Hraise Hlt Hc.
  cbn [calls] in Hc.
  destruct (call_returns self ok w Hgate Hok) as (a & wa & Hcall & Hj).
  rewrite Hcall in Hc.
  destruct (calls (_on_success self) funcs wa) as [[rs' sb] wb] eqn:E2.
  injection Hc as <- <- <-.
  destruct (calls_raising_closed funcs Hraise (_on_success self) _ _ _ _
              eq_refl ltac:(cbn; lia) E2) as (H1 & H2 & _ & H4).
  split; [exact H1|]. split; [rewrite H2; cbn; lia|].
  rewrite H4, Hj. cbn [repeat]. now rewrite <- app_assoc.
Qed.

Lemma returns_fine : returns Sample.fine.
Proof. split; [reflexivity | intros e; reflexivity]. Qed.

Lemma success_restarts_the_count_witness :
  let self := snd (fst (calls (__init__ 3 60) [Sample.boom; Sample.boom]
                          (Sample.ticking 1000))) in
  let w := Sample.at_tick 2 (Sample.ticking 1000) in
  failure_count self = 2 /\
  let '(_, self1, _) := calls self [Sample.fine; Sample.boom; Sample.boom] w in
  state self1 = "CLOSED" /\ failure_count self1 = 2.
Proof.
  intros self w. split; [reflexivity|].
  destruct (calls self [Sample.fine; Sample.boom; Sample.boom] w)
    as [[rs self1] w1] eqn:E.
  assert (Hgate : passes_gate self w) by (left; vm_compute; discriminate).
  assert (Hraise : Forall raises [Sample.boom; Sample.boom])
    by (repeat constructor; apply raises_boom).
  assert (Hlt : Z.of_nat (length [Sample.boom; Sample.boom]) < failure_threshold self)
    by (vm_compute; reflexivity).
  destruct (success_restarts_the_count self Sample.fine [Sample.boom; Sample.boom] w
              rs self1 w1 Hgate returns_fine Hraise Hlt E) as (H1 & H2 & _).
  split; [exact H1 | exact H2].
Defined.

(** *** A trial that fails *)

(** X3.  A trial call that fails starts the recovery timeout afresh: when
    an OPEN breaker, its timeout elapsed, runs work that raises, it is OPEN
    again with one more failure counted and with the clock reading taken
    after the work as the time of the last failure; calls made before the
    timeout has elapsed since that reading are refused. *)
Theorem failed_trial_restarts_the_timer {A} (k timeout : Z) (self : t)
    (func : callable A) (w : World) (t0 : datetime) :
  reachable k timeout self ->
  state self = "OPEN" ->
  last_failure_time self = Some t0 ->
  (inject_Z timeout <= elapsed_since t0 w)%Q ->
  raises func ->
  exists x self' w' t1,
    call self func w = (Raised x, self', w') /\
    t1 = reading (env (snd (invoke func (snd (datetime_now w))))) /\
    state self' = "OPEN" /\
    failure_count self' = failure_count self + 1 /\
    last_failure_time self' = Some t1 /\
    forall (B : Type) (func2 : callable B) (w2 : World),
      (elapsed_since t1 w2 < inject_Z timeout)%Q -> fails_fast self' func2 w2.
Proof.
  intros Hreach Hopen Hlast Hel Hraise.
  destruct (reachable_consistent _ _ _ Hreach) as (Hk & Ht & Hst).
  destruct Hst as [Hs|(_ & Hc & _)]; [congruence|].
  assert (Hreset : _should_attempt_reset self w = (true, snd (datetime_now w))).
  { rewrite (reset_after_failure _ _ _ Hlast). f_equal.
    rewrite Ht. apply Qle_bool_iff. exact Hel. }
  rewrite (call_open_trial self func w Hopen) by now rewrite Hreset.
  rewrite Hreset. cbn [snd].
  destruct (call_try_raises (with_state self "HALF_OPEN") func (snd (datetime_now w)) Hraise)
    as (x & w1 & Hinv & _ & Htry).
  rewrite Htry, Hinv. cbn [snd].
  eexists x, _, _, _. split; [reflexivity|]. split; [reflexivity|].
  assert (Hstate : state (fst (_on_failure (with_state self "HALF_OPEN") w1)) = "OPEN").
  { cbn. now replace (failure_threshold self <=? failure_count self + 1) with true
      by (symmetry; apply Z.leb_le; lia). }
  split; [exact Hstate|]. split; [reflexivity|]. split; [reflexivity|].
  intros B func2 w2 Hpending.
  eapply fails_fast_pending; [exact Hstate | reflexivity |].
  cbn. rewrite Ht. exact Hpending.
Qed.

Lemma failed_trial_restarts_the_timer_witness :
  let self := snd (fst (calls (__init__ 2 1) [Sample.boom; Sample.boom]
                          (Sample.ticking 1000))) in
  let late := Sample.at_tick 4000 (Sample.ticking 1000) in
  exists self' w',
    call self Sample.boom late =
      (Raised (Exn "ZeroDivisionError" "division by zero"), self', w') /\
    state self' = "OPEN" /\
    failure_count self' = 3 /\
    last_failure_time self' = Some 4001000 /\
    fails_fast self' Sample.fine (Sample.at_tick 4500 (Sample.ticking 1000)).
Proof.
  cbv zeta.
  assert (Hreach : reachable 2 1
            (snd (fst (calls (__init__ 2 1) [Sample.boom; Sample.boom]
                         (Sample.ticking 1000))))).
  { eapply calls_reachable; [apply reach_init | apply surjective_pairing_3]. }
  destruct (failed_trial_restarts_the_timer 2 1 _ Sample.boom
              (Sample.at_tick 4000 (Sample.ticking 1000)) 1000
              Hreach eq_refl eq_refl ltac:(vm_compute; discriminate) raises_boom)
    as (x & self' & w' & t1 & Hcall & Ht1 & Hs & Hc & Hl & Hff).
  exists self', w'.
  assert (Hx : x = Exn "ZeroDivisionError" "division by zero").
  { vm_compute in Hcall. now injection Hcall as <- _ _. }
  assert (Ht : t1 = 4001000) by (rewrite Ht1; reflexivity).
  subst x t1.
  split; [exact Hcall|]. split; [exact Hs|]. split; [exact Hc|]. split; [exact Hl|].
  apply Hff. vm_compute. reflexivity.
Defined.

(** *** Work that is interrupted *)

(** X4.  Work that ends in a [BaseException] outside [Exception] (an
    interrupt, a cancellation) is booked neither as a success nor as a
    failure: count and time of the last failure stay as they were.  When
    the interrupted call was the trial of an OPEN breaker, the breaker is
    left HALF_OPEN, and in that state it runs the work of whatever plain
    function it is called with next, at any reading of the clock. *)
Theorem interrupted_work_is_not_booked {A} (self : t) (func : callable A) (w : World) :
  aborts func ->
  passes_gate self w ->
  exists x self' w',
    call self func w = (Aborted x, self', w') /\
    failure_count self' = failure_count self /\
    last_failure_time self' = last_failure_time self /\
    state self' = (if (state self =? "OPEN")%string then "HALF_OPEN" else state self) /\
    (state self = "OPEN" ->
     forall (B : Type) (func2 : callable B) (w2 : World),
       iscoroutinefunction func2 = false -> runs_work self' func2 w2).
Proof.
  intros [Hf Hab] Hgate.
  assert (Htry : forall s w0, exists x w1,
             call_try s func w0 = (Aborted x, s, w1)).
  { intros s w0. unfold call_try, invoke. rewrite Hf.
    destruct (Hab (env w0)) as [x Hx].
    destruct (body func (env w0)) as [r e1]. cbn in Hx. subst r.
    eexists _, _. reflexivity. }
  destruct (String.eqb_spec (state self) "OPEN") as [Hopen|Hno].
  - destruct Hgate as [Hno|Hreset]; [contradiction|].
    rewrite (call_open_trial _ _ _ Hopen Hreset).
    destruct (Htry (with_state self "HALF_OPEN") (snd (_should_attempt_reset self w)))
      as (x & w1 & ->).
    exists x, (with_state self "HALF_OPEN"), w1.
    split; [reflexivity|]. split; [reflexivity|]. split; [reflexivity|].
    split; [reflexivity|].
    intros _ B func2 w2 Hplain. unfold runs_work.
    rewrite call_not_open by (cbn; discriminate).
    now apply call_try_outcome.
  - rewrite (call_not_open _ _ _ Hno).
    destruct (Htry self w) as (x & w1 & ->).
    exists x, self, w1.
    split; [reflexivity|]. split; [reflexivity|]. split; [reflexivity|].
    split; [reflexivity | contradiction].
Qed.

Lemma aborts_interrupted : aborts MoreSamples.interrupted.
Proof. split; [reflexivity | intros e; eexists; reflexivity]. Qed.

Lemma interrupted_work_is_not_booked_witness :
  let self := snd (fst (calls (__init__ 2 1) [Sample.boom; Sample.boom]
                          (Sample.ticking 1000))) in
  let late := Sample.at_tick 5000 (Sample.ticking 1000) in
  (state self = "OPEN" /\ passes_gate self late) /\
  exists x self' w',
    call self MoreSamples.interrupted late = (Aborted x, self', w') /\
    state self' = "HALF_OPEN" /\ failure_count self' = 2 /\
    runs_work self' Sample.fine (Sample.ticking 1000).
Proof.
  cbv zeta.
  assert (Hgate : passes_gate
            (snd (fst (calls (__init__ 2 1) [Sample.boom; Sample.boom]
                         (Sample.ticking 1000))))
            (Sample.at_tick 5000 (Sample.ticking 1000))).
  { right. vm_compute. reflexivity. }
  split; [split; [reflexivity | exact Hgate]|].
  destruct (interrupted_work_is_not_booked _ MoreSamples.interrupted _
              aborts_interrupted Hgate)
    as (x & self' & w' & Hcall & Hc & _ & Hs & Hnext).
  exists x, self', w'.
  split; [exact Hcall|]. split; [exact Hs|]. split; [exact Hc|].
  apply Hnext; reflexivity.
Defined.

End CircuitBreakerMore.

(** * Further properties of [RateLimiter] *)

Module RateLimiterMore.
Import RateLimiter RateLimiterSpec RateLimiterTerms.
Import RateLimiterProofs.

(** *** A burst within the limits *)

Lemma acquire_with_tokens (self : t) (w : World) :
  within_limits self ->
  (1 <= minute_bucket self)%Q ->
  (1 <= hour_bucket self)%Q ->
  journal (snd (acquire self w)) = journal w /\
  within_limits (fst (acquire self w)) /\
  (minute_bucket self - 1 <= minute_bucket (fst (acquire self w)))%Q /\
  (hour_bucket self - 1 <= hour_bucket (fst (acquire self w)))%Q.
Proof.
  intros Hin Hm Hh.
  destruct (refill_within self w Hin) as (_ & Gm & Gh).
  pose proof (acquire_within self w Hin) as (Hin' & _).
  pose proof (acquire_no_wait self w) as Hacq. cbv zeta in Hacq.
  rewrite Hacq in * by lra. clear Hacq.
  split; [cbn; apply refill_journal|].
  split; [exact Hin'|].
  split.
  - change (minute_bucket self - 1 <=
            py_max 0 (minute_bucket (fst (_refill_buckets self w)) - 1))%Q.
    eapply Qle_trans; [|apply py_max_ge_r]. lra.
  - change (hour_bucket self - 1 <=
            py_max 0 (hour_bucket (fst (_refill_buckets self w)) - 1))%Q.
    eapply Qle_trans; [|apply py_max_ge_r]. lra.
Qed.

Lemma acquires_with_tokens (n : nat) :
  forall self w,
    within_limits self ->
    (inject_Z (Z.of_nat n) <= minute_bucket self)%Q ->
    (inject_Z (Z.of_nat n) <= hour_bucket self)%Q ->
    journal (snd (steps (repeat Acquire n) self w)) = journal w /\
    (minute_bucket self - inject_Z (Z.of_nat n)
     <= minute_bucket (fst (steps (repeat Acquire n) self w)))%Q /\
    (hour_bucket self - inject_Z (Z.of_nat n)
     <= hour_bucket (fst (steps (repeat Acquire n) self w)))%Q.
Proof.
  induction n as [|n IH]; intros self w Hin Hm Hh.
  - change (inject_Z (Z.of_nat 0)) with 0%Q.
    cbn [repeat steps fst snd]. split; [reflexivity|]. split; lra.
  - rewrite Nat2Z.inj_succ, <- Z.add_1_r, inject_Z_plus in Hm, Hh |- *.
    cbn [repeat steps step].
    pose proof (Qle_refl (inject_Z (Z.of_nat n))) as Hn0.
    assert (H0 : (0 <= inject_Z (Z.of_nat n))%Q).
    { change 0%Q with (inject_Z 0). rewrite <- Zle_Qle. lia. }
    change (inject_Z 1) with 1%Q in *.
    destruct (acquire_with_tokens self w Hin ltac:(lra) ltac:(lra))
      as (Hj & Hin' & Gm & Gh).
    destruct (acquire self w) as [self1 w1]. cbn [fst snd] in *.
    destruct (IH self1 w1 Hin' ltac:(lra) ltac:(lra)) as (Hj' & Gm' & Gh').
    split; [congruence|]. split; lra.
Qed.

(** X5.  A burst within the limits is not delayed: on a fresh limiter, the
    first n calls of [acquire], for n up to both limits, do not suspend,
    whatever the clock reads; they leave at least [limit - n] tokens in
    each bucket. *)
Theorem burst_is_not_delayed (rpm rph : Z) (n : nat) (w : World) :
  Z.of_nat n <= rpm ->
  Z.of_nat n <= rph ->
  journal (snd (after_acquires rpm rph n w)) = journal w /\
  (inject_Z rpm - inject_Z (Z.of_nat n)
   <= minute_bucket (fst (after_acquires rpm rph n w)))%Q /\
  (inject_Z rph - inject_Z (Z.of_nat n)
   <= hour_bucket (fst (after_acquires rpm rph n w)))%Q.
Proof.
  intros Hm Hh. unfold after_acquires, __init__. cbn.
  rewrite Zle_Qle in Hm, Hh.
  assert (H0 : (0 <= inject_Z (Z.of_nat n))%Q).
  { change 0%Q with (inject_Z 0). rewrite <- Zle_Qle. lia. }
  match goal with
  | |- context [steps _ ?s ?w0] =>
      destruct (acquires_with_tokens n s w0) as (Hj & Gm & Gh)
  end.
  - unfold within_limits. cbn. repeat split; lra.
  - exact Hm.
  - exact Hh.
  - split; [exact Hj|]. split; [exact Gm | exact Gh].
Qed.

Lemma burst_is_not_delayed_witness :
  (Z.of_nat 5 <= 5 /\ Z.of_nat 5 <= 100) /\
  journal (snd (after_acquires 5 100 5 (Sample.ticking 1000))) = [] /\
  (0 <= minute_bucket (fst (after_acquires 5 100 5 (Sample.ticking 1000))))%Q.
Proof.
  split; [split; cbn; lia|].
  destruct (burst_is_not_delayed 5 100 5 (Sample.ticking 1000)
              ltac:(cbn; lia) ltac:(cbn; lia)) as (Hj & Gm & _).
  split; [exact Hj|].
  eapply Qle_trans; [|exact Gm]. vm_compute. discriminate.
Defined.

(** *** Refills *)

Lemma total_seconds_seconds (n : Z) : total_seconds (seconds n) == inject_Z n.
Proof. unfold total_seconds, seconds, inject_Z, Qeq. cbn. lia. Qed.

Lemma window_share (elapsed window : Q) (limit : Z) (bucket : Q) :
  (0 < window)%Q -> (window <= elapsed)%Q -> 0 <= limit -> (0 <= bucket)%Q ->
  py_min (inject_Z limit) (bucket + elapsed / window * inject_Z limit) =
  inject_Z limit.
Proof.
  intros Hw He Hl Hb. unfold py_min.
  replace (Qltb (bucket + elapsed / window * inject_Z limit) (inject_Z limit))
    with false; [reflexivity|].
  symmetry. apply Qltb_ge.
  assert (H1 : (1 <= elapsed / window)%Q).
  { apply Qle_shift_div_l; [exact Hw | lra]. }
  assert (H2 : (0 <= inject_Z limit)%Q).
  { change 0%Q with (inject_Z 0). now rewrite <- Zle_Qle. }
  generalize dependent (elapsed / window)%Q. intros x Hx.
  generalize dependent (inject_Z limit). intros l Hl'. nra.
Qed.

(** X6.  A refill after a full window fills the bucket: at least 60
    seconds after the last refill the minute bucket is back at its limit,
    at least 3600 seconds after it both buckets are.  A refill at a clock
    reading that is not later than the last refill changes nothing. *)
Theorem full_window_refills (self : t) (w : World) :
  within_limits self ->
  (seconds 60 <= reading (env w) - last_refill self ->
   minute_bucket (fst (_refill_buckets self w)) = inject_Z (rpm_limit self) /\
   last_refill (fst (_refill_buckets self w)) = reading (env w)) /\
  (seconds 3600 <= reading (env w) - last_refill self ->
   minute_bucket (fst (_refill_buckets self w)) = inject_Z (rpm_limit self) /\
   hour_bucket (fst (_refill_buckets self w)) = inject_Z (rph_limit self)) /\
  (reading (env w) <= last_refill self -> fst (_refill_buckets self w) = self).
Proof.
  intros (Hm0 & Hm1 & Hh0 & Hh1).
  pose proof (limit_nonneg _ _ Hm0 Hm1) as Lm.
  pose proof (limit_nonneg _ _ Hh0 Hh1) as Lh.
  assert (Hpos : forall n, 0 < n -> seconds n <= reading (env w) - last_refill self ->
            (inject_Z n <= total_seconds (reading (env w) - last_refill self)%Z)%Q /\
            Qltb 0 (total_seconds (reading (env w) - last_refill self)) = true).
  { intros n Hn Hle. apply total_seconds_le in Hle.
    rewrite total_seconds_seconds in Hle. split; [exact Hle|].
    apply Qltb_lt. eapply Qlt_le_trans; [|exact Hle].
    change 0%Q with (inject_Z 0). rewrite <- Zlt_Qlt. exact Hn. }
  unfold _refill_buckets. cbn [datetime_now fst snd env].
  split; [|split].
  - intros Hle. destruct (Hpos 60 ltac:(lia) Hle) as [He ->]. cbn [fst minute_bucket last_refill].
    split; [|reflexivity].
    apply window_share; [lra | exact He | exact Lm | exact Hm0].
  - intros Hle. destruct (Hpos 3600 ltac:(lia) Hle) as [He ->]. cbn [fst minute_bucket hour_bucket].
    split.
    + apply window_share; [lra | | exact Lm | exact Hm0].
      eapply Qle_trans; [|exact He]. vm_compute. discriminate.
    + apply window_share; [lra | exact He | exact Lh | exact Hh0].
  - intros Hle.
    replace (Qltb 0 (total_seconds (reading (env w) - last_refill self))) with false;
      [reflexivity|].
    symmetry. apply Qltb_ge.
    assert (H : reading (env w) - last_refill self <= 0) by lia.
    apply total_seconds_le in H.
    eapply Qle_trans; [exact H|]. vm_compute. discriminate.
Qed.

Lemma full_window_refills_witness :
  let self := fst (after_acquires 5 100 5 (Sample.ticking 1000)) in
  let later := Sample.at_tick 100 (Sample.ticking 1000000) in
  within_limits self /\
  (minute_bucket self < 1)%Q /\
  minute_bucket (fst (_refill_buckets self later)) = 5%Q.
Proof.
  intros self later.
  assert (Hin : within_limits self) by (vm_compute; repeat split; discriminate).
  split; [exact Hin|]. split; [vm_compute; reflexivity|].
  destruct (full_window_refills self later Hin) as (Hminute & _ & _).
  destruct Hminute as [Hm _]; [vm_compute; discriminate | exact Hm].
Defined.

(** *** How long a call blocks *)

Lemma refill_env (self : t) (w : World) :
  env (snd (_refill_buckets self w)) = advance (env w).
Proof. unfold _refill_buckets. cbn. now destruct (Qltb 0 _). Qed.

Lemma refill_last (self : t) (w : World) :
  last_refill self <= reading (env w) ->
  last_refill (fst (_refill_buckets self w)) <= reading (env w).
Proof.
  intros H. unfold _refill_buckets. cbn.
  destruct (Qltb 0 _); cbn; [lia | exact H].
Qed.

Lemma token_wait_journal (self : t) (w : World) :
  journal (snd (token_wait self w)) = journal w.
Proof.
  unfold token_wait.
  now destruct (Qltb (minute_bucket self) 1); destruct (Qltb (hour_bucket self) 1).
Qed.

Lemma remainder_bound (window : Z) (t0 t : datetime) :
  t0 <= t -> (inject_Z window - total_seconds (t - t0)%Z <= inject_Z window)%Q.
Proof.
  intros H. assert (H' : 0 <= t - t0) by lia.
  apply total_seconds_le in H'. change (total_seconds 0) with (0 # 1000000)%Q in H'.
  assert (Hz : (0 # 1000000 == 0)%Q) by reflexivity. lra.
Qed.

Lemma token_wait_bound (self : t) (w : World) :
  steady w ->
  last_refill self <= reading (env w) ->
  (fst (token_wait self w) <= 3600)%Q /\
  ((1 <= hour_bucket self)%Q -> (fst (token_wait self w) <= 60)%Q).
Proof.
  intros Hsteady Hlast.
  assert (Hnext : last_refill self <= reading (advance (env w))).
  { unfold reading in *. cbn. etransitivity; [exact Hlast|]. apply Hsteady. lia. }
  pose proof (remainder_bound 60 _ _ Hlast) as A1.
  pose proof (remainder_bound 3600 _ _ Hlast) as A2.
  pose proof (remainder_bound 3600 _ _ Hnext) as A3.
  change (inject_Z 60) with 60%Q in *. change (inject_Z 3600) with 3600%Q in *.
  unfold token_wait.
  destruct (Qltb (minute_bucket self) 1);
    destruct (Qltb (hour_bucket self) 1) eqn:Eh; cbn [datetime_now fst snd env].
  - split.
    + apply py_max_lub; [apply py_max_lub; lra | exact A3].
    + intros H. apply Qltb_lt in Eh. lra.
  - split; [apply py_max_lub; lra | intros _; apply py_max_lub; lra].
  - split.
    + apply py_max_lub; [lra | exact A2].
    + intros H. apply Qltb_lt in Eh. lra.
  - split; [lra | intros _; lra].
Qed.

Lemma computed_wait_bound (self : t) (w : World) :
  steady w ->
  last_refill self <= reading (env w) ->
  (0 <= fst (computed_wait self w))%Q /\
  (fst (computed_wait self w) <= 7200)%Q /\
  ((1 <= hour_bucket self)%Q -> (fst (computed_wait self w) <= 120)%Q).
Proof.
  intros Hsteady Hlast.
  destruct (token_wait_bound self w Hsteady Hlast) as [B1 B2].
  pose proof (token_wait_nonneg self w) as B0.
  unfold computed_wait.
  destruct (token_wait self w) as [wait_time w1]. cbn [fst] in *.
  destruct (backoff_cases self) as [-> | ->].
  - split; [lra|]. split; [lra|]. intros H. specialize (B2 H). lra.
  - split; [lra|]. split; [lra|]. intros H. specialize (B2 H). lra.
Qed.

(** The journal and the result of [acquire], by its stages. *)
Lemma acquire_stages (self : t) (w : World) :
  let self1 := fst (_refill_buckets self w) in
  let w1 := snd (_refill_buckets self w) in
  let self2 := fst (_clean_old_requests self1 w1) in
  let w2 := snd (_clean_old_requests self1 w1) in
  let wait_time := fst (computed_wait self2 w2) in
  let w3 := snd (computed_wait self2 w2) in
  let self3 :=
    if Qltb 0 wait_time then fst (_refill_buckets self2 (sleep wait_time w3))
    else self2 in
  journal (snd (acquire self w)) =
    journal w ++
    map EvSleep
      ((if Qltb 0 wait_time then [wait_time] else []) ++
       (if Qltb (minute_bucket self3) 1 || Qltb (hour_bucket self3) 1
        then [1%Q] else [])) /\
  exists stamp, fst (acquire self w) = consume self3 stamp.
Proof.
  intros self1 w1 self2 w2 wait_time w3 self3.
  assert (Hj3 : journal w3 = journal w).
  { subst w3. unfold computed_wait.
    pose proof (token_wait_journal self2 w2) as H.
    destruct (token_wait self2 w2) as [q w']. cbn [snd] in *.
    rewrite H. subst w2 w1. cbn. apply refill_journal. }
  unfold acquire.
  rewrite (surjective_pairing (_refill_buckets self w)). fold self1 w1.
  rewrite (surjective_pairing (_clean_old_requests self1 w1)). fold self2 w2.
  rewrite (surjective_pairing (computed_wait self2 w2)). fold wait_time w3.
  subst self3.
  destruct (Qltb 0 wait_time).
  - pose proof (refill_journal self2 (sleep wait_time w3)) as Hj4.
    destruct (_refill_buckets self2 (sleep wait_time w3)) as [self3 w4].
    cbn [fst snd] in *.
    destruct (Qltb (minute_bucket self3) 1 || Qltb (hour_bucket self3) 1).
    + split; [|eexists; reflexivity].
      cbn. rewrite Hj4. cbn. rewrite Hj3. now rewrite <- app_assoc.
    + split; [|eexists; reflexivity].
      cbn. rewrite Hj4. cbn. now rewrite Hj3.
  - destruct (Qltb (minute_bucket self2) 1 || Qltb (hour_bucket self2) 1).
    + split; [|eexists; reflexivity]. cbn. now rewrite Hj3.
    + split; [|eexists; reflexivity]. cbn. now rewrite Hj3, app_nil_r.
Qed.

(** X7.  A call of [acquire] blocks for a bounded time: when the clock
    does not run backwards and the last refill is not in the future, the
    call suspends at most twice, for a positive time each, and for no more
    than 7201 seconds in all; no more than 121 seconds when the hour
    bucket holds a token. *)
Theorem acquire_blocks_briefly (self : t) (w : World) :
  steady w ->
  last_refill self <= reading (env w) ->
  exists waits,
    suspended waits w (snd (acquire self w)) /\
    (length waits <= 2)%nat /\
    Forall (fun q => (0 < q)%Q) waits /\
    (total waits <= 7201)%Q /\
    (within_limits self -> (1 <= hour_bucket self)%Q -> (total waits <= 121)%Q).
Proof.
  intros Hsteady Hlast.
  destruct (acquire_stages self w) as [Hj _]. cbv zeta in Hj.
  set (self1 := fst (_refill_buckets self w)) in *.
  set (w1 := snd (_refill_buckets self w)) in *.
  set (self2 := fst (_clean_old_requests self1 w1)) in *.
  set (w2 := snd (_clean_old_requests self1 w1)) in *.
  assert (Henv2 : env w2 = advance (advance (env w))).
  { pose proof (clean_facts self1 w1) as (_ & _ & _ & He & _).
    subst w2. rewrite He. subst w1. now rewrite refill_env. }
  assert (Hsteady2 : steady w2).
  { unfold steady. rewrite Henv2. exact Hsteady. }
  assert (Hlast2 : last_refill self2 <= reading (env w2)).
  { change (last_refill self2) with (last_refill self1).
    etransitivity; [apply refill_last; exact Hlast|].
    rewrite Henv2. unfold reading. cbn. apply Hsteady. lia. }
  destruct (computed_wait_bound self2 w2 Hsteady2 Hlast2) as (B0 & B1 & B2).
  set (wait_time := fst (computed_wait self2 w2)) in *.
  assert (Hhour : within_limits self -> (1 <= hour_bucket self)%Q ->
                  (wait_time <= 120)%Q).
  { intros Hin Hh. apply B2.
    change (hour_bucket self2) with (hour_bucket self1).
    destruct (refill_within self w Hin) as (_ & _ & Gh). subst self1. lra. }
  eexists. split; [exact Hj|].
  destruct (Qltb 0 wait_time) eqn:Ew;
    match goal with
    | |- context [if ?c then [1%Q] else []] => destruct c
    end; cbn [app length total fold_right].
  - apply Qltb_lt in Ew.
    split; [lia|].
    split; [constructor; [exact Ew | constructor; [reflexivity | constructor]]|].
    split; [lra|]. intros Hin Hh. specialize (Hhour Hin Hh). lra.
  - apply Qltb_lt in Ew.
    split; [lia|]. split; [constructor; [exact Ew | constructor]|].
    split; [lra|]. intros Hin Hh. specialize (Hhour Hin Hh). lra.
  - split; [lia|]. split; [constructor; [reflexivity | constructor]|].
    split; [lra|]. intros _ _. lra.
  - split; [lia|]. split; [constructor|].
    split; [lra|]. intros _ _. lra.
Qed.

Lemma steady_ticking (step : Z) (n : nat) :
  0 <= step -> steady (Sample.at_tick n (Sample.ticking step)).
Proof. intros H i j Hij. cbn. nia. Qed.

Lemma acquire_blocks_briefly_witness :
  let self := fst (after_acquires 5 100 5 (Sample.ticking 1000)) in
  let w := snd (after_acquires 5 100 5 (Sample.ticking 1000)) in
  exists waits,
    suspended waits w (snd (acquire self w)) /\
    waits <> [] /\
    (total waits <= 121)%Q.
Proof.
  intros self w.
  assert (Hsteady : steady w) by (apply (steady_ticking 1000 16); lia).
  assert (Hlast : last_refill self <= reading (env w)) by (vm_compute; discriminate).
  destruct (acquire_blocks_briefly self w Hsteady Hlast)
    as (waits & Hs & _ & _ & _ & Hb).
  exists waits. split; [exact Hs|]. split.
  - intros ->. unfold suspended in Hs. vm_compute in Hs. discriminate.
  - apply Hb; [vm_compute; repeat split; discriminate | vm_compute; discriminate].
Defined.

(** *** A limit of zero *)

(** X8.  A limit of zero does not stop requests: with
    [requests_per_minute] or [requests_per_hour] at 0, every call of
    [acquire] ends its suspensions with the one-second pause and then
    grants the request all the same, recording its time. *)
Theorem zero_limit_still_grants (self : t) (w : World) :
  within_limits self ->
  rpm_limit self = 0 \/ rph_limit self = 0 ->
  exists waits kept stamp,
    suspended (waits ++ [1%Q]) w (snd (acquire self w)) /\
    request_times (fst (acquire self w)) = kept ++ [stamp].
Proof.
  intros Hin Hzero.
  destruct (acquire_stages self w) as [Hj [stamp Hres]]. cbv zeta in Hj, Hres.
  set (self1 := fst (_refill_buckets self w)) in *.
  set (w1 := snd (_refill_buckets self w)) in *.
  set (self2 := fst (_clean_old_requests self1 w1)) in *.
  set (w2 := snd (_clean_old_requests self1 w1)) in *.
  set (wait_time := fst (computed_wait self2 w2)) in *.
  set (w3 := snd (computed_wait self2 w2)) in *.
  set (self3 := if Qltb 0 wait_time
                then fst (_refill_buckets self2 (sleep wait_time w3))
                else self2) in *.
  assert (Hin1 : within_limits self1) by (apply refill_within; exact Hin).
  assert (Hin2 : within_limits self2) by exact Hin1.
  assert (Hl2 : rpm_limit self2 = rpm_limit self /\ rph_limit self2 = rph_limit self)
    by (apply (refill_limits self w)).
  assert (Hin3 : within_limits self3 /\ rpm_limit self3 = rpm_limit self /\
                 rph_limit self3 = rph_limit self).
  { subst self3. destruct (Qltb 0 wait_time).
    - split; [apply refill_within; exact Hin2|].
      destruct (refill_limits self2 (sleep wait_time w3)) as [-> ->]. exact Hl2.
    - split; [exact Hin2 | exact Hl2]. }
  destruct Hin3 as ((_ & Hm1 & _ & Hh1) & Lm & Lh).
  assert (Hshort : Qltb (minute_bucket self3) 1 || Qltb (hour_bucket self3) 1 = true).
  { apply orb_true_iff. destruct Hzero as [Hz|Hz].
    - left. apply Qltb_lt. rewrite Lm, Hz in Hm1. change (inject_Z 0) with 0%Q in Hm1. lra.
    - right. apply Qltb_lt. rewrite Lh, Hz in Hh1. change (inject_Z 0) with 0%Q in Hh1. lra. }
  rewrite Hshort in Hj.
  exists (if Qltb 0 wait_time then [wait_time] else []),
         (request_times self3), stamp.
  split; [exact Hj|]. now rewrite Hres.
Qed.

Lemma zero_limit_still_grants_witness :
  let self := fst (RateLimiter.__init__ 0 100 (Sample.ticking 1000000)) in
  let w := snd (RateLimiter.__init__ 0 100 (Sample.ticking 1000000)) in
  (within_limits self /\ rpm_limit self = 0) /\
  exists waits kept stamp,
    suspended (waits ++ [1%Q]) w (snd (acquire self w)) /\
    request_times (fst (acquire self w)) = kept ++ [stamp].
Proof.
  intros self w.
  assert (Hin : within_limits self) by (vm_compute; repeat split; discriminate).
  split; [split; [exact Hin | reflexivity]|].
  apply (zero_limit_still_grants self w Hin). left. reflexivity.
Defined.

End RateLimiterMore.

(** * Further properties of [StateManager] *)

Module StateManagerMore.
Import StateManager StateManagerSpec StateManagerTerms.
Import StateManagerProofs.

(** *** Round trips *)

(** X9.  The branch marker reads back what was written: after
    [set_current_branch b], whatever the marker file held before,
    [get_current_branch] returns [b], and [should_archive] answers true
    for exactly the branches other than [b]. *)
Theorem branch_round_trip (self : t) (b : string) (e : Env) :
  exists e',
    set_current_branch self b e = (Returned tt, e') /\
    get_current_branch self e' = (Returned (JStr b), e') /\
    forall b', should_archive self b' e' = (Returned (negb (b =? b')%string), e').
Proof.
  destruct (set_current_branch_records self b e) as (e' & Hset & Hrec).
  exists e'. split; [exact Hset|]. split.
  - rewrite get_current_branch_reads, Hrec. reflexivity.
  - intros b'. rewrite should_archive_reads, Hrec. reflexivity.
Qed.

Lemma load_progress_doc (self : t) (e : Env) :
  load_progress self e =
  match stored_document self e with
  | Some v => (Returned v, e)
  | None => (Returned (empty_progress (reading e)), advance e)
  end.
Proof.
  destruct (load_progress_returns self e) as (doc & e' & -> & H).
  unfold stored_document.
  destruct (files e !! progress_file self) as [[[v|s]|]|];
    destruct H as [-> ->]; reflexivity.
Qed.

(** X10.  The progress document reads back what was saved:
    [load_progress] after [save_progress v] returns [v] without reading
    the clock, whatever the file held before, and the save touches no
    other file. *)
Theorem progress_round_trip (self : t) (v : json) (e : Env) :
  exists e',
    save_progress self v e = (Returned tt, e') /\
    load_progress self e' = (Returned v, e') /\
    forall p, p <> progress_file self -> files e' !! p = files e !! p.
Proof.
  unfold save_progress, write_text, json_dumps.
  eexists. split; [reflexivity|]. split.
  - rewrite load_progress_doc. unfold stored_document. cbn.
    now rewrite lookup_insert_eq.
  - intros p Hp. cbn. now rewrite lookup_insert_ne.
Qed.

(** *** Patterns *)

Lemma dict_get_set_other (k k' : string) (v : json) (d : list (string * json)) :
  k <> k' -> dict_get k (dict_set k' v d) = dict_get k d.
Proof.
  intros Hne. induction d as [|[k0 v0] d IH]; cbn.
  - destruct (String.eqb_spec k' k); [congruence | reflexivity].
  - destruct (String.eqb_spec k0 k') as [->|Hne0]; cbn.
    + destruct (String.eqb_spec k' k); [congruence | reflexivity].
    + destruct (String.eqb_spec k0 k); [reflexivity | exact IH].
Qed.

Lemma stored_document_files (self : t) (e e' : Env) :
  files e' = files e -> stored_document self e' = stored_document self e.
Proof. unfold stored_document. now intros ->. Qed.

Lemma stored_document_holding (self : t) (v : json) (e : Env) :
  stored_document self (holding self v e) = Some v.
Proof. unfold stored_document, holding. cbn. now rewrite lookup_insert_eq. Qed.

Lemma persisted_cycles_doc (self : t) (e : Env) :
  persisted_cycles self e =
  match stored_document self e with
  | Some (JDict d) =>
      match dict_get "cycles" d with Some (JList l) => l | _ => [] end
  | _ => []
  end.
Proof.
  unfold persisted_cycles, stored_document.
  now destruct (files e !! progress_file self) as [[[v|s]|]|].
Qed.

Lemma appendable_doc (self : t) (e : Env) :
  appendable self e <->
  match stored_document self e with
  | Some (JDict d) =>
      match dict_get "cycles" d with
      | Some (JList _) | None => True
      | Some _ => False
      end
  | Some _ => False
  | None => True
  end.
Proof.
  unfold appendable, stored_document.
  destruct (files e !! progress_file self) as [[[v|s]|]|]; tauto.
Qed.

(** [add_pattern] on a document whose patterns are a list, or missing. *)
Lemma add_pattern_on_list (self : t) (p : string) (d : list (string * json))
    (e e1 : Env) :
  load_progress self e = (Returned (JDict d), e1) ->
  match dict_get "patterns" d with
  | Some (JList _) | None => True
  | Some _ => False
  end ->
  let l := match dict_get "patterns" d with Some (JList l) => l | _ => [] end in
  exists d',
    add_pattern self p e =
      (if existsb (is_str p) l then (Returned tt, e1)
       else (Returned tt, holding self (JDict d') e1)) /\
    dict_get "patterns" d' = Some (JList (l ++ [JStr p])) /\
    forall k, k <> "patterns" -> dict_get k d' = dict_get k d.
Proof.
  intros Hload Hshape l. unfold add_pattern, bind. rewrite Hload.
  destruct (dict_get "patterns" d) as [v|] eqn:E.
  - destruct v; try contradiction. rewrite E. subst l. cbv [default from_option id py_in ret].
    exists (dict_set "patterns" (JList (l0 ++ [JStr p])) d).
    split; [|split].
    + destruct (existsb (is_str p) l0); reflexivity.
    + apply OrchestratorProofs.dict_get_set.
    + intros k Hk. now apply dict_get_set_other.
  - subst l. rewrite OrchestratorProofs.dict_get_set. cbv [default from_option id py_in ret existsb].
    exists (dict_set "patterns" (JList ([] ++ [JStr p]))
              (dict_set "patterns" (JList []) d)).
    split; [reflexivity|]. split.
    + apply OrchestratorProofs.dict_get_set.
    + intros k Hk. now rewrite !dict_get_set_other.
Qed.

Lemma is_str_found (p : string) (l : list json) :
  existsb (is_str p) (l ++ [JStr p]) = true.
Proof.
  rewrite existsb_app. cbn. rewrite String.eqb_refl. now rewrite orb_true_r.
Qed.

(** [add_pattern] as an insertion into a set. *)
Lemma add_pattern_set (self : t) (p : string) (e : Env) :
  pattern_appendable self e ->
  exists e',
    add_pattern self p e = (Returned tt, e') /\
    pattern_appendable self e' /\
    stored_patterns self e' =
      (if existsb (is_str p) (stored_patterns self e)
       then stored_patterns self e
       else stored_patterns self e ++ [JStr p]) /\
    (existsb (is_str p) (stored_patterns self e) = true -> e' = e) /\
    add_pattern self p e' = (Returned tt, e').
Proof.
  intros Hok.
  pose proof (load_progress_doc self e) as Hload.
  unfold pattern_appendable, stored_patterns in *.
  destruct (stored_document self e) as [v|] eqn:Edoc.
  - destruct v as [ | | | | | |d]; try contradiction.
    destruct (add_pattern_on_list self p d e e Hload Hok) as (d' & Hadd & Hget & _).
    cbv zeta in Hadd.
    set (l := match dict_get "patterns" d with Some (JList l) => l | _ => [] end) in *.
    destruct (existsb (is_str p) l) eqn:Ein.
    + exists e. rewrite Edoc.
      split; [exact Hadd|]. split; [exact Hok|]. split; [reflexivity|].
      split; [reflexivity | exact Hadd].
    + exists (holding self (JDict d') e). rewrite stored_document_holding, Hget.
      split; [exact Hadd|]. split; [exact I|]. split; [reflexivity|].
      split; [discriminate|].
      pose proof (load_progress_doc self (holding self (JDict d') e)) as Hload'.
      rewrite stored_document_holding in Hload'.
      destruct (add_pattern_on_list self p d' _ _ Hload') as (d2 & Hadd2 & _).
      { now rewrite Hget. }
      cbv zeta in Hadd2. rewrite Hget, is_str_found in Hadd2. exact Hadd2.
  - destruct (add_pattern_on_list self p _ e (advance e) Hload I)
      as (d' & Hadd & Hget & _).
    cbn in Hadd.
    exists (holding self (JDict d') (advance e)).
    rewrite stored_document_holding, Hget.
    split; [exact Hadd|]. split; [exact I|]. split; [reflexivity|].
    split; [discriminate|].
    pose proof (load_progress_doc self (holding self (JDict d') (advance e))) as Hload'.
    rewrite stored_document_holding in Hload'.
    destruct (add_pattern_on_list self p d' _ _ Hload') as (d2 & Hadd2 & _).
    { now rewrite Hget. }
    cbv zeta in Hadd2. rewrite Hget in Hadd2.
    rewrite is_str_found in Hadd2. exact Hadd2.
Qed.

(** X11.  [add_pattern] keeps the patterns a set: on a progress document
    whose patterns it can extend, the call returns; a pattern already in
    the list changes nothing, not even the file; a new one is appended at
    the end; and the same call made again changes nothing. *)
Theorem add_pattern_inserts_once (self : t) (p : string) (e : Env) :
  pattern_appendable self e ->
  exists e',
    add_pattern self p e = (Returned tt, e') /\
    pattern_appendable self e' /\
    stored_patterns self e' =
      (if existsb (is_str p) (stored_patterns self e)
       then stored_patterns self e
       else stored_patterns self e ++ [JStr p]) /\
    (existsb (is_str p) (stored_patterns self e) = true -> e' = e) /\
    add_pattern self p e' = (Returned tt, e').
Proof. apply add_pattern_set. Qed.

Lemma add_pattern_inserts_once_witness :
  let e := env (on_branch Scenario.manager "main" (Sample.ticking 1000)) in
  pattern_appendable Scenario.manager e /\
  exists e1 e2,
    add_pattern Scenario.manager "Always validate input" e = (Returned tt, e1) /\
    stored_patterns Scenario.manager e1 = [JStr "Always validate input"] /\
    add_pattern Scenario.manager "Use async/await for I/O" e1 = (Returned tt, e2) /\
    stored_patterns Scenario.manager e2 =
      [JStr "Always validate input"; JStr "Use async/await for I/O"] /\
    add_pattern Scenario.manager "Always validate input" e2 = (Returned tt, e2).
Proof.
  intros e.
  assert (Hok : pattern_appendable Scenario.manager e) by exact I.
  split; [exact Hok|].
  destruct (add_pattern_inserts_once Scenario.manager "Always validate input" e Hok)
    as (e1 & H1 & Hok1 & Hs1 & _ & _).
  destruct (add_pattern_inserts_once Scenario.manager "Use async/await for I/O" e1 Hok1)
    as (e2 & H2 & Hok2 & Hs2 & _ & _).
  destruct (add_pattern_inserts_once Scenario.manager "Always validate input" e2 Hok2)
    as (e3 & H3 & _ & _ & Hsame & _).
  exists e1, e2.
  assert (E1 : stored_patterns Scenario.manager e1 = [JStr "Always validate input"])
    by (rewrite Hs1; reflexivity).
  assert (E2 : stored_patterns Scenario.manager e2 =
               [JStr "Always validate input"; JStr "Use async/await for I/O"])
    by (rewrite Hs2, E1; reflexivity).
  split; [exact H1|]. split; [exact E1|]. split; [exact H2|]. split; [exact E2|].
  rewrite H3. f_equal. apply Hsame. rewrite E2. reflexivity.
Defined.

(** *** The two writers of the progress document *)

Lemma add_pattern_returned (self : t) (p : string) (e e' : Env) :
  add_pattern self p e = (Returned tt, e') ->
  exists d e1,
    load_progress self e = (Returned (JDict d), e1) /\
    (e' = e1 \/
     exists d', e' = holding self (JDict d') e1 /\
                forall k, k <> "patterns" -> dict_get k d' = dict_get k d).
Proof.
  unfold add_pattern, bind.
  destruct (load_progress self e) as [[doc|x|x] e1]; try discriminate.
  destruct doc as [ | | | | | |d]; try discriminate.
  intros H. exists d, e1. split; [reflexivity|].
  destruct (dict_get "patterns" d) as [v|] eqn:E.
  - rewrite E in H. cbv [default from_option id] in H.
    destruct v as [ |b|z|q|s|l|d0]; cbv [py_in ret raise] in H; try discriminate.
    + destruct (contains p s); [|discriminate]. injection H as <-. now left.
    + destruct (existsb (is_str p) l).
      * injection H as <-. now left.
      * right. exists (dict_set "patterns" (JList (l ++ [JStr p])) d).
        split; [now injection H as <-|].
        intros k Hk. now apply dict_get_set_other.
    + destruct (dict_get p d0); [|discriminate]. injection H as <-. now left.
  - rewrite OrchestratorProofs.dict_get_set in H. cbv [default from_option id py_in ret existsb] in H.
    right. eexists. split; [now injection H as <-|].
    intros k Hk. now rewrite !dict_get_set_other.
Qed.

Lemma add_cycle_result_returned (self : t) (r : CycleResult.t) (e e' : Env) :
  add_cycle_result self r e = (Returned tt, e') ->
  exists d e1 d',
    load_progress self e = (Returned (JDict d), e1) /\
    e' = holding self (JDict d') e1 /\
    forall k, k <> "cycles" -> dict_get k d' = dict_get k d.
Proof.
  unfold add_cycle_result, bind, append_cycle.
  destruct (load_progress self e) as [[doc|x|x] e1]; try discriminate.
  destruct doc as [ | | | | | |d]; try discriminate.
  intros H. exists d, e1.
  destruct (dict_get "cycles" d) as [v|] eqn:E.
  - rewrite E in H.
    destruct v as [ |b|z|q|s|l|d0]; cbv [ret raise] in H; try discriminate.
    eexists. split; [reflexivity|]. split; [now injection H as <-|].
    intros k Hk. now apply dict_get_set_other.
  - rewrite OrchestratorProofs.dict_get_set in H. cbv [ret] in H.
    eexists. split; [reflexivity|]. split; [now injection H as <-|].
    intros k Hk. now rewrite !dict_get_set_other.
Qed.

(** What a document that [load_progress] returned says about the store. *)
Lemma loaded_document (self : t) (e e1 : Env) (d : list (string * json)) :
  load_progress self e = (Returned (JDict d), e1) ->
  files e1 = files e /\
  (stored_document self e = Some (JDict d) \/
   stored_document self e = None /\ JDict d = empty_progress (reading e)).
Proof.
  rewrite load_progress_doc.
  destruct (stored_document self e) as [v|]; intros H.
  - injection H as -> <-. split; [reflexivity | now left].
  - injection H as Hd <-. split; [reflexivity|]. right. split; [reflexivity|].
    unfold empty_progress. now rewrite Hd.
Qed.

Lemma add_pattern_keeps_cycles (self : t) (p : string) (e e' : Env) :
  add_pattern self p e = (Returned tt, e') ->
  persisted_cycles self e' = persisted_cycles self e /\
  (appendable self e -> appendable self e').
Proof.
  intros H.
  destruct (add_pattern_returned _ _ _ _ H) as (d & e1 & Hload & Hcases).
  destruct (loaded_document _ _ _ _ Hload) as [Hfiles Hdoc].
  rewrite !persisted_cycles_doc, !appendable_doc.
  destruct Hcases as [->|(d' & -> & Hkeep)].
  - rewrite (stored_document_files self e e1 Hfiles). split; [reflexivity | auto].
  - rewrite stored_document_holding, (Hkeep "cycles") by discriminate.
    destruct Hdoc as [-> | [-> Hfresh]].
    + split; [reflexivity | auto].
    + injection Hfresh as ->. split; [reflexivity | intros _; exact I].
Qed.

Lemma add_cycle_result_keeps_patterns (self : t) (r : CycleResult.t) (e e' : Env) :
  add_cycle_result self r e = (Returned tt, e') ->
  stored_patterns self e' = stored_patterns self e /\
  (pattern_appendable self e -> pattern_appendable self e').
Proof.
  intros H.
  destruct (add_cycle_result_returned _ _ _ _ H) as (d & e1 & d' & Hload & -> & Hkeep).
  destruct (loaded_document _ _ _ _ Hload) as [Hfiles Hdoc].
  unfold stored_patterns, pattern_appendable.
  rewrite stored_document_holding, (Hkeep "patterns") by discriminate.
  destruct Hdoc as [-> | [-> Hfresh]].
  - split; [reflexivity | auto].
  - injection Hfresh as ->. split; [reflexivity | intros _; exact I].
Qed.

(** X12.  The two writers of the progress document leave each other's
    entry alone: a call of [add_pattern] that returns leaves the recorded
    cycles as they were, and the document one that [add_cycle_result] can
    extend if it was; a call of [add_cycle_result] that returns leaves the
    patterns as they were, and the document one that [add_pattern] can
    extend if it was. *)
Theorem writers_keep_apart (self : t) :
  (forall p e e',
     add_pattern self p e = (Returned tt, e') ->
     persisted_cycles self e' = persisted_cycles self e /\
     (appendable self e -> appendable self e')) /\
  (forall r e e',
     add_cycle_result self r e = (Returned tt, e') ->
     stored_patterns self e' = stored_patterns self e /\
     (pattern_appendable self e -> pattern_appendable self e')).
Proof.
  split.
  - intros p e e'. apply add_pattern_keeps_cycles.
  - intros r e e'. apply add_cycle_result_keeps_patterns.
Qed.

Lemma writers_keep_apart_witness :
  let e := env (on_branch Scenario.manager "main" (Sample.ticking 1000)) in
  let r := ClaudeOrchestrator.success_result "cycle_1_0" 1 in
  exists e1 e2,
    add_cycle_result Scenario.manager r e = (Returned tt, e1) /\
    add_pattern Scenario.manager "Always validate input" e1 = (Returned tt, e2) /\
    persisted_cycles Scenario.manager e2 = [CycleResult.as_json r] /\
    stored_patterns Scenario.manager e1 = [].
Proof.
  intros e r.
  set (e1 := snd (add_cycle_result Scenario.manager r e)).
  set (e2 := snd (add_pattern Scenario.manager "Always validate input" e1)).
  assert (E1 : add_cycle_result Scenario.manager r e = (Returned tt, e1))
    by (apply injective_projections; [vm_compute; reflexivity | reflexivity]).
  assert (E2 : add_pattern Scenario.manager "Always validate input" e1 = (Returned tt, e2))
    by (apply injective_projections; [vm_compute; reflexivity | reflexivity]).
  exists e1, e2.
  destruct (writers_keep_apart Scenario.manager) as [Hp Hc].
  destruct (Hp _ _ _ E2) as [Hcycles _].
  destruct (Hc _ _ _ E1) as [Hpatterns _].
  split; [exact E1|]. split; [exact E2|].
  split.
  - rewrite Hcycles. vm_compute. reflexivity.
  - rewrite Hpatterns. reflexivity.
Defined.

(** *** Documents that cannot be extended, and broken ones *)

(** [add_cycle_result] on a document of the wrong shape. *)
Lemma add_cycle_result_misshapen (self : t) (r : CycleResult.t) (e : Env) :
  ~ appendable self e ->
  exists x,
    add_cycle_result self r e = (Raised x, e) /\
    (exn_class x = "TypeError" \/ exn_class x = "AttributeError").
Proof.
  intros Hno. rewrite appendable_doc in Hno.
  unfold add_cycle_result, bind. rewrite load_progress_doc.
  destruct (stored_document self e) as [v|]; [|now destruct Hno].
  destruct v as [ |b|z|q|s|l|d];
    try (eexists; split; [reflexivity | left; reflexivity]).
  unfold append_cycle.
  destruct (dict_get "cycles" d) as [v|] eqn:E; [|now destruct Hno].
  rewrite E.
  destruct v as [ |b|z|q|s|l|d0];
    try (eexists; split; [reflexivity | right; reflexivity]).
  now destruct Hno.
Qed.

(** X13.  [add_cycle_result] needs a document of the right shape: when the
    progress file parses to something that is not an object, or to an
    object whose ["cycles"] entry is not a list, the call raises
    ([TypeError] or [AttributeError]) and leaves the environment exactly
    as it was. *)
Theorem misshapen_document_raises (self : t) (r : CycleResult.t) (e : Env) :
  ~ appendable self e ->
  exists x,
    add_cycle_result self r e = (Raised x, e) /\
    (exn_class x = "TypeError" \/ exn_class x = "AttributeError").
Proof. apply add_cycle_result_misshapen. Qed.

Lemma misshapen_document_raises_witness :
  let e := holding Scenario.manager (JList []) (env (Sample.ticking 1000)) in
  ~ appendable Scenario.manager e /\
  exists x,
    add_cycle_result Scenario.manager (ClaudeOrchestrator.success_result "cycle_1_0" 1) e =
      (Raised x, e) /\
    (exn_class x = "TypeError" \/ exn_class x = "AttributeError").
Proof.
  intros e.
  assert (Hno : ~ appendable Scenario.manager e) by (intros H; exact H).
  split; [exact Hno|].
  apply (misshapen_document_raises Scenario.manager _ e Hno).
Defined.



(** *** Archiving *)

Lemma archive_file_copies (folder f : string) (e : Env) :
  files e !! f <> Some Unreadable ->
  archive_file folder f e =
  (Returned tt,
   match files e !! f with
   | Some (FileText t) => with_file (path_join folder (path_name f)) t e
   | _ => e
   end).
Proof.
  intros Hr. unfold archive_file, bind, path_exists, read_text, write_text, with_file.
  destruct (files e !! f) as [[t|]|] eqn:E; cbv beta iota; rewrite ?E;
    [reflexivity | contradiction | reflexivity].
Qed.

(** X15.  When the marker records another branch, [archive_current_state]
    archives the run: it creates the folder named after today's date and
    the old branch (slashes replaced by dashes), copies each state file
    that exists into it unchanged, and records the new branch in the
    marker; no other file is touched. *)
Theorem archive_copies_the_state (self : t) (old new : string) (e : Env) :
  recorded_branch self e = Some (JStr old) ->
  old <> new ->
  state_files_readable self e ->
  archive_paths_apart self e old ->
  exists e',
    archive_current_state self new e = (Returned tt, e') /\
    dirs e' =
      {[ archive_folder_of self (strftime_ymd (reading e)) (replace_slash old) ]}
      ∪ dirs e /\
    (forall f, f = progress_file self \/ f = prd_file self ->
       files e !! f <> None ->
       files e' !! archive_destination self e old f = files e !! f) /\
    recorded_branch self e' = Some (JStr new) /\
    (forall p,
       p <> archive_destination self e old (progress_file self) ->
       p <> archive_destination self e old (prd_file self) ->
       p <> branch_file self ->
       files e' !! p = files e !! p).
Proof.
  intros Hrec Hne [Hr1 Hr2] (Hd12 & Hd1p & Hd1b & Hd2b).
  unfold archive_destination in *.
  set (folder := archive_folder_of self (strftime_ymd (reading e)) (replace_slash old)) in *.
  set (d1 := path_join folder (path_name (progress_file self))) in *.
  set (d2 := path_join folder (path_name (prd_file self))) in *.
  unfold archive_current_state. unfold bind at 1.
  rewrite should_archive_reads, Hrec.
  cbn [default from_option id differs_from].
  replace (old =? new)%string with false
    by (symmetry; now apply String.eqb_neq).
  cbn [negb]. unfold bind at 1. rewrite get_current_branch_reads, Hrec.
  cbn [default from_option id].
  unfold bind at 1. unfold now at 1. unfold bind at 1. unfold ret at 1.
  unfold bind at 1. unfold mkdir at 1.
  fold folder.
  set (e1 := {| tick := tick (advance e); clock := clock (advance e);
                files := files (advance e);
                dirs := {[folder]} ∪ dirs (advance e) |}).
  unfold bind at 1.
  rewrite (archive_file_copies folder (progress_file self) e1 Hr1). fold d1.
  set (e2 := match files e1 !! progress_file self with
             | Some (FileText t) => with_file d1 t e1
             | _ => e1
             end).
  assert (Hprd : files e2 !! prd_file self = files e !! prd_file self).
  { subst e2. change (files e1) with (files e).
    destruct (files e !! progress_file self) as [[t|]|]; try reflexivity.
    cbn. rewrite lookup_insert_ne; [reflexivity | exact Hd1p]. }
  unfold bind at 1.
  rewrite (archive_file_copies folder (prd_file self) e2) by now rewrite Hprd.
  fold d2. rewrite Hprd.
  set (e3 := match files e !! prd_file self with
             | Some (FileText t) => with_file d2 t e2
             | _ => e2
             end).
  destruct (set_current_branch_records self new e3) as (e' & Hset & Hrec').
  exists e'. split; [exact Hset|].
  assert (Hfiles : files e' =
                   <[branch_file self :=
                       FileText (TJson (JDict [("branch", JStr new);
                                               ("timestamp", JStr (isoformat (reading e3)))]))]>
                     (files e3) /\ dirs e' = dirs e3).
  { unfold set_current_branch, bind, now, write_text, json_dumps in Hset.
    injection Hset as <-. split; reflexivity. }
  destruct Hfiles as [Hfiles Hdirs].
  assert (Hdirs3 : dirs e3 = {[folder]} ∪ dirs e).
  { subst e3 e2. destruct (files e !! prd_file self) as [[t|]|];
      destruct (files e1 !! progress_file self) as [[t'|]|]; reflexivity. }
  assert (H1 : forall p, p <> d2 ->
             files e3 !! p = files e2 !! p).
  { intros p Hp. subst e3. destruct (files e !! prd_file self) as [[t|]|];
      try reflexivity. cbn. now rewrite lookup_insert_ne. }
  assert (H2 : forall p, p <> d1 -> files e2 !! p = files e !! p).
  { intros p Hp. subst e2. change (files e1) with (files e).
    destruct (files e !! progress_file self) as [[t|]|]; try reflexivity.
    cbn. now rewrite lookup_insert_ne. }
  split; [now rewrite Hdirs|]. split; [|split; [exact Hrec'|]].
  - intros f [-> | ->] Hsome; rewrite Hfiles.
    + fold d1. rewrite lookup_insert_ne by (intros H; now apply Hd1b).
      rewrite H1 by exact Hd12. subst e2. change (files e1) with (files e).
      destruct (files e !! progress_file self) as [[t|]|] eqn:E;
        [cbn; now rewrite lookup_insert_eq | contradiction | contradiction].
    + fold d2. rewrite lookup_insert_ne by (intros H; now apply Hd2b).
      subst e3.
      destruct (files e !! prd_file self) as [[t|]|] eqn:E;
        [cbn; now rewrite lookup_insert_eq | contradiction | contradiction].
  - intros p Hp1 Hp2 Hpb. rewrite Hfiles.
    rewrite lookup_insert_ne by (intros H; now apply Hpb).
    rewrite H1 by exact Hp2. now apply H2.
Qed.

Lemma archive_copies_the_state_witness :
  let e := env (on_branch Scenario.manager "feature/old" (Sample.ticking 1000)) in
  exists e',
    archive_current_state Scenario.manager "feature/new" e = (Returned tt, e') /\
    dirs e' = {[ "archive/1970-01-01-feature-old" ]} /\
    files e' !! "archive/1970-01-01-feature-old/progress.json" =
      files e !! "state/progress.json" /\
    files e' !! "state/progress.json" = files e !! "state/progress.json" /\
    recorded_branch Scenario.manager e' = Some (JStr "feature/new").
Proof.
  intros e.
  assert (Hrec : recorded_branch Scenario.manager e = Some (JStr "feature/old"))
    by reflexivity.
  assert (Hne : "feature/old" <> "feature/new") by discriminate.
  assert (Hread : state_files_readable Scenario.manager e)
    by (split; vm_compute; discriminate).
  assert (Hapart : archive_paths_apart Scenario.manager e "feature/old")
    by (repeat split; vm_compute; discriminate).
  destruct (archive_copies_the_state Scenario.manager "feature/old" "feature/new" e
              Hrec Hne Hread Hapart) as (e' & Hrun & Hdirs & Hcopy & Hrec' & Hframe).
  exists e'. split; [exact Hrun|].
  split; [rewrite Hdirs; vm_compute; reflexivity|].
  split; [|split; [|exact Hrec']].
  - apply (Hcopy "state/progress.json"); [left; reflexivity | vm_compute; discriminate].
  - apply Hframe; vm_compute; discriminate.
Defined.

End StateManagerMore.

(** * The completion predicate and the data scan of the class *)

Module StockMore.
Import ClaudeOrchestrator StateManagerSpec StateManagerTerms OrchestratorTerms.
Import StateManagerProofs StateManagerMore.

Lemma last_of_snoc (l : list json) (x : json) (e : Env) :
  py_last (JList (l ++ [x])) e = (Returned x, e).
Proof.
  destruct l as [|a l]; [reflexivity|].
  cbn [app py_last]. unfold ret. now rewrite last_last.
Qed.

Lemma truthy_snoc (l : list json) (x : json) : truthy (JList (l ++ [x])) = true.
Proof. now destruct l. Qed.

(** The stock predicate on a document whose last cycle is the object
    [c]. *)
Lemma stock_signal_on_cycle (repr : json -> string) (sm : StateManager.t)
    (done : Z) (e : Env) (d : list (string * json)) (l : list json)
    (c : list (string * json)) :
  stored_document sm e = Some (JDict d) ->
  dict_get "cycles" d = Some (JList (l ++ [JDict c])) ->
  well_formed_cycle c ->
  default_check_completion_signal repr sm done e =
  (Returned ((3 <=? done) || last_cycle_passes repr c), e).
Proof.
  intros Hdoc Hcycles [Hout Hmet].
  unfold default_check_completion_signal.
  destruct (3 <=? done); [reflexivity|]. cbn [orb].
  unfold bind at 1. rewrite load_progress_doc, Hdoc.
  unfold bind at 1. unfold py_get at 1. rewrite Hcycles.
  cbv [default from_option id ret]. rewrite truthy_snoc.
  unfold bind at 1. rewrite last_of_snoc.
  unfold bind at 1. unfold py_get at 1. cbv [default from_option id ret].
  unfold last_cycle_passes. cbv [default from_option id].
  destruct (truthy match dict_get "success" c with Some x => x | None => JNull end);
    [|reflexivity].
  cbn [andb]. unfold bind at 1. unfold py_get_default at 1.
  cbv [default from_option id ret].
  destruct (dict_get "output" c) as [[ | | | |o| | ]|]; try contradiction.
  - unfold bind at 1. cbv [py_in ret].
    destruct (contains "PASSED" o); [|reflexivity]. cbn [andb].
    unfold bind at 1. unfold py_get_default at 1.
    cbv [default from_option id ret].
    destruct (dict_get "metrics" c) as [[ | | | | | |m]|]; try contradiction.
    + unfold bind at 1. cbv [py_get_default default from_option id ret].
      now destruct (contains "9" _).
    + reflexivity.
  - reflexivity.
Qed.

Lemma recorded_last (sm : StateManager.t) (e : Env) (l : list json) (x : json) :
  persisted_cycles sm e = l ++ [x] ->
  exists d, stored_document sm e = Some (JDict d) /\
            dict_get "cycles" d = Some (JList (l ++ [x])).
Proof.
  rewrite persisted_cycles_doc.
  destruct (stored_document sm e) as [[ | | | | | |d]|];
    try (intros H; now destruct l).
  destruct (dict_get "cycles" d) as [[ | | | | |l0| ]|] eqn:E;
    try (intros H; now destruct l).
  intros ->. eauto.
Qed.

(** The stock predicate on a record of the orchestrator's own. *)
Lemma stock_counts (repr : json -> string) (sm : StateManager.t)
    (done : Z) (e : Env) (l : list json) (r : CycleResult.t) :
  persisted_cycles sm e = l ++ [CycleResult.as_json r] ->
  default_check_completion_signal repr sm done e = (Returned (3 <=? done), e).
Proof.
  intros Hrec. destruct (recorded_last _ _ _ _ Hrec) as (d & Hdoc & Hcycles).
  unfold CycleResult.as_json in Hcycles.
  rewrite (stock_signal_on_cycle repr sm done e d l _ Hdoc Hcycles).
  - unfold last_cycle_passes. cbn [dict_get String.eqb Ascii.eqb Bool.eqb].
    now rewrite !andb_false_r, orb_false_r.
  - split; exact I.
Qed.

(** X16.  With the records that the orchestrator itself writes, the stock
    completion predicate only counts: where the last recorded cycle is a
    result written by [add_cycle_result], the predicate answers whether
    at least three cycles have completed, without raising or writing.  Such
    a record has no metrics, so that the test on output and quality score
    cannot succeed. *)
Theorem stock_signal_counts_to_three (repr : json -> string) (sm : StateManager.t)
    (done : Z) (e : Env) (l : list json) (r : CycleResult.t) :
  persisted_cycles sm e = l ++ [CycleResult.as_json r] ->
  default_check_completion_signal repr sm done e = (Returned (3 <=? done), e).
Proof. apply stock_counts. Qed.

Lemma stock_signal_counts_to_three_witness :
  let r := success_result "cycle_1_0" 1 in
  let e := snd (StateManager.add_cycle_result Scenario.manager r
                  (env (on_branch Scenario.manager "main" (Sample.ticking 1000)))) in
  persisted_cycles Scenario.manager e = [CycleResult.as_json r] /\
  default_check_completion_signal (fun _ => EmptyString) Scenario.manager 1 e =
    (Returned false, e) /\
  default_check_completion_signal (fun _ => EmptyString) Scenario.manager 3 e =
    (Returned true, e).
Proof.
  intros r e.
  assert (Hrec : persisted_cycles Scenario.manager e = [] ++ [CycleResult.as_json r])
    by (vm_compute; reflexivity).
  split; [exact Hrec|]. split.
  - apply (stock_signal_counts_to_three _ _ 1 e [] r Hrec).
  - apply (stock_signal_counts_to_three _ _ 3 e [] r Hrec).
Defined.

(** X17.  What the stock completion predicate decides on: below three
    completed cycles it answers true exactly when the last recorded cycle
    has a true ["success"], an ["output"] text that contains PASSED, and a
    quality score under ["metrics"] whose text contains the digit 9; from
    three completed cycles on it answers true without reading the
    document. *)
Theorem stock_signal_reads_the_last_cycle (repr : json -> string)
    (sm : StateManager.t) (done : Z) (e : Env) (d : list (string * json))
    (l : list json) (c : list (string * json)) :
  stored_document sm e = Some (JDict d) ->
  dict_get "cycles" d = Some (JList (l ++ [JDict c])) ->
  well_formed_cycle c ->
  default_check_completion_signal repr sm done e =
  (Returned ((3 <=? done) || last_cycle_passes repr c), e).
Proof. apply stock_signal_on_cycle. Qed.

Lemma stock_signal_reads_the_last_cycle_witness :
  let c := [("success", JBool true); ("output", JStr "backtest PASSED");
            ("metrics", JDict [("quality_score", JStr "1.9")])] in
  let d := [("cycles", JList [JDict c])] in
  let e := holding Scenario.manager (JDict d) (env (Sample.ticking 1000)) in
  well_formed_cycle c /\
  default_check_completion_signal (fun _ => EmptyString) Scenario.manager 1 e =
    (Returned true, e).
Proof.
  intros c d e.
  assert (Hwf : well_formed_cycle c) by (split; exact I).
  split; [exact Hwf|].
  apply (stock_signal_reads_the_last_cycle _ Scenario.manager 1 e d [] c);
    [reflexivity | reflexivity | exact Hwf].
Defined.

(** *** The simulated data scan *)

Lemma is_str_in (p : string) (l : list json) :
  existsb (is_str p) l = true <-> In (JStr p) l.
Proof.
  rewrite existsb_exists. split.
  - intros (v & Hin & Hv). destruct v; try discriminate.
    cbn in Hv. apply String.eqb_eq in Hv. now subst.
  - intros Hin. exists (JStr p). split; [exact Hin|]. cbn. apply String.eqb_refl.
Qed.

Lemma add_insights_ok (sm : StateManager.t) (insights : list string) :
  forall e,
    pattern_appendable sm e ->
    exists e',
      add_insights sm insights e = (Returned tt, e') /\
      pattern_appendable sm e' /\
      persisted_cycles sm e' = persisted_cycles sm e /\
      (forall v, In v (stored_patterns sm e) -> In v (stored_patterns sm e')) /\
      (forall i, In i insights ->
         In (JStr ("Data scan: " +:+ i)) (stored_patterns sm e')) /\
      ((forall i, In i insights ->
          In (JStr ("Data scan: " +:+ i)) (stored_patterns sm e)) -> e' = e).
Proof.
  induction insights as [|i rest IH]; intros e Hok.
  - exists e. split; [reflexivity|]. split; [exact Hok|]. split; [reflexivity|].
    split; [auto|]. split; [intros i []|reflexivity].
  - cbn [add_insights]. unfold bind.
    destruct (add_pattern_set sm ("Data scan: " +:+ i) e Hok)
      as (e1 & Hadd & Hok1 & Hs1 & Hsame1 & _).
    destruct (add_pattern_keeps_cycles _ _ _ _ Hadd) as [Hc1 _].
    rewrite Hadd.
    destruct (IH e1 Hok1) as (e' & Hrest & Hok' & Hc' & Hmono & Hall & Hsame).
    exists e'. split; [exact Hrest|]. split; [exact Hok'|].
    split; [congruence|].
    assert (Hmono1 : forall v, In v (stored_patterns sm e) ->
                               In v (stored_patterns sm e1)).
    { intros v Hv. rewrite Hs1.
      destruct (existsb _ _); [exact Hv | apply in_or_app; now left]. }
    assert (Hin1 : In (JStr ("Data scan: " +:+ i)) (stored_patterns sm e1)).
    { rewrite Hs1. destruct (existsb _ _) eqn:E.
      - now apply is_str_in.
      - apply in_or_app. right. now left. }
    split; [auto|]. split.
    + intros j [<-|Hj]; [apply Hmono; exact Hin1 | now apply Hall].
    + intros Hthere.
      assert (He1 : e1 = e).
      { apply Hsame1. apply is_str_in. apply Hthere. now left. }
      subst e1. apply Hsame. intros j Hj. apply Hthere. now right.
Qed.

(** X18.  The simulated data scan records its insights once: on a
    progress document whose patterns can be extended, [_handle_data_scan]
    suspends for half a second and returns its result; afterwards each of
    its insights is among the stored patterns, prefixed with "Data scan: ",
    and the recorded cycles are as before.  Run again, it writes nothing:
    the patterns do not pile up from cycle to cycle. *)
Theorem data_scan_records_its_insights (self : t) (phase : CyclePhase) (w : World) :
  pattern_appendable (state_manager self) (env w) ->
  exists w',
    _handle_data_scan self phase w = (Returned data_scan_result, w') /\
    journal w' = journal w ++ [EvSleep (1 # 2)] /\
    (forall i, In i data_scan_insights ->
       In (JStr ("Data scan: " +:+ i)) (stored_patterns (state_manager self) (env w'))) /\
    persisted_cycles (state_manager self) (env w') =
      persisted_cycles (state_manager self) (env w) /\
    _handle_data_scan self phase w' = (Returned data_scan_result, sleep (1 # 2) w').
Proof.
  intros Hok. unfold _handle_data_scan.
  destruct (add_insights_ok (state_manager self) data_scan_insights (env w) Hok)
    as (e' & Hrun & Hok' & Hc & _ & Hall & _).
  rewrite (OrchestratorProofs.lift_returned _ (sleep (1 # 2) w) tt e' Hrun).
  eexists. split; [reflexivity|]. split; [reflexivity|].
  split; [exact Hall|]. split; [exact Hc|].
  destruct (add_insights_ok (state_manager self) data_scan_insights e' Hok')
    as (e2 & Hrun2 & _ & _ & _ & _ & Hsame).
  rewrite (Hsame Hall) in Hrun2.
  erewrite OrchestratorProofs.lift_returned by exact Hrun2. reflexivity.
Qed.

Lemma data_scan_records_its_insights_witness :
  let self := Scenario.engine Scenario.all_mocked (fun _ e => (Returned false, e)) in
  exists w',
    _handle_data_scan self DATA_SCAN Scenario.booted = (Returned data_scan_result, w') /\
    stored_patterns Scenario.manager (env w') =
      [JStr "Data scan: Codebase uses FastAPI for APIs";
       JStr "Data scan: Heavy use of async/await patterns";
       JStr "Data scan: Database migrations in ./migrations/"] /\
    _handle_data_scan self DATA_SCAN w' = (Returned data_scan_result, sleep (1 # 2) w').
Proof.
  intros self.
  assert (Hok : pattern_appendable (state_manager self) (env Scenario.booted))
    by exact I.
  destruct (data_scan_records_its_insights self DATA_SCAN Scenario.booted Hok)
    as (w' & Hrun & _ & _ & _ & Hagain).
  exists w'. split; [exact Hrun|]. split; [|exact Hagain].
  assert (Hw : w' = snd (_handle_data_scan self DATA_SCAN Scenario.booted))
    by now rewrite Hrun.
  rewrite Hw. vm_compute. reflexivity.
Defined.

End StockMore.

(** * Further properties of [ClaudeOrchestrator] *)

Module OrchestratorMore.
Import ClaudeOrchestrator StateManagerSpec OrchestratorSpec.
Import StateManagerTerms OrchestratorTerms.
Import OrchestratorProofs.

(** *** The journal of a cycle *)

Lemma handler_calls_app (l1 l2 : list event) :
  handler_calls (l1 ++ l2) = handler_calls l1 ++ handler_calls l2.
Proof. apply flat_map_app. Qed.

Lemma handler_calls_sleeps (waits : list Q) : handler_calls (map EvSleep waits) = [].
Proof. induction waits as [|q waits IH]; [reflexivity | exact IH]. Qed.

Lemma acquire_handler_calls (rl : RateLimiter.t) (w : World) :
  handler_calls (journal (snd (RateLimiter.acquire rl w))) = handler_calls (journal w).
Proof.
  destruct (RateLimiterMore.acquire_stages rl w) as [Hj _]. cbv zeta in Hj.
  rewrite Hj, handler_calls_app, handler_calls_sleeps. apply app_nil_r.
Qed.

(** One round of the phase loop whose handler returns. *)
Lemma run_phases_cons_returned (p : CyclePhase) (rest : list CyclePhase)
    (self : t) (cyc : CycleState.t) (w : World) self1 cyc1 w1 :
  is_COMPLETE p = false ->
  run_phases (p :: rest) self cyc w = (Returned tt, self1, cyc1, w1) ->
  exists out self0 w0,
    run_phases rest self0
      (CycleState.with_phase_result (CycleState.with_current_phase cyc p) (value p) out)
      w0 = (Returned tt, self1, cyc1, w1) /\
    handler_calls (journal w0) = handler_calls (journal w) ++ [p] /\
    circuit_breaker self0 = circuit_breaker self.
Proof.
  intros Hp H. cbn [run_phases] in H. rewrite Hp in H.
  pose proof (acquire_handler_calls (rate_limiter self) w) as Hj.
  destruct (RateLimiter.acquire (rate_limiter self) w) as [rl wa]. cbn [snd] in Hj.
  cbn [phase_handlers with_rate_limiter] in H.
  destruct (phase_handlers self p) as [h|]; [|discriminate].
  destruct (h p _ (env wa)) as [[out|x|x] e]; try discriminate.
  eexists out, _, _. split; [exact H|]. split; [|reflexivity].
  cbn [journal]. rewrite handler_calls_app, Hj. reflexivity.
Qed.

Lemma run_phases_calls (ps : list CyclePhase) :
  forall self cyc w self1 cyc1 w1,
    run_phases ps self cyc w = (Returned tt, self1, cyc1, w1) ->
    handler_calls (journal w1) =
    handler_calls (journal w) ++ List.filter (fun p => negb (is_COMPLETE p)) ps.
Proof.
  induction ps as [|p ps IH]; intros self cyc w self1 cyc1 w1 H.
  - cbn in H. injection H as _ _ <-. cbn. now rewrite app_nil_r.
  - destruct (is_COMPLETE p) eqn:Ep.
    + cbn [run_phases] in H. rewrite Ep in H. cbn [List.filter]. rewrite Ep.
      cbn [negb]. eapply IH; exact H.
    + destruct (run_phases_cons_returned _ _ _ _ _ _ _ _ Ep H)
        as (out & self0 & w0 & Hrest & Hj & _).
      apply IH in Hrest. rewrite Hrest, Hj. cbn [List.filter]. rewrite Ep.
      cbn [negb]. now rewrite <- app_assoc.
Qed.

(** The cycle state after all five handlers have returned. *)
Lemma run_phases_results (self : t) (cyc : CycleState.t) (w : World) self1 cyc1 w1 :
  CycleState.phase_results cyc = [] ->
  run_phases all_phases self cyc w = (Returned tt, self1, cyc1, w1) ->
  map fst (CycleState.phase_results cyc1) = map value phases_but_last /\
  CycleState.current_phase cyc1 = REPORT.
Proof.
  intros Hempty H. unfold all_phases in H.
  destruct (run_phases_cons_returned DATA_SCAN _ _ _ _ _ _ _ eq_refl H) as (o1 & s1 & a1 & H1 & _).
  destruct (run_phases_cons_returned IDEA _ _ _ _ _ _ _ eq_refl H1) as (o2 & s2 & a2 & H2 & _).
  destruct (run_phases_cons_returned CODE_EDIT _ _ _ _ _ _ _ eq_refl H2) as (o3 & s3 & a3 & H3 & _).
  destruct (run_phases_cons_returned BACKTEST _ _ _ _ _ _ _ eq_refl H3) as (o4 & s4 & a4 & H4 & _).
  destruct (run_phases_cons_returned REPORT _ _ _ _ _ _ _ eq_refl H4) as (o5 & s5 & a5 & H5 & _).
  cbn in H5. injection H5 as _ <- _. cbn. rewrite Hempty. split; reflexivity.
Qed.

Lemma run_phases_record (ps : list CyclePhase) :
  forall self cyc w r self1 cyc1 w1,
    leaves_record self ->
    run_phases ps self cyc w = (r, self1, cyc1, w1) ->
    persisted_cycles (state_manager self) (env w1) =
    persisted_cycles (state_manager self) (env w).
Proof.
  induction ps as [|p ps IH]; intros self cyc w r self1 cyc1 w1 Hl H.
  - cbn in H. now injection H as _ _ _ <-.
  - cbn [run_phases] in H.
    destruct (is_COMPLETE p); [now apply IH in H|].
    pose proof (quiet_acquire (rate_limiter self) w) as [Qf _].
    destruct (RateLimiter.acquire (rate_limiter self) w) as [rl wa].
    cbn [snd] in Qf.
    cbn [phase_handlers with_rate_limiter] in H.
    pose proof (persisted_files (state_manager self) _ _ Qf) as Ha.
    destruct (phase_handlers self p) as [h|] eqn:Hp.
    + pose proof (Hl p h (CycleState.phase_results (CycleState.with_current_phase cyc p))
                    (env wa) Hp) as Hkeep.
      destruct (h p _ (env wa)) as [[output|x|x] e]; cbn [fst snd] in *.
      * apply IH in H; [|exact Hl]. cbn [env state_manager with_rate_limiter] in H.
        congruence.
      * injection H as _ _ _ <-. cbn [env]. congruence.
      * injection H as _ _ _ <-. cbn [env]. congruence.
    + injection H as _ _ _ <-. exact Ha.
Qed.

Lemma run_phases_breaker (ps : list CyclePhase) :
  forall self cyc w r self1 cyc1 w1,
    run_phases ps self cyc w = (r, self1, cyc1, w1) ->
    circuit_breaker self1 = circuit_breaker self.
Proof.
  induction ps as [|p ps IH]; intros self cyc w r self1 cyc1 w1 H.
  - cbn in H. now injection H as _ <- _ _.
  - cbn [run_phases] in H.
    destruct (is_COMPLETE p); [now apply IH in H|].
    destruct (RateLimiter.acquire (rate_limiter self) w) as [rl wa].
    cbn [phase_handlers with_rate_limiter] in H.
    destruct (phase_handlers self p) as [h|].
    + destruct (h p _ (env wa)) as [[output|x|x] e].
      * apply IH in H. exact H.
      * now injection H as _ <- _ _.
      * now injection H as _ <- _ _.
    + now injection H as _ <- _ _.
Qed.

Lemma leaves_record_wiring (self self' : t) :
  same_wiring self self' -> leaves_record self -> leaves_record self'.
Proof.
  intros (_ & Hsm & Hh & _) Hl p h results e Hp.
  rewrite Hsm. apply Hl. now rewrite <- Hh.
Qed.

(** *** A cycle whose handlers all return *)

(** The [try] block from the end of the loop to the completion
    predicate. *)
Lemma after_phases_records (self : t) (cyc : CycleState.t) (w : World) :
  appendable (state_manager self) (env w) ->
  let cyc1 := CycleState.finished cyc (reading (env w)) true None in
  let result :=
    success_result (CycleState.cycle_id cyc)
      (total_seconds (reading (env w) - CycleState.start_time cyc)) in
  let self1 := with_cycles_completed self (cycles_completed self + 1) in
  exists e',
    StateManager.add_cycle_result (state_manager self) result (advance (env w)) =
      (Returned tt, e') /\
    appendable (state_manager self) e' /\
    persisted_cycles (state_manager self) e' =
      persisted_cycles (state_manager self) (env w) ++ [CycleResult.as_json result] /\
    after_phases self cyc w =
      match _check_completion_signal self (cycles_completed self + 1) e' with
      | (Returned signal, e2) =>
          (Returned signal, self1, cyc1, {| env := e2; journal := journal w |})
      | (Raised x, e2) => (Raised x, self1, cyc1, {| env := e2; journal := journal w |})
      | (Aborted x, e2) => (Aborted x, self1, cyc1, {| env := e2; journal := journal w |})
      end.
Proof.
  intros Ha cyc1 result self1.
  destruct (add_cycle_result_ok (state_manager self) result (advance (env w)))
    as (e' & Hadd & Ha' & Hp).
  { eapply appendable_files; [|exact Ha]. reflexivity. }
  exists e'. split; [exact Hadd|]. split; [exact Ha'|]. split; [exact Hp|].
  unfold after_phases. cbn [datetime_now].
  fold result. erewrite lift_returned by exact Hadd.
  unfold lift. cbn [env journal _check_completion_signal with_cycles_completed
                    cycles_completed].
  destruct (_check_completion_signal self (cycles_completed self + 1) e')
    as [[signal|x|x] e2]; reflexivity.
Qed.

(** The cycle up to the completion predicate. *)
Lemma cycle_reaches_signal (self : t) (n : Z) (w : World) :
  handlers_return self ->
  tame self ->
  leaves_record self ->
  appendable (state_manager self) (env w) ->
  exists self1 cyc1 w3 e' result,
    run_phases all_phases self (fst (cycle_begin n w)) (snd (cycle_begin n w)) =
      (Returned tt, self1, cyc1, w3) /\
    same_wiring self self1 /\
    circuit_breaker self1 = circuit_breaker self /\
    cycles_completed self1 = cycles_completed self /\
    map fst (CycleState.phase_results cyc1) = map value phases_but_last /\
    CycleState.current_phase cyc1 = REPORT /\
    run_cycle_calls (journal w3) = run_cycle_calls (journal w) ++ [n] /\
    handler_calls (journal w3) = handler_calls (journal w) ++ phases_but_last /\
    CycleResult.success result = true /\
    CycleResult.phases_completed result = phases_but_last /\
    CycleResult.cycle_id result = CycleState.cycle_id cyc1 /\
    appendable (state_manager self) e' /\
    persisted_cycles (state_manager self) e' =
      persisted_cycles (state_manager self) (env w) ++ [CycleResult.as_json result] /\
    after_phases self1 cyc1 w3 =
      match _check_completion_signal self (cycles_completed self + 1) e' with
      | (Returned signal, e2) =>
          (Returned signal,
           with_cycles_completed self1 (cycles_completed self + 1),
           CycleState.finished cyc1 (reading (env w3)) true None,
           {| env := e2; journal := journal w3 |})
      | (Raised x, e2) =>
          (Raised x,
           with_cycles_completed self1 (cycles_completed self + 1),
           CycleState.finished cyc1 (reading (env w3)) true None,
           {| env := e2; journal := journal w3 |})
      | (Aborted x, e2) =>
          (Aborted x,
           with_cycles_completed self1 (cycles_completed self + 1),
           CycleState.finished cyc1 (reading (env w3)) true None,
           {| env := e2; journal := journal w3 |})
      end.
Proof.
  intros Hret Ht Hl Ha.
  destruct (cycle_begin_journal n w) as [Bf Bj].
  assert (Hempty : CycleState.phase_results (fst (cycle_begin n w)) = [])
    by reflexivity.
  destruct (cycle_begin n w) as [cyc w2]. cbn [fst snd] in *.
  assert (Ha2 : appendable (state_manager self) (env w2))
    by (eapply appendable_files; eauto).
  destruct (run_phases_return all_phases self cyc w2 Hret) as (self1 & cyc1 & w3 & Ep).
  destruct (run_phases_tame _ _ _ _ _ _ _ _ Ht Ha2 Ep) as (_ & Ha3 & Hc3).
  destruct (run_phases_frame _ _ _ _ _ _ _ _ Ep) as (Hw & Hcc & _ & _).
  pose proof Hw as (_ & Hsm & _ & Hsig).
  pose proof (run_phases_record _ _ _ _ _ _ _ _ Hl Ep) as Hrec.
  pose proof (run_phases_breaker _ _ _ _ _ _ _ _ Ep) as Hcb.
  pose proof (run_phases_calls _ _ _ _ _ _ _ Ep) as Hcalls.
  destruct (run_phases_results _ _ _ _ _ _ Hempty Ep) as [Hkeys Hphase].
  destruct (after_phases_records self1 cyc1 w3) as (e' & _ & Ha' & Hp & Hafter).
  { now rewrite Hsm. }
  cbv zeta in Hafter. rewrite Hsm in Ha', Hp. rewrite Hsig, Hcc in Hafter.
  exists self1, cyc1, w3, e'. eexists.
  split; [exact Ep|]. split; [exact Hw|]. split; [exact Hcb|]. split; [exact Hcc|].
  split; [exact Hkeys|]. split; [exact Hphase|].
  split; [rewrite Hc3, Bj, run_cycle_calls_app; reflexivity|].
  split; [rewrite Hcalls, Bj, handler_calls_app; cbn; now rewrite app_nil_r|].
  split; [|split; [|split; [|split; [exact Ha'|split; [|exact Hafter]]]]].
  4: { rewrite Hp, Hrec. f_equal. apply (persisted_files _ _ _ Bf). }
  all: reflexivity.
Qed.

Lemma cycle_succeeds (self : t) (n : Z) (w : World) (f : Z -> bool) :
  handlers_return self ->
  tame self ->
  leaves_record self ->
  answers f self ->
  appendable (state_manager self) (env w) ->
  exists self' w' cyc result,
    _run_cycle self n w = (Returned (f (cycles_completed self + 1)), self', w') /\
    same_wiring self self' /\
    circuit_breaker self' = circuit_breaker self /\
    appendable (state_manager self) (env w') /\
    run_cycle_calls (journal w') = run_cycle_calls (journal w) ++ [n] /\
    cycles_completed self' = cycles_completed self + 1 /\
    handler_calls (journal w') = handler_calls (journal w) ++ phases_but_last /\
    current_cycle self' = Some cyc /\
    CycleState.success cyc = true /\
    map fst (CycleState.phase_results cyc) = map value phases_but_last /\
    persisted_cycles (state_manager self) (env w') =
      persisted_cycles (state_manager self) (env w) ++ [CycleResult.as_json result] /\
    CycleResult.success result = true /\
    CycleResult.phases_completed result = phases_but_last /\
    CycleResult.cycle_id result = CycleState.cycle_id cyc.
Proof.
  intros Hret Ht Hl Hans Ha.
  destruct (cycle_reaches_signal self n w Hret Ht Hl Ha)
    as (self1 & cyc1 & w3 & e' & result & Ep & Hw & Hcb & Hcc & Hkeys & _ &
        Hrc & Hhc & R1 & R2 & R3 & Ha' & Hp & Hafter).
  rewrite (Hans _ _ _ _ Hp) in Hafter.
  unfold _run_cycle, cycle_try.
  rewrite (surjective_pairing (cycle_begin n w)), Ep, Hafter.
  eexists _, _, _, result. split; [reflexivity|].
  destruct Hw as (W1 & W2 & W3 & W4).
  split; [repeat split; assumption|].
  split; [exact Hcb|]. split; [exact Ha'|]. split; [exact Hrc|].
  split; [reflexivity|]. split; [exact Hhc|]. split; [reflexivity|].
  split; [reflexivity|]. split; [exact Hkeys|]. split; [exact Hp|].
  split; [exact R1|]. split; [exact R2 | exact R3].
Qed.

(** X19.  A cycle whose handlers all return is recorded as a success: the
    five handlers are invoked once each, in the order of the phases; the
    cycle state holds one result per phase and is marked successful; one
    result with [success] true and the five phases is appended to the
    recorded cycles; the count of completed cycles goes up by one; and
    the cycle returns what the completion predicate answers. *)
Theorem successful_cycle_is_recorded (self : t) (n : Z) (w : World) (f : Z -> bool) :
  handlers_return self ->
  tame self ->
  leaves_record self ->
  answers f self ->
  appendable (state_manager self) (env w) ->
  exists self' w' cyc result,
    _run_cycle self n w = (Returned (f (cycles_completed self + 1)), self', w') /\
    cycles_completed self' = cycles_completed self + 1 /\
    handler_calls (journal w') = handler_calls (journal w) ++ phases_but_last /\
    current_cycle self' = Some cyc /\
    CycleState.success cyc = true /\
    map fst (CycleState.phase_results cyc) = map value phases_but_last /\
    persisted_cycles (state_manager self) (env w') =
      persisted_cycles (state_manager self) (env w) ++ [CycleResult.as_json result] /\
    CycleResult.success result = true /\
    CycleResult.phases_completed result = phases_but_last /\
    CycleResult.cycle_id result = CycleState.cycle_id cyc.
Proof.
  intros Hret Ht Hl Hans Ha.
  destruct (cycle_succeeds self n w f Hret Ht Hl Hans Ha)
    as (self' & w' & cyc & result & H1 & _ & _ & _ & _ & H2).
  exists self', w', cyc, result. split; [exact H1 | exact H2].
Qed.

Lemma leaves_record_all_mocked (completion : completion_signal) :
  leaves_record (Scenario.engine Scenario.all_mocked completion).
Proof.
  intros p h results e Hp. cbn in Hp. unfold Scenario.all_mocked in Hp.
  destruct (is_COMPLETE p); [discriminate|]. now injection Hp as <-.
Qed.

Lemma answers_complete_after (m : Z) (self : t) :
  _check_completion_signal self = complete_after m -> answers (Z.leb m) self.
Proof. intros H done e l r _. now rewrite H. Qed.

Lemma successful_cycle_is_recorded_witness :
  exists self' w' result,
    _run_cycle (Scenario.engine Scenario.all_mocked (complete_after 3)) 1 Scenario.booted =
      (Returned false, self', w') /\
    cycles_completed self' = 1 /\
    handler_calls (journal w') = [DATA_SCAN; IDEA; CODE_EDIT; BACKTEST; REPORT] /\
    persisted_cycles Scenario.manager (env w') = [CycleResult.as_json result] /\
    CycleResult.success result = true.
Proof.
  destruct (successful_cycle_is_recorded
              (Scenario.engine Scenario.all_mocked (complete_after 3)) 1 Scenario.booted
              (Z.leb 3)
              (all_mocked_return _) (tame_all_mocked _) (leaves_record_all_mocked _)
              (answers_complete_after 3
                 (Scenario.engine Scenario.all_mocked (complete_after 3)) eq_refl) I)
    as (self' & w' & cyc & result & H1 & H2 & H3 & _ & _ & _ & H4 & H5 & _).
  exists self', w', result.
  split; [exact H1|]. split; [exact H2|]. split; [exact H3|].
  split; [exact H4 | exact H5].
Defined.

(** *** A completion predicate that raises *)

(** X20.  When the completion predicate raises after a cycle whose handlers
    all returned, the cycle is recorded twice: the success result is
    already in the progress document and the count of completed cycles
    already raised when the [except] block appends a failure result that
    blames the last phase; the cycle returns false. *)
Theorem raising_signal_records_twice (self : t) (n : Z) (w : World) (x : exn) :
  handlers_return self ->
  tame self ->
  leaves_record self ->
  signal_raises x self ->
  appendable (state_manager self) (env w) ->
  exists self' w' ok ko,
    _run_cycle self n w = (Returned false, self', w') /\
    cycles_completed self' = cycles_completed self + 1 /\
    persisted_cycles (state_manager self) (env w') =
      persisted_cycles (state_manager self) (env w) ++
      [CycleResult.as_json ok; CycleResult.as_json ko] /\
    CycleResult.success ok = true /\
    CycleResult.success ko = false /\
    CycleResult.cycle_id ko = CycleResult.cycle_id ok /\
    CycleResult.learnings ko = ["Error in report: " +:+ exn_str x].
Proof.
  intros Hret Ht Hl Hx Ha.
  destruct (cycle_reaches_signal self n w Hret Ht Hl Ha)
    as (self1 & cyc1 & w3 & e' & result & Ep & Hw & _ & Hcc & _ & Hphase &
        _ & _ & R1 & _ & R3 & Ha' & Hp & Hafter).
  rewrite Hx in Hafter.
  unfold _run_cycle, cycle_try.
  rewrite (surjective_pairing (cycle_begin n w)), Ep, Hafter.
  pose proof Hw as (_ & Hsm & _ & _).
  match goal with
  | |- context [cycle_except x ?s ?c ?w0] =>
      destruct (cycle_except_reports x s c w0) as (self' & w' & He & _ & Hcc' & _ & _ & Hp')
  end.
  { cbn [state_manager with_cycles_completed env]. now rewrite Hsm. }
  rewrite He. cbn [state_manager with_cycles_completed env] in Hp'.
  rewrite Hsm in Hp'.
  eexists self', w', result, _. split; [reflexivity|].
  split; [rewrite Hcc'; reflexivity|].
  split; [rewrite Hp', Hp, <- app_assoc; reflexivity|].
  split; [exact R1|]. split; [reflexivity|].
  split; [rewrite R3; reflexivity|].
  cbn [CycleResult.learnings failure_result CycleState.finished CycleState.current_phase].
  now rewrite Hphase.
Qed.

Lemma raising_signal_records_twice_witness :
  let x := Exn "ValueError" "no verdict" in
  exists self' w' ok ko,
    _run_cycle (Scenario.engine Scenario.all_mocked (fun _ e => (Raised x, e))) 1
               Scenario.booted = (Returned false, self', w') /\
    cycles_completed self' = 1 /\
    persisted_cycles Scenario.manager (env w') =
      [CycleResult.as_json ok; CycleResult.as_json ko] /\
    CycleResult.success ok = true /\
    CycleResult.learnings ko = ["Error in report: no verdict"].
Proof.
  intros x.
  destruct (raising_signal_records_twice
              (Scenario.engine Scenario.all_mocked (fun _ e => (Raised x, e))) 1
              Scenario.booted x
              (all_mocked_return _) (tame_all_mocked _) (leaves_record_all_mocked _)
              (fun _ _ => eq_refl) I)
    as (self' & w' & ok & ko & H1 & H2 & H3 & H4 & _ & _ & H5).
  exists self', w', ok, ko.
  split; [exact H1|]. split; [exact H2|]. split; [exact H3|].
  split; [exact H4 | exact H5].
Defined.

(** *** A phase that fails *)

Lemma phase_split (done rest : list CyclePhase) (p : CyclePhase) :
  all_phases = done ++ p :: rest ->
  List.filter (fun q => negb (is_COMPLETE q)) done = done.
Proof.
  unfold all_phases. intros H.
  do 6 (destruct done as [|? done];
        [reflexivity | cbn in H; injection H as <- H; cbn; f_equal]).
  now destruct done.
Qed.

Lemma run_phases_return_in (ps : list CyclePhase) :
  forall self cyc w,
    return_in ps self ->
    exists self1 cyc1 w1, run_phases ps self cyc w = (Returned tt, self1, cyc1, w1).
Proof.
  induction ps as [|p ps IH]; intros self cyc w Hr.
  - do 3 eexists. reflexivity.
  - cbn [run_phases].
    destruct (is_COMPLETE p) eqn:Ec.
    { apply IH. intros q Hq. apply Hr. now right. }
    destruct (RateLimiter.acquire (rate_limiter self) w) as [rl wa].
    cbn [phase_handlers with_rate_limiter].
    destruct (Hr p ltac:(now left)) as (h & Hh & Hret). rewrite Hh.
    specialize (Hret (CycleState.phase_results (CycleState.with_current_phase cyc p))
                     (env wa)).
    destruct (h p _ (env wa)) as [[output|x|x] e]; try discriminate.
    apply IH. intros q Hq. apply (Hr q). now right.
Qed.

(** The phase loop up to the handler of [p], the phases before it having
    handlers that return. *)
Lemma run_to_phase (done rest : list CyclePhase) (p : CyclePhase)
    (self : t) (cyc : CycleState.t) (w : World) :
  all_phases = done ++ p :: rest ->
  is_COMPLETE p = false ->
  return_in done self ->
  exists self1 cyc1 w1,
    run_phases done self cyc w = (Returned tt, self1, cyc1, w1) /\
    let rl := fst (RateLimiter.acquire (rate_limiter self1) w1) in
    let wa := snd (RateLimiter.acquire (rate_limiter self1) w1) in
    let self2 := with_rate_limiter self1 rl in
    let cyc2 := CycleState.with_current_phase cyc1 p in
    handler_calls (journal wa) = handler_calls (journal w) ++ done /\
    run_phases all_phases self cyc w =
      match phase_handlers self p with
      | None => (Raised (Exn "KeyError" (repr p)), self2, cyc2, wa)
      | Some h =>
          let w2 := {| env := snd (h p (CycleState.phase_results cyc2) (env wa));
                       journal := journal wa ++ [EvHandler p] |} in
          match fst (h p (CycleState.phase_results cyc2) (env wa)) with
          | Returned output =>
              run_phases rest self2
                (CycleState.with_phase_result cyc2 (value p) output) w2
          | Raised x => (Raised x, self2, cyc2, w2)
          | Aborted x => (Aborted x, self2, cyc2, w2)
          end
      end.
Proof.
  intros Hsplit Hp Hret.
  destruct (run_phases_return_in done self cyc w Hret) as (self1 & cyc1 & w1 & Ep).
  exists self1, cyc1, w1. split; [exact Ep|]. cbv zeta.
  destruct (run_phases_frame _ _ _ _ _ _ _ _ Ep) as ((_ & _ & Hh & _) & _).
  split.
  - rewrite acquire_handler_calls, (run_phases_calls _ _ _ _ _ _ _ Ep).
    now rewrite (phase_split _ _ _ Hsplit).
  - rewrite Hsplit, run_phases_app, Ep. cbn [run_phases]. rewrite Hp.
    rewrite (surjective_pairing (RateLimiter.acquire (rate_limiter self1) w1)).
    cbn [phase_handlers with_rate_limiter]. rewrite Hh.
    destruct (phase_handlers self p) as [h|]; [|reflexivity].
    rewrite (surjective_pairing (h p _ _)). reflexivity.
Qed.

Lemma cycle_except_state (x : exn) (self : t) (cyc : CycleState.t) (w : World) :
  current_cycle (snd (fst (cycle_except x self cyc w))) =
  Some (CycleState.finished cyc (reading (env w)) false (Some (exn_str x))).
Proof.
  unfold cycle_except. cbn [datetime_now].
  destruct (lift _ _) as [[u|y|y] w2]; reflexivity.
Qed.

(** A cycle whose phase loop ends in an exception. *)
Lemma cycle_raised (self : t) (n : Z) (w : World) (x : exn) self2 cyc2 w2 :
  tame self ->
  leaves_record self ->
  appendable (state_manager self) (env w) ->
  run_phases all_phases self (fst (cycle_begin n w)) (snd (cycle_begin n w)) =
    (Raised x, self2, cyc2, w2) ->
  exists self' w',
    _run_cycle self n w = (Returned false, self', w') /\
    journal w' = journal w2 /\
    cycles_completed self' = cycles_completed self /\
    current_cycle self' =
      Some (CycleState.finished cyc2 (reading (env w2)) false (Some (exn_str x))) /\
    persisted_cycles (state_manager self) (env w') =
      persisted_cycles (state_manager self) (env w) ++
      [CycleResult.as_json
         (failure_result (CycleState.cycle_id cyc2) (CycleState.current_phase cyc2) x)].
Proof.
  intros Ht Hl Ha Ep.
  destruct (cycle_begin_journal n w) as [Bf _].
  assert (Ha2 : appendable (state_manager self) (env (snd (cycle_begin n w))))
    by (eapply appendable_files; eauto).
  destruct (run_phases_tame _ _ _ _ _ _ _ _ Ht Ha2 Ep) as (_ & Ha3 & _).
  destruct (run_phases_frame _ _ _ _ _ _ _ _ Ep) as ((_ & Hsm & _ & _) & Hcc & _ & _).
  pose proof (run_phases_record _ _ _ _ _ _ _ _ Hl Ep) as Hrec.
  unfold _run_cycle, cycle_try.
  rewrite (surjective_pairing (cycle_begin n w)), Ep.
  pose proof (cycle_except_state x self2 cyc2 w2) as Hstate.
  destruct (cycle_except_reports x self2 cyc2 w2)
    as (self' & w' & He & _ & Hcc' & _ & Hj & Hp).
  { now rewrite Hsm. }
  rewrite He in Hstate |- *. cbn [fst snd] in Hstate.
  exists self', w'. split; [reflexivity|]. split; [exact Hj|].
  split; [congruence|]. split; [exact Hstate|].
  rewrite Hsm in Hp. rewrite Hp, Hrec.
  now rewrite (persisted_files _ _ _ Bf).
Qed.


Lemma tame_mocks (handlers : CyclePhase -> option handler)
    (completion : completion_signal) :
  (forall p h, handlers p = Some h ->
     h = Scenario.mock_handler \/ h = Scenario.failing_handler) ->
  tame (Scenario.engine handlers completion) /\
  leaves_record (Scenario.engine handlers completion).
Proof.
  intros Hall. split.
  - intros p h results e Hp. cbn in Hp.
    destruct (Hall p h Hp) as [-> | ->]; split; try discriminate; auto.
  - intros p h results e Hp. cbn in Hp.
    destruct (Hall p h Hp) as [-> | ->]; reflexivity.
Qed.


Lemma third_fails_mocks (p : CyclePhase) (h : handler) :
  Scenario.third_fails p = Some h ->
  h = Scenario.mock_handler \/ h = Scenario.failing_handler.
Proof.
  destruct p; cbn; intros H; try discriminate;
    [left | left | right | left | left]; congruence.
Qed.

Lemma mocks_return_in (ps : list CyclePhase) (handlers : CyclePhase -> option handler)
    (completion : completion_signal) :
  Forall (fun q => handlers q = Some Scenario.mock_handler) ps ->
  return_in ps (Scenario.engine handlers completion).
Proof.
  intros Hall q Hq. rewrite List.Forall_forall in Hall.
  exists Scenario.mock_handler. split; [apply Hall; exact Hq | reflexivity].
Qed.


(** X22.  A handler that raises ends the cycle there: when the handlers of
    the phases before it return and the handler of a phase raises, no
    handler of a later phase is invoked, the count of completed cycles
    stays as it was, and the cycle state is left unsuccessful, at that
    phase, with the text of the exception as its error message. *)
Theorem failing_handler_ends_the_cycle (self : t) (n : Z) (w : World)
    (done rest : list CyclePhase) (p : CyclePhase) (h : handler) (x : exn) :
  all_phases = done ++ p :: rest ->
  is_COMPLETE p = false ->
  return_in done self ->
  phase_handlers self p = Some h ->
  (forall results e, fst (h p results e) = Raised x) ->
  tame self ->
  leaves_record self ->
  appendable (state_manager self) (env w) ->
  exists self' w' cyc,
    _run_cycle self n w = (Returned false, self', w') /\
    handler_calls (journal w') = handler_calls (journal w) ++ done ++ [p] /\
    cycles_completed self' = cycles_completed self /\
    current_cycle self' = Some cyc /\
    CycleState.success cyc = false /\
    CycleState.current_phase cyc = p /\
    CycleState.error_message cyc = Some (exn_str x).
Proof.
  intros Hsplit Hp Hret Hh Hx Ht Hl Ha.
  destruct (run_to_phase done rest p self (fst (cycle_begin n w)) (snd (cycle_begin n w))
              Hsplit Hp Hret) as (self1 & cyc1 & w1 & _ & Hrun).
  cbv zeta in Hrun. destruct Hrun as [Hcalls Hrun]. rewrite Hh, Hx in Hrun.
  destruct (cycle_raised self n w _ _ _ _ Ht Hl Ha Hrun)
    as (self' & w' & H1 & Hj & Hcc & Hstate & _).
  eexists self', w', _. split; [exact H1|].
  split.
  { rewrite Hj. cbn [journal]. rewrite handler_calls_app, Hcalls.
    destruct (cycle_begin_journal n w) as [_ ->].
    rewrite handler_calls_app. cbn. now rewrite app_nil_r, <- app_assoc. }
  split; [exact Hcc|]. split; [exact Hstate|].
  split; [reflexivity|]. split; reflexivity.
Qed.

Lemma failing_handler_ends_the_cycle_witness :
  exists self' w' cyc,
    _run_cycle (Scenario.engine Scenario.third_fails never_complete) 1
               Scenario.booted = (Returned false, self', w') /\
    handler_calls (journal w') = [DATA_SCAN; IDEA; CODE_EDIT] /\
    cycles_completed self' = 0 /\
    current_cycle self' = Some cyc /\
    CycleState.error_message cyc = Some "Service unavailable".
Proof.
  destruct (tame_mocks Scenario.third_fails never_complete third_fails_mocks)
    as [Ht Hl].
  assert (Hret : return_in [DATA_SCAN; IDEA]
                    (Scenario.engine Scenario.third_fails never_complete))
    by (apply mocks_return_in; repeat constructor).
  destruct (failing_handler_ends_the_cycle
              (Scenario.engine Scenario.third_fails never_complete) 1
              Scenario.booted [DATA_SCAN; IDEA] [BACKTEST; REPORT; COMPLETE] CODE_EDIT
              Scenario.failing_handler (Exn "Exception" "Service unavailable")
              eq_refl eq_refl Hret eq_refl (fun _ _ => eq_refl) Ht Hl I)
    as (self' & w' & cyc & H1 & H2 & H3 & H4 & _ & _ & H5).
  exists self', w', cyc.
  split; [exact H1|]. split; [exact H2|]. split; [exact H3|].
  split; [exact H4 | exact H5].
Defined.

(** *** A handler that is interrupted *)

(** X23.  A handler that ends in a [BaseException] outside [Exception] (a
    cancellation, an interrupt) is not caught by the cycle: [_run_cycle]
    ends in that exception with no cycle result recorded and the count of
    completed cycles unchanged, no later handler is invoked, and the loop
    of [run] ends in the same exception without starting another
    cycle. *)
Theorem interrupted_handler_stops_the_run (self : t) (n : Z) (w : World)
    (done rest : list CyclePhase) (p : CyclePhase) (h : handler) (x : exn) :
  all_phases = done ++ p :: rest ->
  is_COMPLETE p = false ->
  return_in done self ->
  phase_handlers self p = Some h ->
  (forall results e, fst (h p results e) = Aborted x) ->
  leaves_record self ->
  exists self' w',
    _run_cycle self n w = (Aborted x, self', w') /\
    handler_calls (journal w') = handler_calls (journal w) ++ done ++ [p] /\
    cycles_completed self' = cycles_completed self /\
    persisted_cycles (state_manager self) (env w') =
      persisted_cycles (state_manager self) (env w) /\
    forall more, run_loop (n :: more) self w = (Aborted x, self', w').
Proof.
  intros Hsplit Hp Hret Hh Hx Hl.
  destruct (run_to_phase done rest p self (fst (cycle_begin n w)) (snd (cycle_begin n w))
              Hsplit Hp Hret) as (self1 & cyc1 & w1 & _ & Hrun).
  cbv zeta in Hrun. destruct Hrun as [Hcalls Hrun]. rewrite Hh, Hx in Hrun.
  destruct (run_phases_frame _ _ _ _ _ _ _ _ Hrun) as (_ & Hcc & _ & _).
  pose proof (run_phases_record _ _ _ _ _ _ _ _ Hl Hrun) as Hrec.
  destruct (cycle_begin_journal n w) as [Bf Bj].
  assert (Hcycle : _run_cycle self n w =
            (Aborted x,
             with_current_cycle
               (with_rate_limiter self1
                  (fst (RateLimiter.acquire (rate_limiter self1) w1)))
               (CycleState.with_current_phase cyc1 p),
             {| env := snd (h p (CycleState.phase_results
                                   (CycleState.with_current_phase cyc1 p))
                              (env (snd (RateLimiter.acquire (rate_limiter self1) w1))));
                journal := journal (snd (RateLimiter.acquire (rate_limiter self1) w1))
                           ++ [EvHandler p] |})).
  { unfold _run_cycle, cycle_try.
    now rewrite (surjective_pairing (cycle_begin n w)), Hrun. }
  eexists _, _. split; [exact Hcycle|].
  split.
  { cbn [journal]. rewrite handler_calls_app, Hcalls, Bj.
    rewrite handler_calls_app. cbn. now rewrite app_nil_r, <- app_assoc. }
  split; [exact Hcc|].
  split; [rewrite Hrec; apply (persisted_files _ _ _ Bf)|].
  intros more. cbn [run_loop]. now rewrite Hcycle.
Qed.

Lemma interrupted_handler_stops_the_run_witness :
  exists self' w',
    run_loop [1; 2] (Scenario.engine MoreSamples.third_cancelled never_complete)
             Scenario.booted =
      (Aborted (Exn "CancelledError" EmptyString), self', w') /\
    handler_calls (journal w') = [DATA_SCAN; IDEA; CODE_EDIT] /\
    persisted_cycles Scenario.manager (env w') = [].
Proof.
  assert (Hl : leaves_record (Scenario.engine MoreSamples.third_cancelled never_complete)).
  { intros p h results e Hp. destruct p; cbn in Hp; try discriminate;
      injection Hp as <-; reflexivity. }
  assert (Hret : return_in [DATA_SCAN; IDEA]
                    (Scenario.engine MoreSamples.third_cancelled never_complete))
    by (apply mocks_return_in; repeat constructor).
  destruct (interrupted_handler_stops_the_run
              (Scenario.engine MoreSamples.third_cancelled never_complete) 1
              Scenario.booted [DATA_SCAN; IDEA] [BACKTEST; REPORT; COMPLETE] CODE_EDIT
              MoreSamples.cancelled_handler (Exn "CancelledError" EmptyString)
              eq_refl eq_refl Hret eq_refl (fun _ _ => eq_refl) Hl)
    as (self' & w' & _ & H2 & _ & H3 & Hloop).
  exists self', w'. split; [apply Hloop|]. split; [exact H2 | exact H3].
Defined.

(** *** The circuit breaker of the orchestrator *)

Lemma cycle_except_breaker (x : exn) (self : t) (cyc : CycleState.t) (w : World) :
  circuit_breaker (snd (fst (cycle_except x self cyc w))) = circuit_breaker self.
Proof.
  unfold cycle_except. cbn [datetime_now].
  destruct (lift _ _) as [[u|y|y] w4]; reflexivity.
Qed.

Lemma after_phases_breaker (self : t) (cyc : CycleState.t) (w : World) :
  circuit_breaker (snd (fst (fst (after_phases self cyc w)))) = circuit_breaker self.
Proof.
  unfold after_phases. cbn [datetime_now].
  destruct (lift _ _) as [[u|y|y] w4]; [|reflexivity|reflexivity].
  destruct (lift _ _) as [[b|y|y] w5]; reflexivity.
Qed.

Lemma run_cycle_breaker (self : t) (n : Z) (w : World) :
  circuit_breaker (snd (fst (_run_cycle self n w))) = circuit_breaker self.
Proof.
  unfold _run_cycle, cycle_try.
  destruct (cycle_begin n w) as [cyc w2].
  destruct (run_phases all_phases self cyc w2) as [[[r self1] cyc1] w3] eqn:Ep.
  apply run_phases_breaker in Ep.
  destruct r as [[]|x|x].
  - pose proof (after_phases_breaker self1 cyc1 w3) as Ha.
    destruct (after_phases self1 cyc1 w3) as [[[[b|y|y] self2] cyc2] w4];
      cbn [fst snd] in *.
    + cbn [circuit_breaker with_current_cycle]. congruence.
    + rewrite cycle_except_breaker. congruence.
    + cbn [circuit_breaker with_current_cycle]. congruence.
  - rewrite cycle_except_breaker. exact Ep.
  - exact Ep.
Qed.

Lemma run_loop_breaker (iterations : list Z) :
  forall self w,
    circuit_breaker (snd (fst (run_loop iterations self w))) = circuit_breaker self.
Proof.
  induction iterations as [|i rest IH]; intros self w; [reflexivity|].
  cbn [run_loop].
  pose proof (run_cycle_breaker self i w) as Hc.
  destruct (_run_cycle self i w) as [[[[|]|x|x] self1] w1]; cbn [fst snd] in *;
    try exact Hc.
  now rewrite IH.
Qed.

(** X24.  The orchestrator never puts its circuit breaker to use: after
    [_run_cycle] and after [run], whatever the handlers do and however the
    call ends, the breaker is as it was before, state and failure count
    included. *)
Theorem breaker_is_never_used (self : t) (w : World) :
  (forall n, circuit_breaker (snd (fst (_run_cycle self n w))) = circuit_breaker self) /\
  (forall max_iterations branch,
     circuit_breaker (snd (fst (run self max_iterations branch w))) =
     circuit_breaker self).
Proof.
  split; [intros n; apply run_cycle_breaker|].
  intros mi branch. unfold run.
  destruct (lift (startup self branch) w) as [[u|x|x] w1]; try reflexivity.
  apply run_loop_breaker.
Qed.

(** *** The loop of [run] *)

Lemma handlers_return_wiring (self self' : t) :
  same_wiring self self' -> handlers_return self -> handlers_return self'.
Proof. intros (_ & _ & Hh & _) Hr p Hp. rewrite Hh. now apply Hr. Qed.

Lemma answers_wiring (f : Z -> bool) (self self' : t) :
  same_wiring self self' -> answers f self -> answers f self'.
Proof.
  intros (_ & Hsm & _ & Hs) Ha done e l r. rewrite Hsm, Hs. apply Ha.
Qed.

Lemma run_loop_app (pre post : list Z) :
  forall self w,
    run_loop (pre ++ post) self w =
    match run_loop pre self w with
    | (Returned false, self1, w1) => run_loop post self1 w1
    | other => other
    end.
Proof.
  induction pre as [|i pre IH]; intros self w; [reflexivity|].
  cbn [app run_loop].
  destruct (_run_cycle self i w) as [[[[|]|x|x] self1] w1]; try reflexivity.
  apply IH.
Qed.

(** Cycles that succeed while the predicate says no. *)
Lemma run_loop_on (f : Z -> bool) (iterations : list Z) :
  forall self w,
    handlers_return self ->
    tame self ->
    leaves_record self ->
    answers f self ->
    appendable (state_manager self) (env w) ->
    (forall j, (j < length iterations)%nat ->
       f (cycles_completed self + 1 + Z.of_nat j) = false) ->
    exists self' w',
      run_loop iterations self w = (Returned false, self', w') /\
      same_wiring self self' /\
      appendable (state_manager self) (env w') /\
      run_cycle_calls (journal w') = run_cycle_calls (journal w) ++ iterations /\
      cycles_completed self' = cycles_completed self + Z.of_nat (length iterations).
Proof.
  induction iterations as [|i rest IH]; intros self w Hret Ht Hl Hans Ha Hno.
  - exists self, w. split; [reflexivity|]. split; [apply same_wiring_refl|].
    split; [exact Ha|]. split; [now rewrite app_nil_r | cbn; lia].
  - cbn [run_loop].
    destruct (cycle_succeeds self i w f Hret Ht Hl Hans Ha)
      as (self1 & w1 & _ & _ & Hrun & Hw & _ & Ha1 & Hrc & Hcc & _).
    assert (H0 : f (cycles_completed self + 1) = false).
    { replace (cycles_completed self + 1)
        with (cycles_completed self + 1 + Z.of_nat 0) by lia.
      apply Hno. cbn [length]. lia. }
    rewrite Hrun, H0.
    pose proof Hw as (_ & Hsm & _ & _).
    set (w2 := sleep _ w1).
    destruct (IH self1 w2) as (self' & w' & Hloop & Hw' & Ha' & Hrc' & Hcc').
    + now apply (handlers_return_wiring self).
    + now apply (tame_wiring self).
    + now apply (leaves_record_wiring self).
    + now apply (answers_wiring f self).
    + rewrite Hsm. exact Ha1.
    + intros j Hj. rewrite Hcc.
      replace (cycles_completed self + 1 + 1 + Z.of_nat j)
        with (cycles_completed self + 1 + Z.of_nat (S j)) by lia.
      apply Hno. cbn [length]. lia.
    + exists self', w'. split; [exact Hloop|].
      split; [eapply same_wiring_trans; eauto|].
      split; [now rewrite <- Hsm|].
      split.
      * rewrite Hrc'. subst w2. destruct (quiet_sleep
          (OrchestratorConfig.sleep_between_iterations (config self1)) w1) as [_ ->].
        rewrite Hrc, <- app_assoc. reflexivity.
      * rewrite Hcc', Hcc. cbn [length]. lia.
Qed.

(** The cycle at which the predicate says yes. *)
Lemma run_loop_hit (f : Z -> bool) (i : Z) (rest : list Z) (self : t) (w : World) :
  handlers_return self ->
  tame self ->
  leaves_record self ->
  answers f self ->
  appendable (state_manager self) (env w) ->
  f (cycles_completed self + 1) = true ->
  exists self' w',
    run_loop (i :: rest) self w = (Returned true, self', w') /\
    run_cycle_calls (journal w') = run_cycle_calls (journal w) ++ [i] /\
    cycles_completed self' = cycles_completed self + 1.
Proof.
  intros Hret Ht Hl Hans Ha Hyes. cbn [run_loop].
  destruct (cycle_succeeds self i w f Hret Ht Hl Hans Ha)
    as (self1 & w1 & _ & _ & Hrun & _ & _ & _ & Hrc & Hcc & _).
  rewrite Hrun, Hyes. eauto.
Qed.

(** The loop over the iterations [1 .. n], by whether and when the
    predicate says yes. *)
Lemma run_loop_stops (f : Z -> bool) (self : t) (w : World) (n : Z) :
  handlers_return self ->
  tame self ->
  leaves_record self ->
  answers f self ->
  appendable (state_manager self) (env w) ->
  ((forall i, 1 <= i <= n -> f (cycles_completed self + i) = false) ->
   exists self' w',
     run_loop (seqZ 1 n) self w = (Returned false, self', w') /\
     run_cycle_calls (journal w') = run_cycle_calls (journal w) ++ seqZ 1 n /\
     cycles_completed self' = cycles_completed self + Z.max 0 n) /\
  (forall k,
     1 <= k <= n ->
     f (cycles_completed self + k) = true ->
     (forall i, 1 <= i < k -> f (cycles_completed self + i) = false) ->
     exists self' w',
       run_loop (seqZ 1 n) self w = (Returned true, self', w') /\
       run_cycle_calls (journal w') = run_cycle_calls (journal w) ++ seqZ 1 k /\
       cycles_completed self' = cycles_completed self + k).
Proof.
  intros Hret Ht Hl Hans Ha. split.
  - intros Hno.
    destruct (run_loop_on f (seqZ 1 n) self w Hret Ht Hl Hans Ha)
      as (self' & w' & Hloop & _ & _ & Hrc & Hcc).
    { intros j Hj. rewrite length_seqZ in Hj.
      replace (cycles_completed self + 1 + Z.of_nat j)
        with (cycles_completed self + (1 + Z.of_nat j)) by lia.
      apply Hno. lia. }
    exists self', w'. split; [exact Hloop|]. split; [exact Hrc|].
    rewrite Hcc, length_seqZ. lia.
  - intros k Hk Hyes Hno.
    assert (Hsplit : seqZ 1 n = seqZ 1 (k - 1) ++ k :: seqZ (k + 1) (n - k)).
    { replace n with ((k - 1) + (1 + (n - k))) at 1 by lia.
      rewrite seqZ_app by lia. f_equal.
      replace (1 + (k - 1)) with k by lia.
      rewrite seqZ_cons by lia. f_equal. f_equal; lia. }
    rewrite Hsplit, run_loop_app.
    destruct (run_loop_on f (seqZ 1 (k - 1)) self w Hret Ht Hl Hans Ha)
      as (self1 & w1 & Hloop & Hw & Ha1 & Hrc & Hcc).
    { intros j Hj. rewrite length_seqZ in Hj.
      replace (cycles_completed self + 1 + Z.of_nat j)
        with (cycles_completed self + (1 + Z.of_nat j)) by lia.
      apply Hno. lia. }
    rewrite Hloop. rewrite length_seqZ in Hcc.
    pose proof Hw as (_ & Hsm & _ & _).
    destruct (run_loop_hit f k (seqZ (k + 1) (n - k)) self1 w1)
      as (self' & w' & Hhit & Hrc' & Hcc').
    + now apply (handlers_return_wiring self).
    + now apply (tame_wiring self).
    + now apply (leaves_record_wiring self).
    + now apply (answers_wiring f self).
    + now rewrite Hsm.
    + rewrite Hcc. replace (cycles_completed self + Z.of_nat (Z.to_nat (k - 1)) + 1)
        with (cycles_completed self + k) by lia. exact Hyes.
    + exists self', w'. split; [exact Hhit|]. split.
      * rewrite Hrc', Hrc, <- app_assoc. f_equal.
        replace k with ((k - 1) + 1) at 3 by lia.
        rewrite seqZ_app by lia. f_equal.
        replace (1 + (k - 1)) with k by lia. reflexivity.
      * rewrite Hcc', Hcc. lia.
Qed.

Lemma startup_journal (self : t) (branch : string) (w w1 : World) :
  lift (startup self branch) w = (Returned tt, w1) -> journal w1 = journal w.
Proof. apply lift_journal. Qed.

(** X25.  [run] stops at the first cycle after which the completion
    predicate says yes, and at the iteration limit otherwise.  With
    handlers that return and a predicate that answers [f] of the number of
    completed cycles: if [f] is false after each of the cycles [1 .. n], n
    the limit in force, [run] returns false having run exactly these
    cycles (none when n is zero or negative); if [f] first is true after
    cycle k <= n, [run] returns true having run exactly the cycles
    [1 .. k]. *)
Theorem run_stops_at_the_first_signal (self : t) (max_iterations : option Z)
    (branch : string) (w w1 : World) (f : Z -> bool) :
  handlers_return self ->
  tame self ->
  leaves_record self ->
  answers f self ->
  lift (startup self branch) w = (Returned tt, w1) ->
  appendable (state_manager self) (env w1) ->
  let n := or_config max_iterations self in
  ((forall i, 1 <= i <= n -> f (cycles_completed self + i) = false) ->
   exists self' w',
     run self max_iterations branch w = (Returned false, self', w') /\
     run_cycle_calls (journal w') = run_cycle_calls (journal w) ++ seqZ 1 n /\
     cycles_completed self' = cycles_completed self + Z.max 0 n) /\
  (forall k,
     1 <= k <= n ->
     f (cycles_completed self + k) = true ->
     (forall i, 1 <= i < k -> f (cycles_completed self + i) = false) ->
     exists self' w',
       run self max_iterations branch w = (Returned true, self', w') /\
       run_cycle_calls (journal w') = run_cycle_calls (journal w) ++ seqZ 1 k /\
       cycles_completed self' = cycles_completed self + k).
Proof.
  intros Hret Ht Hl Hans Hstart Ha n.
  unfold run. fold n. rewrite Hstart.
  rewrite <- (startup_journal _ _ _ _ Hstart).
  apply run_loop_stops; assumption.
Qed.

Lemma run_stops_at_the_first_signal_witness :
  let self := Scenario.engine Scenario.all_mocked (complete_after 3) in
  (exists self' w',
     run self (Some 2) "main" Scenario.booted = (Returned false, self', w') /\
     run_cycle_calls (journal w') = [1; 2] /\ cycles_completed self' = 2) /\
  (exists self' w',
     run self (Some 5) "main" Scenario.booted = (Returned true, self', w') /\
     run_cycle_calls (journal w') = [1; 2; 3] /\ cycles_completed self' = 3) /\
  (exists self' w',
     run self (Some (-1)) "main" Scenario.booted = (Returned false, self', w') /\
     run_cycle_calls (journal w') = []).
Proof.
  intros self.
  assert (Hstart : lift (startup self "main") Scenario.booted =
                   (Returned tt, snd (lift (startup self "main") Scenario.booted)))
    by reflexivity.
  assert (Hans : answers (Z.leb 3) self) by now apply answers_complete_after.
  pose proof (fun mi =>
    run_stops_at_the_first_signal self mi "main" Scenario.booted _ (Z.leb 3)
      (all_mocked_return _) (tame_all_mocked _) (leaves_record_all_mocked _)
      Hans Hstart I) as Hrun.
  split; [|split].
  - destruct (Hrun (Some 2)) as [Hno _].
    destruct Hno as (self' & w' & H1 & H2 & H3).
    { intros i Hi. apply Z.leb_gt. cbn in Hi |- *. lia. }
    exists self', w'. split; [exact H1|]. split; [exact H2 | exact H3].
  - destruct (Hrun (Some 5)) as [_ Hyes].
    destruct (Hyes 3) as (self' & w' & H1 & H2 & H3).
    { cbn. lia. }
    { reflexivity. }
    { intros i Hi. apply Z.leb_gt. cbn. lia. }
    exists self', w'. split; [exact H1|]. split; [exact H2 | exact H3].
  - destruct (Hrun (Some (-1))) as [Hno _].
    destruct Hno as (self' & w' & H1 & H2 & _).
    { intros i Hi. cbn in Hi. lia. }
    exists self', w'. split; [exact H1 | exact H2].
Defined.

(** X26.  The orchestrator as shipped completes after its third successful
    cycle: with the completion predicate of the class and handlers that
    return, [run] returns true after the cycle that brings the count of
    completed cycles to three (the first cycle, if the count is there
    already), when the iteration limit allows that cycle, and false after
    the last allowed cycle otherwise. *)
Theorem stock_run_completes_at_three (repr : json -> string) (self : t)
    (max_iterations : option Z) (branch : string) (w w1 : World) :
  stock_signal repr self ->
  handlers_return self ->
  tame self ->
  leaves_record self ->
  lift (startup self branch) w = (Returned tt, w1) ->
  appendable (state_manager self) (env w1) ->
  let n := or_config max_iterations self in
  let k := Z.max 1 (3 - cycles_completed self) in
  exists self' w',
    run self max_iterations branch w = (Returned (k <=? n), self', w') /\
    run_cycle_calls (journal w') = run_cycle_calls (journal w) ++ seqZ 1 (Z.min k n) /\
    cycles_completed self' = cycles_completed self + Z.max 0 (Z.min k n).
Proof.
  intros Hstock Hret Ht Hl Hstart Ha n k.
  assert (Hans : answers (Z.leb 3) self).
  { intros done e l r Hrec. rewrite Hstock. eapply StockMore.stock_counts. exact Hrec. }
  unfold run. fold n. rewrite Hstart.
  rewrite <- (startup_journal _ _ _ _ Hstart).
  destruct (run_loop_stops (Z.leb 3) self w1 n Hret Ht Hl Hans Ha) as [Hno Hyes].
  destruct (Z.leb_spec k n) as [Hle|Hgt].
  - destruct (Hyes k) as (self' & w' & H1 & H2 & H3).
    { subst k. lia. }
    { apply Z.leb_le. subst k. lia. }
    { intros i Hi. apply Z.leb_gt. subst k. lia. }
    exists self', w'. split; [exact H1|].
    rewrite Z.min_l by lia. split; [exact H2|]. rewrite H3. subst k. lia.
  - destruct Hno as (self' & w' & H1 & H2 & H3).
    { intros i Hi. apply Z.leb_gt. subst k. lia. }
    exists self', w'. split; [exact H1|].
    rewrite Z.min_r by lia. split; [exact H2 | exact H3].
Qed.

Lemma stock_run_completes_at_three_witness :
  let repr := fun _ : json => EmptyString in
  let self := Scenario.engine Scenario.all_mocked
                (default_check_completion_signal repr Scenario.manager) in
  (exists self' w',
     run self (Some 2) "main" Scenario.booted = (Returned false, self', w') /\
     cycles_completed self' = 2) /\
  (exists self' w',
     run self (Some 5) "main" Scenario.booted = (Returned true, self', w') /\
     run_cycle_calls (journal w') = [1; 2; 3]).
Proof.
  intros repr self.
  assert (Hstart : lift (startup self "main") Scenario.booted =
                   (Returned tt, snd (lift (startup self "main") Scenario.booted)))
    by reflexivity.
  pose proof (fun mi =>
    stock_run_completes_at_three repr self mi "main" Scenario.booted _
      eq_refl (all_mocked_return _) (tame_all_mocked _) (leaves_record_all_mocked _)
      Hstart I) as Hrun.
  split.
  - destruct (Hrun (Some 2)) as (self' & w' & H1 & _ & H3).
    exists self', w'. split; [exact H1 | exact H3].
  - destruct (Hrun (Some 5)) as (self' & w' & H1 & H2 & _).
    exists self', w'. split; [exact H1 | exact H2].
Defined.

(** *** A store that cannot take the record *)

Lemma run_phases_hands_off (ps : list CyclePhase) :
  forall self cyc w r self1 cyc1 w1,
    hands_off self ->
    run_phases ps self cyc w = (r, self1, cyc1, w1) ->
    files (env w1) = files (env w) /\ forall x, r <> Aborted x.
Proof.
  induction ps as [|p ps IH]; intros self cyc w r self1 cyc1 w1 Hh H.
  - cbn in H. injection H as <- _ _ <-. split; [reflexivity | discriminate].
  - cbn [run_phases] in H.
    destruct (is_COMPLETE p); [now apply IH in H|].
    pose proof (quiet_acquire (rate_limiter self) w) as [Qf _].
    destruct (RateLimiter.acquire (rate_limiter self) w) as [rl wa].
    cbn [snd] in Qf.
    cbn [phase_handlers with_rate_limiter] in H.
    destruct (phase_handlers self p) as [h|] eqn:Hp.
    + destruct (Hh p h (CycleState.phase_results (CycleState.with_current_phase cyc p))
                  (env wa) Hp) as [Hna Hkeep].
      destruct (h p _ (env wa)) as [[output|x|x] e]; cbn [fst snd] in *.
      * apply IH in H; [|exact Hh]. destruct H as [Hf Hr].
        split; [cbn [env] in Hf; congruence | exact Hr].
      * injection H as <- _ _ <-. split; [cbn [env]; congruence | discriminate].
      * exfalso. now apply (Hna x).
    + injection H as <- _ _ <-. split; [exact Qf | discriminate].
Qed.

Lemma not_appendable_files (sm : StateManager.t) (e e' : Env) :
  files e' = files e -> ~ appendable sm e -> ~ appendable sm e'.
Proof. unfold appendable. now intros ->. Qed.

Lemma cycle_except_unrecordable (x : exn) (self : t) (cyc : CycleState.t) (w : World) :
  ~ appendable (state_manager self) (env w) ->
  exists y self' w',
    cycle_except x self cyc w = (Raised y, self', w') /\
    (exn_class y = "TypeError" \/ exn_class y = "AttributeError") /\
    files (env w') = files (env w) /\
    journal w' = journal w /\
    cycles_completed self' = cycles_completed self.
Proof.
  intros Hno. unfold cycle_except. cbn [datetime_now].
  set (result := failure_result _ _ x).
  destruct (StateManagerMore.add_cycle_result_misshapen (state_manager self) result
              (advance (env w))) as (y & Hadd & Hclass).
  { eapply not_appendable_files; [|exact Hno]. reflexivity. }
  cbn [state_manager with_current_cycle].
  unfold lift. cbn [env journal]. rewrite Hadd.
  eexists y, _, _. split; [reflexivity|]. split; [exact Hclass|].
  split; [reflexivity|]. split; reflexivity.
Qed.

(** X27.  A cycle that cannot record its result does not return: when the
    progress document is of a shape that [add_cycle_result] cannot extend
    and the handlers leave the files alone, [_run_cycle] raises the
    [TypeError] or [AttributeError] of the failed write out of its own
    [except] block, with nothing written and the count of completed
    cycles unchanged, and the loop of [run] ends in that exception. *)
Theorem unrecordable_cycle_raises (self : t) (n : Z) (w : World) :
  hands_off self ->
  ~ appendable (state_manager self) (env w) ->
  exists y self' w',
    _run_cycle self n w = (Raised y, self', w') /\
    (exn_class y = "TypeError" \/ exn_class y = "AttributeError") /\
    files (env w') = files (env w) /\
    cycles_completed self' = cycles_completed self /\
    forall more, run_loop (n :: more) self w = (Raised y, self', w').
Proof.
  intros Hh Hno.
  destruct (cycle_begin_journal n w) as [Bf _].
  assert (Hcycle : exists y self' w',
             _run_cycle self n w = (Raised y, self', w') /\
             (exn_class y = "TypeError" \/ exn_class y = "AttributeError") /\
             files (env w') = files (env w) /\
             cycles_completed self' = cycles_completed self).
  { unfold _run_cycle, cycle_try.
    destruct (cycle_begin n w) as [cyc w2]. cbn [snd] in Bf.
    destruct (run_phases all_phases self cyc w2) as [[[r self1] cyc1] w3] eqn:Ep.
    destruct (run_phases_hands_off _ _ _ _ _ _ _ _ Hh Ep) as [Hf Hna].
    destruct (run_phases_frame _ _ _ _ _ _ _ _ Ep) as ((_ & Hsm & _ & _) & Hcc & _ & _).
    assert (Hno3 : ~ appendable (state_manager self1) (env w3)).
    { rewrite Hsm. eapply not_appendable_files; [|exact Hno]. congruence. }
    destruct r as [[]|x|x].
    - unfold after_phases. cbn [datetime_now].
      set (result := success_result _ _).
      destruct (StateManagerMore.add_cycle_result_misshapen (state_manager self1) result
                  (advance (env w3))) as (y & Hadd & _).
      { eapply not_appendable_files; [|exact Hno3]. reflexivity. }
      unfold lift at 1. cbn [env journal]. rewrite Hadd.
      match goal with
      | |- context [cycle_except y ?s ?c ?w0] =>
          destruct (cycle_except_unrecordable y s c w0)
            as (y' & self' & w' & He & Hclass & Hf' & _ & Hcc')
      end.
      { exact Hno3. }
      rewrite He. exists y', self', w'. split; [reflexivity|].
      split; [exact Hclass|].
      cbn [env files advance] in Hf'.
      split; [congruence|]. rewrite Hcc'. exact Hcc.
    - destruct (cycle_except_unrecordable x self1 cyc1 w3 Hno3)
        as (y' & self' & w' & He & Hclass & Hf' & _ & Hcc').
      rewrite He. exists y', self', w'. split; [reflexivity|].
      split; [exact Hclass|]. split; congruence.
    - exfalso. now apply (Hna x). }
  destruct Hcycle as (y & self' & w' & Hrun & Hclass & Hf & Hcc).
  exists y, self', w'. split; [exact Hrun|]. split; [exact Hclass|].
  split; [exact Hf|]. split; [exact Hcc|].
  intros more. cbn [run_loop]. now rewrite Hrun.
Qed.

Lemma unrecordable_cycle_raises_witness :
  let self := Scenario.engine Scenario.all_mocked never_complete in
  let w := MoreSamples.list_as_progress Scenario.booted in
  ~ appendable Scenario.manager (env w) /\
  exists y self' w',
    run_loop [1; 2] self w = (Raised y, self', w') /\
    run_cycle_calls (journal w') = [1] /\
    files (env w') = files (env w).
Proof.
  intros self w.
  assert (Hno : ~ appendable (state_manager self) (env w)) by (intros H; exact H).
  assert (Hh : hands_off self).
  { intros p h results e Hp. cbn in Hp. unfold Scenario.all_mocked in Hp.
    destruct (is_COMPLETE p); [discriminate|]. injection Hp as <-.
    split; [discriminate | reflexivity]. }
  split; [exact Hno|].
  destruct (unrecordable_cycle_raises self 1 w Hh Hno)
    as (y & self' & w' & _ & _ & Hf & _ & Hloop).
  exists y, self', w'. split; [apply Hloop|]. split; [|exact Hf].
  assert (Hw : w' = snd (run_loop [1; 2] self w)) by now rewrite Hloop.
  rewrite Hw. vm_compute. reflexivity.
Defined.

(** *** A marker that does not record a text *)

(** X28.  A branch marker whose ["branch"] entry is not a text stops [run]
    before the first cycle: [archive_current_state] takes the entry for a
    branch other than the current one and fails on its [replace], so that
    [run] raises [AttributeError] with no cycle run, no folder made and no
    file written, the marker included. *)
Theorem odd_marker_stops_the_run (self : t) (max_iterations : option Z)
    (branch : string) (w : World) (v : json) :
  recorded_branch (state_manager self) (env w) = Some v ->
  (forall s, v <> JStr s) ->
  exists x w',
    run self max_iterations branch w = (Raised x, self, w') /\
    exn_class x = "AttributeError" /\
    journal w' = journal w /\
    files (env w') = files (env w) /\
    dirs (env w') = dirs (env w).
Proof.
  intros Hrec Hodd.
  assert (Hdiff : StateManager.differs_from
                    (default JNull (recorded_branch (state_manager self) (env w)))
                    branch = true).
  { apply StateManagerProofs.differs_from_recorded. exists v. split; [exact Hrec|].
    apply Hodd. }
  assert (Harch : exists x,
             StateManager.archive_current_state (state_manager self) branch (env w) =
               (Raised x, advance (env w)) /\ exn_class x = "AttributeError").
  { unfold StateManager.archive_current_state. unfold bind at 1.
    rewrite StateManagerProofs.should_archive_reads, Hdiff. cbn [negb].
    unfold bind at 1. rewrite StateManagerProofs.get_current_branch_reads, Hrec.
    cbv [default from_option id].
    unfold bind at 1. unfold now at 1. unfold bind at 1.
    destruct v as [ |b|z|q|s|l|d];
      try (eexists; split; reflexivity).
    now destruct (Hodd s). }
  destruct Harch as (x & Harch & Hclass).
  exists x. eexists. unfold run, startup, lift. unfold bind at 1. rewrite Harch.
  split; [reflexivity|]. split; [exact Hclass|].
  split; [reflexivity|]. split; reflexivity.
Qed.

Lemma odd_marker_stops_the_run_witness :
  let self := Scenario.engine Scenario.all_mocked never_complete in
  let w := MoreSamples.number_as_branch Scenario.booted in
  recorded_branch Scenario.manager (env w) = Some (JInt 7) /\
  exists x w',
    run self None "main" w = (Raised x, self, w') /\
    exn_class x = "AttributeError" /\
    run_cycle_calls (journal w') = [].
Proof.
  intros self w.
  assert (Hrec : recorded_branch (state_manager self) (env w) = Some (JInt 7))
    by reflexivity.
  split; [exact Hrec|].
  destruct (odd_marker_stops_the_run self None "main" w (JInt 7) Hrec
              ltac:(discriminate)) as (x & w' & H1 & H2 & H3 & _).
  exists x, w'. split; [exact H1|]. split; [exact H2|]. now rewrite H3.
Defined.

End OrchestratorMore.
